(** * The grant pipeline of node-oauth2-server, embedded in Rocq

    Shallow embedding of [lib/grant.js], [lib/grantBase.js] and the two
    [PreApprovedGrant] modules.  The storage model, the token generator and
    the transport are external collaborators: their answers are given by
    oracles and every invocation is recorded in an event log.  The
    callback-passing style of the source is flattened: a step returns how it
    completed (called [done], returned without calling it, or threw). *)

From Stdlib Require Import ZArith Lia Ascii String.
From stdpp Require Import base option strings list gmap sorting.
From Equations Require Import Equations.

Set Warnings "-register-all".
Local Open Scope string_scope.
Local Open Scope list_scope.
Local Open Scope Z_scope.

(** ** JavaScript values *)

(** The values that flow through the pipeline.  Numbers are the integers
    (seconds, milliseconds); a date carries its time value in milliseconds,
    [None] being an Invalid Date; a plain object is a finite map from its
    own property names to values; a Number object wraps a number
    ([Number.prototype] is one, wrapping 0); a function is opaque.  A
    string is the sequence of bytes of its UTF-8 encoding. *)
Inductive JSValue : Type :=
  | VUndefined
  | VNull
  | VBool (b : bool)
  | VNum (n : Z)
  | VStr (s : string)
  | VDate (t : option Z)
  | VFun (name : string)
  | VObj (props : gmap string JSValue)
  | VNumberObj (n : Z).

(** ToBoolean, as used by [if (v)], [!v], [a || b] and [a && b]. *)
Definition truthy (v : JSValue) : bool :=
  match v with
  | VUndefined | VNull => false
  | VBool b => b
  | VNum n => negb (Z.eqb n 0)
  | VStr s => negb (String.eqb s EmptyString)
  | VDate _ | VFun _ | VObj _ | VNumberObj _ => true
  end.

(** [typeof v === 'object'] *)
Definition typeof_object (v : JSValue) : bool :=
  match v with
  | VNull | VDate _ | VObj _ | VNumberObj _ => true
  | _ => false
  end.

(** [v === undefined], [v === null] *)
Definition is_undefined (v : JSValue) : bool :=
  match v with VUndefined => true | _ => false end.

Definition is_null (v : JSValue) : bool :=
  match v with VNull => true | _ => false end.

(** [a === b].  Objects, dates and functions compare by reference; the
    pipeline only ever compares a storage value with a string it extracted
    itself, so two such references are never the same one. *)
Definition strict_eq (a b : JSValue) : bool :=
  match a, b with
  | VUndefined, VUndefined | VNull, VNull => true
  | VBool x, VBool y => Bool.eqb x y
  | VNum x, VNum y => Z.eqb x y
  | VStr x, VStr y => String.eqb x y
  | _, _ => false
  end.

(** [v.k] for a fixed name [k] on a value that is neither [null] nor
    [undefined] (every such read in the source is guarded by a truthiness
    test, except the reissue test, which checks [null] on its own).  None of
    the names the source reads this way is defined by a built-in prototype. *)
Definition prop (v : JSValue) (k : string) : JSValue :=
  match v with
  | VObj ps => default VUndefined (ps !! k)
  | _ => VUndefined
  end.

(** [a || b] *)
Definition js_or (a b : JSValue) : JSValue := if truthy a then a else b.

(** ** Numbers *)

(** A number that need not be an integer: NaN, an infinity, or the double
    [m × 2^e]. *)
Inductive Double : Type :=
  | DNaN
  | DInfinity (negative : bool)
  | DNum (m e : Z).

(** [num / den] rounded to the nearest integer, ties to even. *)
Definition nearest_even (num den : Z) : Z :=
  let k := num / den in
  let r := num mod den in
  if 2 * r <? den then k
  else if den <? 2 * r then k + 1
  else if Z.even k then k else k + 1.

(** The double nearest to [p / q], for [0 < p] and [0 < q]: 53 bits of
    mantissa, exponents from -1074 (subnormals) to 971, ties to even,
    infinity from [2^1024 - 2^970] on. *)
Definition round_ratio (p q : Z) : Double :=
  let scaled e := if 0 <=? e then (p, q * 2 ^ e) else (p * 2 ^ (- e), q) in
  let e0 := Z.log2 p - Z.log2 q - 52 in
  let e1 := let '(n, d) := scaled e0 in if 2 ^ 52 * d <=? n then e0 else e0 - 1 in
  let e := Z.max e1 (-1074) in
  let '(n, d) := scaled e in
  let m := nearest_even n d in
  if (971 <? e) || ((e =? 971) && (m =? 2 ^ 53)) then DInfinity false
  else DNum m e.

Definition negate (d : Double) : Double :=
  match d with
  | DNaN => DNaN
  | DInfinity neg => DInfinity (negb neg)
  | DNum m e => DNum (- m) e
  end.

(** The double nearest to [d × 10^x], for [0 <= d]. *)
Definition scale (d x : Z) : Double :=
  if d =? 0 then DNum 0 0
  else if 0 <=? x then round_ratio (d * 10 ^ x) 1
  else round_ratio d (10 ^ (- x)).

(** The result of an arithmetic operation whose exact value is the integer
    [z]: the nearest double.  Beyond the largest double the result is
    infinite; no date is that far, so [z] itself stands for it. *)
Definition fl (z : Z) : Z :=
  if Z.abs z <? 2 ^ 53 then z
  else match round_ratio (Z.abs z) 1 with
       | DNum m e => Z.sgn z * (m * 2 ^ e)
       | _ => z
       end.

(** *** StringToNumber *)

Definition byte (c : ascii) : Z := Z.of_N (N_of_ascii c).

(** The value of [c] as a digit in base [radix]. *)
Definition digit (radix : Z) (c : ascii) : option Z :=
  let n := byte c in
  let v := if (48 <=? n) && (n <=? 57) then n - 48
           else if (97 <=? n) && (n <=? 102) then n - 87
           else if (65 <=? n) && (n <=? 70) then n - 55
           else radix in
  if v <? radix then Some v else None.

(** The longest run of digits at the head of [s]: its value after the
    digits [acc] read so far, its length added to [len], and what follows. *)
Fixpoint digits (radix : Z) (s : string) (acc len : Z) : Z * Z * string :=
  match s with
  | String c rest =>
      match digit radix c with
      | Some v => digits radix rest (radix * acc + v) (len + 1)
      | None => (acc, len, s)
      end
  | EmptyString => (acc, len, s)
  end.

(** One WhiteSpace or LineTerminator code point at the head of [s] (at its
    end, read backwards, when [backwards]): TAB, LF, VT, FF, CR, SP, and in
    UTF-8 U+00A0, U+1680, U+2000 to U+200A, U+2028, U+2029, U+202F, U+205F,
    U+3000 and U+FEFF. *)
Definition white_space (backwards : bool) (s : string) : option string :=
  match s with
  | String c1 rest1 =>
      if bool_decide (byte c1 ∈ [9; 10; 11; 12; 13; 32]) then Some rest1
      else
        match rest1 with
        | String c2 rest2 =>
            let '(a, b) := if backwards then (byte c2, byte c1)
                           else (byte c1, byte c2) in
            if (a =? 194) && (b =? 160) then Some rest2
            else
              match rest2 with
              | String c3 rest3 =>
                  let '(a, b, c) :=
                    if backwards then (byte c3, byte c2, byte c1)
                    else (byte c1, byte c2, byte c3) in
                  if ((a =? 225) && (b =? 154) && (c =? 128))
                     || ((a =? 226) && (b =? 128)
                         && (((128 <=? c) && (c <=? 138))
                             || (c =? 168) || (c =? 169) || (c =? 175)))
                     || ((a =? 226) && (b =? 129) && (c =? 159))
                     || ((a =? 227) && (b =? 128) && (c =? 128))
                     || ((a =? 239) && (b =? 187) && (c =? 191))
                  then Some rest3
                  else None
              | EmptyString => None
              end
        | EmptyString => None
        end
  | EmptyString => None
  end.

Fixpoint strip (fuel : nat) (backwards : bool) (s : string) : string :=
  match fuel with
  | O => s
  | S fuel =>
      match white_space backwards s with
      | Some rest => strip fuel backwards rest
      | None => s
      end
  end.

Definition trim (s : string) : string :=
  let s := strip (String.length s) false s in
  String.rev (strip (String.length s) true (String.rev s)).

(** An optional sign: whether it is a minus, and what follows. *)
Definition sign (s : string) : bool * string :=
  match s with
  | String "+" rest => (false, rest)
  | String "-" rest => (true, rest)
  | _ => (false, s)
  end.

(** ExponentPart, or nothing, up to the end of the string. *)
Definition exponent (s : string) : option Z :=
  match s with
  | EmptyString => Some 0
  | String c rest =>
      if (byte c =? 101) || (byte c =? 69) then
        let '(neg, rest) := sign rest in
        let '(x, len, rest) := digits 10 rest 0 0 in
        if (0 <? len) && String.eqb rest EmptyString
        then Some (if neg then - x else x)
        else None
      else None
  end.

(** StrUnsignedDecimalLiteral: [Infinity], or digits with an optional
    fraction and exponent, at least one digit before or after the point. *)
Definition decimal (s : string) : Double :=
  if String.eqb s "Infinity" then DInfinity false
  else
    let '(i, a, rest) := digits 10 s 0 0 in
    let '(d, b, rest) :=
      match rest with
      | String "." rest => digits 10 rest i 0
      | _ => (i, 0, rest)
      end in
    if a + b =? 0 then DNaN
    else match exponent rest with
         | Some x => scale d (x - b)
         | None => DNaN
         end.

(** NonDecimalIntegerLiteral after its prefix. *)
Definition integer_literal (radix : Z) (s : string) : Double :=
  let '(n, len, rest) := digits radix s 0 0 in
  if (0 <? len) && String.eqb rest EmptyString then scale n 0 else DNaN.

(** StringToNumber: white space around is dropped; the empty string is 0;
    a literal in base 16, 8 or 2 takes no sign; anything outside the
    grammar is NaN. *)
Definition string_number (s : string) : Double :=
  let s := trim s in
  match s with
  | EmptyString => DNum 0 0
  | String c1 (String c2 rest) =>
      if (byte c1 =? 48) && ((byte c2 =? 120) || (byte c2 =? 88))
      then integer_literal 16 rest
      else if (byte c1 =? 48) && ((byte c2 =? 111) || (byte c2 =? 79))
      then integer_literal 8 rest
      else if (byte c1 =? 48) && ((byte c2 =? 98) || (byte c2 =? 66))
      then integer_literal 2 rest
      else let '(neg, rest) := sign s in
           if neg then negate (decimal rest) else decimal rest
  | _ => let '(neg, rest) := sign s in
         if neg then negate (decimal rest) else decimal rest
  end.

(** *** Conversions *)

(** Whether converting the object to a primitive throws: [valueOf] gives
    no primitive and the own [toString] is not callable.  An own [valueOf]
    or [toString] that is a function is taken to answer as the inherited
    one does. *)
Definition unconvertible (ps : gmap string JSValue) : bool :=
  match ps !! "toString" with
  | Some (VFun _) | None => false
  | Some _ => true
  end.

(** ToNumber(ToPrimitive(v, number)); [None] is the TypeError of an
    object that has no primitive.  A plain object or a function becomes a
    string that is no number. *)
Definition to_double (v : JSValue) : option Double :=
  match v with
  | VUndefined => Some DNaN
  | VNull => Some (DNum 0 0)
  | VBool b => Some (DNum (if b then 1 else 0) 0)
  | VNum n => Some (DNum n 0)
  | VStr s => Some (string_number s)
  | VDate (Some t) => Some (DNum t 0)
  | VDate None => Some DNaN
  | VFun _ => Some DNaN
  | VObj ps => if unconvertible ps then None else Some DNaN
  | VNumberObj n => Some (DNum n 0)
  end.

(** The value of a double that is an integer. *)
Definition integer (d : Double) : option Z :=
  match d with
  | DNum m e =>
      if 0 <=? e then Some (m * 2 ^ e)
      else if m mod 2 ^ (- e) =? 0 then Some (m / 2 ^ (- e))
      else None
  | _ => None
  end.

(** The integer [v] converts to, if it converts to one. *)
Definition to_number (v : JSValue) : option Z :=
  match to_double v with
  | Some d => integer d
  | None => None
  end.

(** [d < n] for an integer [n]. *)
Definition double_lt (d : Double) (n : Z) : bool :=
  match d with
  | DNaN => false
  | DInfinity neg => neg
  | DNum m e => if 0 <=? e then m * 2 ^ e <? n else m <? n * 2 ^ (- e)
  end.

(** [v < now] where [now] is a valid date: false when [v] converts to NaN;
    [None] when the conversion throws. *)
Definition lt_date (v : JSValue) (now : Z) : option bool :=
  match to_double v with
  | Some d => Some (double_lt d now)
  | None => None
  end.

(** ** Dates *)

(** The time zone of the host: the offset of local time from UTC, in
    milliseconds, in force at a UTC time value and at a local one. *)
Record Zone : Type := {
  offset_at : Z -> Z;
  offset_at_local : Z -> Z
}.

Definition UTC : Zone :=
  {| offset_at := fun _ => 0; offset_at_local := fun _ => 0 |}.

Definition msPerDay : Z := 86400000.
Definition msPerHour : Z := 3600000.
Definition msPerMinute : Z := 60000.
Definition msPerSecond : Z := 1000.

Definition LocalTime (z : Zone) (t : Z) : Z := t + offset_at z t.

(** [getSeconds()] of the valid date [t]. *)
Definition getSeconds (z : Zone) (t : Z) : Z :=
  (LocalTime z t / msPerSecond) mod 60.

(** [s] ms after midnight of the day, hour and minute [t] falls in, each
    product and sum rounded as the engine rounds it. *)
Definition MakeDate (t seconds : Z) : Z :=
  let day := t / msPerDay in
  let hour := (t / msPerHour) mod 24 in
  let minute := (t / msPerMinute) mod 60 in
  let milli := t mod msPerSecond in
  let time := fl (fl (fl (hour * msPerHour + minute * msPerMinute)
                      + fl (seconds * msPerSecond)) + milli) in
  fl (fl (day * msPerDay) + time).

(** TimeClip: a time value is within 8.64e15 ms of the epoch. *)
Definition TimeClip (t : Z) : option Z :=
  if Z.abs t <=? 8640000000000000 then Some t else None.

(** [setSeconds(sec)] on the valid date [t]: the seconds of its local time
    are replaced by [sec] truncated to an integer, overflowing into the
    minutes and beyond; the result is read back as UTC by the offset in
    force at that local time.  NaN or an infinity leaves an Invalid Date,
    and so does a result out of range. *)
Definition setSeconds (z : Zone) (t : Z) (sec : Double) : option Z :=
  match sec with
  | DNum m e =>
      let s := if 0 <=? e then m * 2 ^ e else Z.quot m (2 ^ (- e)) in
      let date := MakeDate (LocalTime z t) s in
      TimeClip (fl (date - offset_at_local z date))
  | _ => None
  end.

(** The string a number of seconds converts to, for 0 to 59. *)
Definition seconds_string (s : Z) : string :=
  let unit := String (ascii_of_N (Z.to_N (48 + s mod 10))) EmptyString in
  if s <? 10 then unit
  else String (ascii_of_N (Z.to_N (48 + s / 10))) unit.

(** [s + v]: a number, a Number object, a boolean or [null] is added,
    [undefined] gives NaN; anything else is turned into a string and
    appended to the digits of [s].  [None] is the TypeError of an object
    that has no primitive. *)
Definition plus (s : Z) (v : JSValue) : option Double :=
  match v with
  | VUndefined => Some DNaN
  | VNull => Some (DNum s 0)
  | VBool b => Some (DNum (s + (if b then 1 else 0)) 0)
  | VNum n | VNumberObj n => Some (DNum (fl (s + n)) 0)
  | VStr x => Some (string_number (seconds_string s +:+ x))
  | VDate _ | VFun _ => Some DNaN
  | VObj ps => if unconvertible ps then None else Some DNaN
  end.

(** [expires = new Date(now); expires.setSeconds(expires.getSeconds() + lifetime)]:
    the date that results, [None] when the addition throws.  [new Date(now)]
    copies the time value of [now], milliseconds included. *)
Definition add_seconds (z : Zone) (now : Z) (lifetime : JSValue) : option JSValue :=
  match plus (getSeconds z now) lifetime with
  | Some sec => Some (VDate (setSeconds z now sec))
  | None => None
  end.

(** A string-valued slot that may be [undefined]: request parameters and
    the fields of [Client]. *)
Definition of_param (p : option string) : JSValue :=
  match p with
  | Some s => VStr s
  | None => VUndefined
  end.

(** [s] between double quotes, for the messages that quote a parameter. *)
Definition quoted (s : string) : string :=
  String (Ascii.ascii_of_nat 34) (s +:+ String (Ascii.ascii_of_nat 34) EmptyString).

(** A property key computed from such a slot: [o[p]]. *)
Definition key_of (p : option string) : string := default "undefined" p.

(** ** Errors *)

(** Exceptions the pipeline can raise: the engine's [TypeError] and the
    [new Error(msg)] of the first pre-approved constructor. *)
Inductive Exn : Type :=
  | TypeError
  | Error (msg : string).

(** Modelled from the spec: [lib/error.js] is not among the sources.  §4.2:
    a tagged error with a kind, a message (which may be [false]) and an
    optional wrapped cause. *)
Definition error (kind message cause : JSValue) : JSValue :=
  VObj (<["cause" := cause]> (<["message" := message]> {["kind" := kind]})).

(** ** The step runner *)

(** How a step ends: it calls [done(err, response)], returns without calling
    it, or throws.  [done()] is [Done VUndefined VUndefined].  A step calls
    [done] at most once, as every step of the source does when each
    collaborator calls back once. *)
Inductive Completion : Type :=
  | Done (err response : JSValue)
  | Pending
  | Threw (e : Exn).

(** What happens to the final callback [next]. *)
Inductive Outcome : Type :=
  | Called (err response : JSValue)
  | NotCalled
  | Uncaught (e : Exn).

Definition done_ok : Completion := Done VUndefined VUndefined.

(** Keeps the equation [a = b] available in the branches of a match on [a]. *)
Definition inspect {A : Type} (a : A) : {b : A | a = b} := exist _ a eq_refl.

Section Runner.
Context {W : Type}.

(** A step reads and updates the shared context. *)
Definition Step : Type := W -> Completion * W.

(** The result of a run, with the positions that ran and how each step
    completed (ghost data: the source does not keep it). *)
Record Run : Type := mkRun {
  outcome : Outcome;
  ran : list (nat * Completion);
  final : W
}.

(** [run(pos)] of the source; [last] is [fns.length - 1]. *)
Equations? run (fns : list Step) (last : Z) (pos : nat)
    (tr : list (nat * Completion)) (w : W) : Run
    by wf (length fns - pos)%nat lt :=
  run fns last pos tr w with inspect (fns !! pos) := {
    | exist _ None _ => mkRun (Uncaught TypeError) tr w
    | exist _ (Some f) Hf with f w := {
      | (Done err response, w') =>
          if truthy err
          then mkRun (Called err VUndefined) (tr ++ [(pos, Done err response)]) w'
          else if Z.eqb (Z.of_nat pos) last
          then mkRun (Called VNull response) (tr ++ [(pos, Done err response)]) w'
          else run fns last (S pos) (tr ++ [(pos, Done err response)]) w'
      | (Pending, w') => mkRun NotCalled (tr ++ [(pos, Pending)]) w'
      | (Threw e, w') => mkRun (Uncaught e) (tr ++ [(pos, Threw e)]) w' } }.
Proof.
  apply lookup_lt_Some in Hf. lia.
Qed.

Definition runner (fns : list Step) (w : W) : Run :=
  run fns (Z.of_nat (length fns) - 1) 0%nat [] w.

(** The same loop by recursion on the steps still to run. *)
Fixpoint run_list (pos : nat) (tr : list (nat * Completion))
    (fs : list Step) (w : W) : Run :=
  match fs with
  | [] => mkRun (Uncaught TypeError) tr w
  | f :: rest =>
      match f w with
      | (Done err response, w') =>
          let tr' := tr ++ [(pos, Done err response)] in
          if truthy err then mkRun (Called err VUndefined) tr' w'
          else match rest with
               | [] => mkRun (Called VNull response) tr' w'
               | _ :: _ => run_list (S pos) tr' rest w'
               end
      | (Pending, w') => mkRun NotCalled (tr ++ [(pos, Pending)]) w'
      | (Threw e, w') => mkRun (Uncaught e) (tr ++ [(pos, Threw e)]) w'
      end
  end.
End Runner.

Arguments Step : clear implicits.
Arguments Run : clear implicits.

(** ** Data model *)

(** [config.accessTokenLifetime] and [config.refreshTokenLifetime]: [null],
    a number of seconds, or an object mapping client ids to seconds. *)
Inductive Lifetime : Type :=
  | LNull
  | LSeconds (n : Z)
  | LMap (m : gmap string Z).

(** [config.regex]: each pattern is given by the strings it matches. *)
Record Regex : Type := {
  re_clientId : string -> bool;
  re_grantType : string -> bool
}.

(** The configuration; [config.model] is kept apart, as [Model] below. *)
Record Config : Type := {
  grants : list string;
  accessTokenLifetime : Lifetime;
  refreshTokenLifetime : Lifetime;
  regex : Regex;
  continueAfterResponse : bool
}.

(** [req.app], the place the caller's later handlers read. *)
Record App : Type := {
  app_user : JSValue;
  app_oauth : JSValue
}.

(** The request: [basic] is what [auth(req)] of basic-auth extracts. *)
Record Request : Type := {
  method : string;
  mime : string;
  payload : option (gmap string string);
  basic : option (string * string);
  app : App
}.

Record Client : Type := {
  clientId : option string;
  clientSecret : option string
}.

(** The [preApproved] argument of the pre-approved constructors. *)
Record PreApproved : Type := {
  pa_user : JSValue;
  client_id : option string;
  client_secret : option string;
  grant_type : option string
}.

(** The grant object, [this] of every step.  A field that has not been
    assigned yet is [None] or [VUndefined]. *)
Record Context : Type := {
  config : Config;
  now : Z;
  req : option Request;
  preApproved : option PreApproved;
  client : option Client;
  clientModel : JSValue;
  user : JSValue;
  grantType : option string;
  accessToken : JSValue;
  refreshToken : JSValue
}.

Inductive TokenKind : Type := AccessTokenKind | RefreshTokenKind.

(** Invocations of the storage model. *)
Inductive Call : Type :=
  | GetClient (id secret : option string)
  | GrantTypeAllowed (id grant : option string)
  | GetUser (username password : string)
  | GetUserFromClient (id secret : option string)
  | GetAuthCode (code : string)
  | GetRefreshToken (token : string)
  | RevokeRefreshToken (token : string)
  | ExtendedGrant (grant : string) (rq : option Request)
  | SaveAccessToken (token : JSValue) (id : option string) (expires user : JSValue)
      (grant : option string)
  | SaveRefreshToken (token : JSValue) (id : option string) (expires user : JSValue).

(** The arguments a collaborator passes to its callback: [(err, a, b)]. *)
Record Reply : Type := {
  r_err : JSValue;
  r_val : JSValue;
  r_val2 : JSValue
}.

(** What the pipeline did to its collaborators, in order. *)
Inductive Event : Type :=
  | Storage (c : Call) (r : Reply)
  | Token (k : TokenKind) (r : Reply)
  | Respond (response : JSValue).

(** The collaborators.  Each callback is invoked exactly once; the answer
    may depend on everything that happened before.  [revokeRefreshToken] and
    [extendedGrant] tell whether the model has these optional methods.
    [generate] is [token(this, kind, callback)] of [lib/token.js].  [zone]
    is the time zone of the host, which the local-time methods of [Date]
    consult. *)
Record Model : Type := {
  respond : list Event -> Call -> Reply;
  generate : list Event -> Context -> TokenKind -> Reply;
  revokeRefreshToken : bool;
  extendedGrant : bool;
  zone : Zone
}.

(** The state a run works on: the grant object, the object that [this]
    denotes inside a callback invoked by the storage layer (the global
    object for a plain call), and the event log. *)
Record World : Type := {
  this : Context;
  receiver : gmap string JSValue;
  events : list Event
}.

Definition with_this (f : Context -> Context) (w : World) : World :=
  {| this := f (this w); receiver := receiver w; events := events w |}.

Definition set_req (r : option Request) (c : Context) : Context :=
  {| config := config c; now := now c; req := r; preApproved := preApproved c;
     client := client c; clientModel := clientModel c; user := user c;
     grantType := grantType c; accessToken := accessToken c;
     refreshToken := refreshToken c |}.

Definition set_client (x : option Client) (c : Context) : Context :=
  {| config := config c; now := now c; req := req c; preApproved := preApproved c;
     client := x; clientModel := clientModel c; user := user c;
     grantType := grantType c; accessToken := accessToken c;
     refreshToken := refreshToken c |}.

Definition set_user (x : JSValue) (c : Context) : Context :=
  {| config := config c; now := now c; req := req c; preApproved := preApproved c;
     client := client c; clientModel := clientModel c; user := x;
     grantType := grantType c; accessToken := accessToken c;
     refreshToken := refreshToken c |}.

Definition set_grantType (x : option string) (c : Context) : Context :=
  {| config := config c; now := now c; req := req c; preApproved := preApproved c;
     client := client c; clientModel := clientModel c; user := user c;
     grantType := x; accessToken := accessToken c;
     refreshToken := refreshToken c |}.

Definition set_accessToken (x : JSValue) (c : Context) : Context :=
  {| config := config c; now := now c; req := req c; preApproved := preApproved c;
     client := client c; clientModel := clientModel c; user := user c;
     grantType := grantType c; accessToken := x;
     refreshToken := refreshToken c |}.

Definition set_refreshToken (x : JSValue) (c : Context) : Context :=
  {| config := config c; now := now c; req := req c; preApproved := preApproved c;
     client := client c; clientModel := clientModel c; user := user c;
     grantType := grantType c; accessToken := accessToken c;
     refreshToken := x |}.

Definition set_app (a : App) (r : Request) : Request :=
  {| method := method r; mime := mime r; payload := payload r; basic := basic r;
     app := a |}.

(** [this.k = v] evaluated inside a storage callback. *)
Definition set_receiver (k : string) (v : JSValue) (w : World) : World :=
  {| this := this w; receiver := <[k := v]> (receiver w); events := events w |}.

Definition log (e : Event) (w : World) : World :=
  {| this := this w; receiver := receiver w; events := events w ++ [e] |}.

(** [this.model.f(args, callback)]: the reply and the world once the
    callback is entered. *)
Definition call (m : Model) (c : Call) (w : World) : Reply * World :=
  let r := respond m (events w) c in (r, log (Storage c r) w).

(** [token(this, kind, callback)] *)
Definition token (m : Model) (k : TokenKind) (w : World) : Reply * World :=
  let r := generate m (events w) (this w) k in (r, log (Token k r) w).

(** [done(error(kind, message))] and [done(error('server_error', false, err))] *)
Definition fail (kind message : string) : Completion :=
  Done (error (VStr kind) (VStr message) VUndefined) VUndefined.

Definition server_error (cause : JSValue) : Completion :=
  Done (error (VStr "server_error") (VBool false) cause) VUndefined.

(** ** Lifetimes *)

(** What an object finds up its prototype chain: the names it inherits,
    bound to functions, and the prototype itself under [__proto__].  Every
    object inherits from [Object.prototype]; a number is indexed through
    [Number.prototype], a Number object of value 0 that adds three names. *)
Record Prototype : Type := {
  methods : list string;
  proto : JSValue
}.

Definition Object_prototype : Prototype :=
  {| methods :=
       ["constructor"; "hasOwnProperty"; "isPrototypeOf"; "propertyIsEnumerable";
        "toLocaleString"; "toString"; "valueOf"; "__defineGetter__";
        "__defineSetter__"; "__lookupGetter__"; "__lookupSetter__"];
     proto := VObj ∅ |}.

Definition Number_prototype : Prototype :=
  {| methods :=
       ["toExponential"; "toFixed"; "toPrecision"] ++ methods Object_prototype;
     proto := VNumberObj 0 |}.

(** [o[k]] when [o] has no own [k]. *)
Definition inherited (p : Prototype) (k : string) : JSValue :=
  if bool_decide (k ∈ methods p) then VFun k
  else if String.eqb k "__proto__" then proto p
  else VUndefined.

(** [lifetime[k]]; [None] is the TypeError of indexing [null]. *)
Definition index (l : Lifetime) (k : string) : option JSValue :=
  match l with
  | LNull => None
  | LSeconds _ => Some (inherited Number_prototype k)
  | LMap m =>
      Some (match m !! k with
            | Some n => VNum n
            | None => inherited Object_prototype k
            end)
  end.

(** The configured lifetime as a value. *)
Definition lifetime_value (l : Lifetime) : JSValue :=
  match l with
  | LNull => VNull
  | LSeconds n => VNum n
  | LMap m => VObj (VNum <$> m)
  end.

(** ** lib/grantBase.js *)

Module GrantBase.

(** The constructor: [clock] is what [new Date()] reads. *)
Definition GrantBase (cfg : Config) (clock : Z) : Context :=
  {| config := cfg; now := clock; req := None; preApproved := None;
     client := None; clientModel := VUndefined; user := VUndefined;
     grantType := None; accessToken := VUndefined;
     refreshToken := VUndefined |}.

(** The callback assigns [this.clientModel], not [self.clientModel]: the
    record lands on the callback's receiver. *)
Definition checkClient (m : Model) : Step World := fun w =>
  match client (this w) with
  | None => (Threw TypeError, w)
  | Some c =>
      let '(r, w1) := call m (GetClient (clientId c) (clientSecret c)) w in
      if truthy (r_err r) then (server_error (r_err r), w1)
      else if negb (truthy (r_val r))
      then (fail "invalid_client" "Client credentials are invalid", w1)
      else (done_ok, set_receiver "clientModel" (r_val r) w1)
  end.

Definition generateAccessToken (m : Model) : Step World := fun w =>
  let '(r, w1) := token m AccessTokenKind w in
  (Done (r_err r) VUndefined, with_this (set_accessToken (r_val r)) w1).

Definition saveAccessToken (m : Model) : Step World := fun w =>
  let accessToken := accessToken (this w) in
  if typeof_object accessToken && is_null accessToken
  then (Threw TypeError, w)
  else if typeof_object accessToken && truthy (prop accessToken "accessToken")
  then (done_ok, with_this (set_accessToken (prop accessToken "accessToken")) w)
  else
    let lifetime := accessTokenLifetime (config (this w)) in
    match client (this w) with
    | None => (Threw TypeError, w)
    | Some c =>
        match index lifetime (key_of (clientId c)) with
        | None => (Threw TypeError, w)
        | Some v =>
            let lifetime :=
              if negb (is_undefined v) then v else lifetime_value lifetime in
            let expires :=
              if negb (is_null lifetime)
              then add_seconds (zone m) (now (this w)) lifetime
              else Some VNull in
            match expires with
            | None => (Threw TypeError, w)
            | Some expires =>
                let '(r, w1) :=
                  call m (SaveAccessToken accessToken (clientId c) expires
                            (user (this w)) (grantType (this w))) w in
                if truthy (r_err r) then (server_error (r_err r), w1)
                else (done_ok, w1)
            end
        end
    end.

Definition generateRefreshToken (m : Model) : Step World := fun w =>
  if negb (bool_decide ("refresh_token" ∈ grants (config (this w))))
  then (done_ok, w)
  else
    let '(r, w1) := token m RefreshTokenKind w in
    (Done (r_err r) VUndefined, with_this (set_refreshToken (r_val r)) w1).

Definition saveRefreshToken (m : Model) : Step World := fun w =>
  let refreshToken := refreshToken (this w) in
  if negb (truthy refreshToken) then (done_ok, w)
  else if typeof_object refreshToken && truthy (prop refreshToken "refreshToken")
  then (done_ok, with_this (set_refreshToken (prop refreshToken "refreshToken")) w)
  else
    let lifetime := refreshTokenLifetime (config (this w)) in
    match client (this w) with
    | None => (Threw TypeError, w)
    | Some c =>
        match index lifetime (key_of (clientId c)) with
        | None => (Threw TypeError, w)
        | Some v =>
            let lifetime :=
              if negb (is_undefined v) then v else lifetime_value lifetime in
            let expires :=
              if negb (is_null lifetime)
              then add_seconds (zone m) (now (this w)) lifetime
              else Some VNull in
            match expires with
            | None => (Threw TypeError, w)
            | Some expires =>
                let '(r, w1) :=
                  call m (SaveRefreshToken refreshToken (clientId c) expires
                            (user (this w))) w in
                if truthy (r_err r) then (server_error (r_err r), w1)
                else (done_ok, w1)
            end
        end
    end.

End GrantBase.

(** ** lib/grant.js *)

Module Grant.

(** [/^[a-zA-Z][a-zA-Z0-9+.-]+:/] *)
Definition between (lo hi c : Ascii.ascii) : bool :=
  (N.leb (Ascii.N_of_ascii lo) (Ascii.N_of_ascii c))
  && (N.leb (Ascii.N_of_ascii c) (Ascii.N_of_ascii hi)).

Definition is_letter (c : Ascii.ascii) : bool :=
  between "a"%char "z"%char c || between "A"%char "Z"%char c.

Definition is_scheme_char (c : Ascii.ascii) : bool :=
  is_letter c || between "0"%char "9"%char c
  || Ascii.eqb c "+"%char || Ascii.eqb c "."%char || Ascii.eqb c "-"%char.

(** The rest after the first letter: one or more scheme characters, then a
    colon.  A colon is not a scheme character, so the longest run decides. *)
Fixpoint scheme_rest (seen : bool) (s : string) : bool :=
  match s with
  | EmptyString => false
  | String c rest =>
      if is_scheme_char c then scheme_rest true rest
      else seen && Ascii.eqb c ":"%char
  end.

Definition matches_extension (g : string) : bool :=
  match g with
  | EmptyString => false
  | String c rest => is_letter c && scheme_rest false rest
  end.

(** [req.payload.k] once [req.payload] is known to be an object. *)
Definition field (rq : Request) (k : string) : option (option string) :=
  match payload rq with
  | None => None
  | Some p => Some (p !! k)
  end.

Definition credsFromBasic (rq : Request) : option Client :=
  match basic rq with
  | None => None
  | Some (name, pass) => Some {| clientId := Some name; clientSecret := Some pass |}
  end.

Definition credsFromBody (rq : Request) : option Client :=
  match payload rq with
  | None => None
  | Some p => Some {| clientId := p !! "client_id"; clientSecret := p !! "client_secret" |}
  end.

Definition extractCredentials : Step World := fun w =>
  match req (this w) with
  | None => (Threw TypeError, w)
  | Some rq =>
      if negb (String.eqb (method rq) "post")
         || negb (String.eqb (mime rq) "application/x-www-form-urlencoded")
      then (fail "invalid_request"
              "Method must be POST with application/x-www-form-urlencoded encoding", w)
      else
        let g := payload rq ≫= (fun p => p !! "grant_type") in
        let w1 := with_this (set_grantType g) w in
        match g with
        | None => (fail "invalid_request" "Invalid or missing grant_type parameter", w1)
        | Some gs =>
            if negb (truthy (VStr gs))
               || negb (re_grantType (regex (config (this w))) gs)
            then (fail "invalid_request" "Invalid or missing grant_type parameter", w1)
            else
              match (match credsFromBasic rq with
                     | Some c => Some c
                     | None => credsFromBody rq
                     end) with
              | None => (Threw TypeError, w1)
              | Some c =>
                  let w2 := with_this (set_client (Some c)) w1 in
                  if negb (truthy (of_param (clientId c)))
                     || negb (re_clientId (regex (config (this w)))
                                (default EmptyString (clientId c)))
                  then (fail "invalid_client" "Invalid or missing client_id parameter", w2)
                  else if negb (truthy (of_param (clientSecret c)))
                  then (fail "invalid_client" "Missing client_secret parameter", w2)
                  else (done_ok, w2)
              end
        end
  end.

Definition useAuthCodeGrant (m : Model) : Step World := fun w =>
  match req (this w) ≫= (fun rq => field rq "code") with
  | None => (Threw TypeError, w)
  | Some code =>
      if negb (truthy (of_param code))
      then (fail "invalid_request" ("No " +:+ quoted "code" +:+ " parameter"), w)
      else
        let '(r, w1) := call m (GetAuthCode (default EmptyString code)) w in
        let authCode := r_val r in
        if truthy (r_err r) then (server_error (r_err r), w1)
        else
          match client (this w1) with
          | None =>
              if negb (truthy authCode)
              then (fail "invalid_grant" "Invalid code", w1)
              else (Threw TypeError, w1)
          | Some c =>
              if negb (truthy authCode)
                 || negb (strict_eq (prop authCode "clientId") (of_param (clientId c)))
              then (fail "invalid_grant" "Invalid code", w1)
              else
                match lt_date (prop authCode "expires") (now (this w1)) with
                | None => (Threw TypeError, w1)
                | Some true => (fail "invalid_grant" "Code has expired", w1)
                | Some false =>
                    let u := js_or (prop authCode "user")
                               (VObj {["id" := prop authCode "userId"]}) in
                    let w2 := with_this (set_user u) w1 in
                    if negb (truthy (prop u "id"))
                    then (Done (error (VStr "server_error") (VBool false)
                                  (VStr "No user/userId parameter returned from getauthCode"))
                            VUndefined, w2)
                    else (done_ok, w2)
                end
          end
  end.

Definition usePasswordGrant (m : Model) : Step World := fun w =>
  match req (this w) ≫= (fun rq => field rq "username"),
        req (this w) ≫= (fun rq => field rq "password") with
  | Some uname, Some pword =>
      if negb (truthy (of_param uname)) || negb (truthy (of_param pword))
      then (fail "invalid_client"
              ("Missing parameters. " +:+ quoted "username" +:+ " and "
               +:+ quoted "password" +:+ " are required"), w)
      else
        let '(r, w1) := call m (GetUser (default EmptyString uname) (default EmptyString pword)) w in
        if truthy (r_err r) then (server_error (r_err r), w1)
        else if negb (truthy (r_val r))
        then (fail "invalid_grant" "User credentials are invalid", w1)
        else (done_ok, with_this (set_user (r_val r)) w1)
  | _, _ => (Threw TypeError, w)
  end.

Definition useRefreshTokenGrant (m : Model) : Step World := fun w =>
  match req (this w) ≫= (fun rq => field rq "refresh_token") with
  | None => (Threw TypeError, w)
  | Some tok =>
      if negb (truthy (of_param tok))
      then (fail "invalid_request" ("No " +:+ quoted "refresh_token" +:+ " parameter"), w)
      else
        let token := default EmptyString tok in
        let '(r, w1) := call m (GetRefreshToken token) w in
        let refreshToken := r_val r in
        if truthy (r_err r) then (server_error (r_err r), w1)
        else
          match client (this w1) with
          | None =>
              if negb (truthy refreshToken)
              then (fail "invalid_grant" "Invalid refresh token", w1)
              else (Threw TypeError, w1)
          | Some c =>
              if negb (truthy refreshToken)
                 || negb (strict_eq (prop refreshToken "clientId")
                            (of_param (clientId c)))
              then (fail "invalid_grant" "Invalid refresh token", w1)
              else
                let expired :=
                  if negb (is_null (prop refreshToken "expires"))
                  then lt_date (prop refreshToken "expires") (now (this w1))
                  else Some false in
                match expired with
                | None => (Threw TypeError, w1)
                | Some true =>
                    (fail "invalid_grant" "Refresh token has expired", w1)
                | Some false =>
                    if negb (truthy (prop refreshToken "user"))
                       && negb (truthy (prop refreshToken "userId"))
                    then (Done (error (VStr "server_error") (VBool false)
                                  (VStr "No user/userId parameter returned from getRefreshToken"))
                            VUndefined, w1)
                    else
                      let u := js_or (prop refreshToken "user")
                                 (VObj {["id" := prop refreshToken "userId"]}) in
                      let w2 := with_this (set_user u) w1 in
                      if revokeRefreshToken m then
                        let '(r', w3) := call m (RevokeRefreshToken token) w2 in
                        if truthy (r_err r') then (server_error (r_err r'), w3)
                        else (done_ok, w3)
                      else (done_ok, w2)
                end
          end
  end.

Definition useClientCredentialsGrant (m : Model) : Step World := fun w =>
  match client (this w) with
  | None => (Threw TypeError, w)
  | Some c =>
      if negb (truthy (of_param (clientId c)))
         || negb (truthy (of_param (clientSecret c)))
      then (fail "invalid_client"
              ("Missing parameters. " +:+ quoted "client_id" +:+ " and "
               +:+ quoted "client_secret" +:+ " are required"), w)
      else
        let '(r, w1) := call m (GetUserFromClient (clientId c) (clientSecret c)) w in
        if truthy (r_err r) then (server_error (r_err r), w1)
        else if negb (truthy (r_val r))
        then (fail "invalid_grant" "Client credentials are invalid", w1)
        else (done_ok, with_this (set_user (r_val r)) w1)
  end.

(** The model calls back with [(err, supported, user)]. *)
Definition useExtendedGrant (m : Model) : Step World := fun w =>
  let '(r, w1) :=
    call m (ExtendedGrant (default EmptyString (grantType (this w))) (req (this w))) w in
  let err := r_err r in
  if truthy err
  then (Done (error (js_or (prop err "type") (VStr "server_error"))
                (js_or (prop err "description") (prop err "message")) err)
          VUndefined, w1)
  else if negb (truthy (r_val r))
  then (fail "invalid_request" "Invalid grant_type parameter or parameter missing", w1)
  else if negb (truthy (r_val2 r)) || is_undefined (prop (r_val2 r) "id")
  then (fail "invalid_request" "Invalid request.", w1)
  else (done_ok, with_this (set_user (r_val2 r)) w1).

Definition checkGrantType (m : Model) : Step World := fun w =>
  match grantType (this w) with
  | None => (Threw TypeError, w)
  | Some g =>
      if matches_extension g && extendedGrant m then useExtendedGrant m w
      else if String.eqb g "authorization_code" then useAuthCodeGrant m w
      else if String.eqb g "password" then usePasswordGrant m w
      else if String.eqb g "refresh_token" then useRefreshTokenGrant m w
      else if String.eqb g "client_credentials" then useClientCredentialsGrant m w
      else (fail "invalid_request"
              "Invalid grant_type parameter or parameter missing", w)
  end.

Definition checkGrantTypeAllowed (m : Model) : Step World := fun w =>
  match client (this w) with
  | None => (Threw TypeError, w)
  | Some c =>
      let '(r, w1) := call m (GrantTypeAllowed (clientId c) (grantType (this w))) w in
      if truthy (r_err r) then (server_error (r_err r), w1)
      else if negb (truthy (r_val r))
      then (fail "invalid_client"
              "The grant type is unauthorised for this client_id", w1)
      else (done_ok, w1)
  end.

Definition exposeUser : Step World := fun w =>
  match req (this w) with
  | None => (Threw TypeError, w)
  | Some rq =>
      let a := {| app_user := user (this w); app_oauth := app_oauth (app rq) |} in
      (done_ok, with_this (set_req (Some (set_app a rq))) w)
  end.

Definition exposeClient : Step World := fun w =>
  match req (this w) with
  | None => (Threw TypeError, w)
  | Some rq =>
      let a := {| app_user := app_user (app rq);
                  app_oauth := VObj {["client" := clientModel (this w)]} |} in
      (done_ok, with_this (set_req (Some (set_app a rq))) w)
  end.

(** [this.res(response).header(..).header(..).type(..)] is the [Respond]
    event. *)
Definition sendResponse : Step World := fun w =>
  let response : gmap string JSValue :=
    <["access_token" := accessToken (this w)]> {["token_type" := VStr "bearer"]} in
  let lifetime := accessTokenLifetime (config (this w)) in
  let with_expiry : option (gmap string JSValue) :=
    if negb (is_null (lifetime_value lifetime)) then
      match client (this w) with
      | None => None
      | Some c =>
          match index lifetime (key_of (clientId c)) with
          | None => None
          | Some v =>
              if negb (is_undefined v)
              then Some (<["expires_in" := v]> response)
              else Some (<["expires_in" := lifetime_value lifetime]> response)
          end
      end
    else Some response in
  match with_expiry with
  | None => (Threw TypeError, w)
  | Some response =>
      let response :=
        if truthy (refreshToken (this w))
        then <["refresh_token" := refreshToken (this w)]> response
        else response in
      let w1 := log (Respond (VObj response)) w in
      if continueAfterResponse (config (this w)) then (done_ok, w1)
      else (Pending, w1)
  end.

(** The function order used by the runner. *)
Definition fns (m : Model) : list (Step World) :=
  [ extractCredentials;
    GrantBase.checkClient m;
    exposeClient;
    checkGrantTypeAllowed m;
    checkGrantType m;
    exposeUser;
    GrantBase.generateAccessToken m;
    GrantBase.saveAccessToken m;
    GrantBase.generateRefreshToken m;
    GrantBase.saveRefreshToken m;
    sendResponse ].

(** Modelled from the spec: [lib/runner.js], which [grant.js] requires, is
    not among the sources.  §4.1 describes the loop that both pre-approved
    modules carry a copy of, so that loop is used. *)
Definition lib_runner : list (Step World) -> World -> Run World := runner.

(** The constructor [Grant(config, req, res, next)]: the run on the fresh
    grant object.  [globals] is the callbacks' receiver as it is before. *)
Definition Grant (m : Model) (cfg : Config) (rq : Request) (clock : Z)
    (globals : gmap string JSValue) : Run World :=
  lib_runner (fns m)
    {| this := set_req (Some rq) (GrantBase.GrantBase cfg clock);
       receiver := globals; events := [] |}.

End Grant.

(** ** The first pre-approved module (self-contained) *)

Module PreApproved1.

Definition extractPreApprovedCredentials : Step World := fun w =>
  match preApproved (this w) with
  | None => (Threw TypeError, w)
  | Some p =>
      if negb (truthy (pa_user p))
      then (fail "invalid_grant" "Pre-approved user is missing", w)
      else
        let c := {| clientId := client_id p; clientSecret := client_secret p |} in
        let w1 := with_this (set_client (Some c)) w in
        if negb (truthy (of_param (clientId c)))
           || negb (re_clientId (regex (config (this w)))
                      (default EmptyString (clientId c)))
        then (fail "invalid_client" "Invalid or missing client_id parameter", w1)
        else if negb (truthy (of_param (clientSecret c)))
        then (fail "invalid_client" "Missing client_secret parameter", w1)
        else (done_ok, w1)
  end.

Definition checkClient (m : Model) : Step World := fun w =>
  match client (this w) with
  | None => (Threw TypeError, w)
  | Some c =>
      let '(r, w1) := call m (GetClient (clientId c) (clientSecret c)) w in
      if truthy (r_err r) then (server_error (r_err r), w1)
      else if negb (truthy (r_val r))
      then (fail "invalid_client" "Client credentials are invalid", w1)
      else (done_ok, w1)
  end.

Definition usePreApprovedGrant : Step World := fun w =>
  match preApproved (this w) with
  | None => (Threw TypeError, w)
  | Some p => (done_ok, with_this (set_user (pa_user p)) w)
  end.

Definition checkGrantType : Step World := usePreApprovedGrant.

Definition generateAccessToken (m : Model) : Step World := fun w =>
  let '(r, w1) := token m AccessTokenKind w in
  (Done (r_err r) VUndefined, with_this (set_accessToken (r_val r)) w1).

Definition saveAccessToken (m : Model) : Step World := fun w =>
  let accessToken := accessToken (this w) in
  if typeof_object accessToken && is_null accessToken
  then (Threw TypeError, w)
  else if typeof_object accessToken && truthy (prop accessToken "accessToken")
  then (done_ok, with_this (set_accessToken (prop accessToken "accessToken")) w)
  else
    let lifetime := lifetime_value (accessTokenLifetime (config (this w))) in
    let expires :=
      if negb (is_null lifetime)
      then add_seconds (zone m) (now (this w)) lifetime else Some VNull in
    match expires, client (this w) with
    | Some expires, Some c =>
        let '(r, w1) :=
          call m (SaveAccessToken accessToken (clientId c) expires
                    (user (this w)) (grantType (this w))) w in
        if truthy (r_err r) then (server_error (r_err r), w1)
        else (done_ok, w1)
    | _, _ => (Threw TypeError, w)
    end.

Definition generateRefreshToken (m : Model) : Step World := fun w =>
  if negb (bool_decide ("refresh_token" ∈ grants (config (this w))))
  then (done_ok, w)
  else
    let '(r, w1) := token m RefreshTokenKind w in
    (Done (r_err r) VUndefined, with_this (set_refreshToken (r_val r)) w1).

Definition saveRefreshToken (m : Model) : Step World := fun w =>
  let refreshToken := refreshToken (this w) in
  if negb (truthy refreshToken) then (done_ok, w)
  else if typeof_object refreshToken && truthy (prop refreshToken "refreshToken")
  then (done_ok, with_this (set_refreshToken (prop refreshToken "refreshToken")) w)
  else
    let lifetime := lifetime_value (refreshTokenLifetime (config (this w))) in
    let expires :=
      if negb (is_null lifetime)
      then add_seconds (zone m) (now (this w)) lifetime else Some VNull in
    match expires, client (this w) with
    | Some expires, Some c =>
        let '(r, w1) :=
          call m (SaveRefreshToken refreshToken (clientId c) expires
                    (user (this w))) w in
        if truthy (r_err r) then (server_error (r_err r), w1)
        else (done_ok, w1)
    | _, _ => (Threw TypeError, w)
    end.

Definition returnPreApprovedResponse : Step World := fun w =>
  let response : gmap string JSValue :=
    <["access_token" := accessToken (this w)]> {["token_type" := VStr "bearer"]} in
  let lifetime := lifetime_value (accessTokenLifetime (config (this w))) in
  let response :=
    if negb (is_null lifetime) then <["expires_in" := lifetime]> response
    else response in
  let response :=
    if truthy (refreshToken (this w))
    then <["refresh_token" := refreshToken (this w)]> response
    else response in
  (Done VNull (VObj response), w).

Definition fns (m : Model) : list (Step World) :=
  [ extractPreApprovedCredentials;
    checkClient m;
    checkGrantType;
    generateAccessToken m;
    saveAccessToken m;
    generateRefreshToken m;
    saveRefreshToken m;
    returnPreApprovedResponse ].

(** The constructor: the fields are assigned, then the configuration is
    checked, then the runner starts. *)
Definition PreApprovedGrant (m : Model) (cfg : Config) (p : PreApproved)
    (clock : Z) (globals : gmap string JSValue) : Run World :=
  let w :=
    {| this :=
         {| config := cfg; now := clock; req := None; preApproved := Some p;
            client := None; clientModel := VUndefined; user := VUndefined;
            grantType := Some "preApproved"; accessToken := VUndefined;
            refreshToken := VUndefined |};
       receiver := globals; events := [] |} in
  if continueAfterResponse cfg
  then mkRun (Uncaught (Error "continueAfterResponse option incompatible to preApproved"))
         [] w
  else runner (fns m) w.

End PreApproved1.

(** ** The second pre-approved module (on top of GrantBase) *)

Module PreApproved2.

Definition extractPreApprovedCredentials : Step World := fun w =>
  match preApproved (this w) with
  | None => (Threw TypeError, w)
  | Some p =>
      if negb (truthy (pa_user p))
      then (fail "invalid_grant" "Pre-approved user is missing", w)
      else
        let c := {| clientId := client_id p; clientSecret := client_secret p |} in
        let w1 := with_this (set_client (Some c)) w in
        if negb (truthy (of_param (clientId c)))
           || negb (re_clientId (regex (config (this w)))
                      (default EmptyString (clientId c)))
        then (fail "invalid_client" "Invalid or missing client_id parameter", w1)
        else if negb (truthy (of_param (clientSecret c)))
        then (fail "invalid_client" "Missing client_secret parameter", w1)
        else (done_ok, w1)
  end.

Definition usePreApprovedGrant : Step World := fun w =>
  match preApproved (this w) with
  | None => (Threw TypeError, w)
  | Some p => (done_ok, with_this (set_user (pa_user p)) w)
  end.

Definition checkGrantType : Step World := usePreApprovedGrant.

Definition returnPreApprovedResponse : Step World := fun w =>
  let response : gmap string JSValue :=
    <["access_token" := accessToken (this w)]> {["token_type" := VStr "bearer"]} in
  let lifetime := accessTokenLifetime (config (this w)) in
  let with_expiry : option (gmap string JSValue) :=
    if negb (is_null (lifetime_value lifetime)) then
      match client (this w) with
      | None => None
      | Some c =>
          match index lifetime (key_of (clientId c)) with
          | None => None
          | Some v =>
              if negb (is_undefined v)
              then Some (<["expires_in" := v]> response)
              else Some (<["expires_in" := lifetime_value lifetime]> response)
          end
      end
    else Some response in
  match with_expiry with
  | None => (Threw TypeError, w)
  | Some response =>
      let response :=
        if truthy (refreshToken (this w))
        then <["refresh_token" := refreshToken (this w)]> response
        else response in
      (Done VNull (VObj response), w)
  end.

Definition fns (m : Model) : list (Step World) :=
  [ extractPreApprovedCredentials;
    GrantBase.checkClient m;
    checkGrantType;
    GrantBase.generateAccessToken m;
    GrantBase.saveAccessToken m;
    GrantBase.generateRefreshToken m;
    GrantBase.saveRefreshToken m;
    returnPreApprovedResponse ].

Definition PreApprovedGrant (m : Model) (cfg : Config) (p : PreApproved)
    (clock : Z) (globals : gmap string JSValue) : Run World :=
  let base := GrantBase.GrantBase cfg clock in
  let grantType :=
    if truthy (of_param (grant_type p)) then grant_type p else Some "preApproved" in
  runner (fns m)
    {| this :=
         {| config := config base; now := now base; req := req base;
            preApproved := Some p; client := client base;
            clientModel := clientModel base; user := user base;
            grantType := grantType; accessToken := accessToken base;
            refreshToken := refreshToken base |};
       receiver := globals; events := [] |}.

End PreApproved2.

(** ** Reasoning about runs *)

Section Triples.
Context {W : Type}.

(** A step started in a state satisfying [P]: if it calls back without
    error, [M] holds of the response and the state; however else it ends,
    [Q] holds of what the final callback sees. *)
Definition triple (P : W -> Prop) (f : Step W) (M : JSValue -> W -> Prop)
    (Q : Outcome -> W -> Prop) : Prop :=
  forall w, P w ->
    match f w with
    | (Done e r, w') => if truthy e then Q (Called e VUndefined) w' else M r w'
    | (Pending, w') => Q NotCalled w'
    | (Threw x, w') => Q (Uncaught x) w'
    end.

(** [Q] holds of the end of every run of [fs] started in [P]. *)
Definition ends (P : W -> Prop) (fs : list (Step W)) (Q : Outcome -> W -> Prop) : Prop :=
  forall pos tr w, P w ->
    Q (outcome (run_list pos tr fs w)) (final (run_list pos tr fs w)).
End Triples.

(** ** Sample collaborators for the worked examples *)

Definition permissive : Regex :=
  {| re_clientId := fun _ => true; re_grantType := fun _ => true |}.

Definition sample_config (l : Lifetime) (continue : bool) : Config :=
  {| grants := ["authorization_code"; "password"; "refresh_token"];
     accessTokenLifetime := l; refreshTokenLifetime := LSeconds 1209600;
     regex := permissive; continueAfterResponse := continue |}.

(** A form-encoded POST of client [thom] with the given extra fields. *)
Definition form (fields : gmap string string) : Request :=
  {| method := "post"; mime := "application/x-www-form-urlencoded";
     payload := Some (<["client_id" := "thom"]> (<["client_secret" := "nightworld"]> fields));
     basic := None;
     app := {| app_user := VUndefined; app_oauth := VUndefined |} |}.

Definition password_request : Request :=
  form (<["grant_type" := "password"]> (<["username" := "bob"]> {["password" := "hunter2"]})).

Definition refresh_request : Request :=
  form (<["grant_type" := "refresh_token"]> {["refresh_token" := "old"]}).

Definition code_request : Request :=
  form (<["grant_type" := "authorization_code"]> {["code" := "c0de"]}).

Definition ok (v : JSValue) : Reply :=
  {| r_err := VNull; r_val := v; r_val2 := VUndefined |}.

Definition failed (err : JSValue) : Reply :=
  {| r_err := err; r_val := VUndefined; r_val2 := VUndefined |}.

(** A storage that knows one client, answers the lookups with the given
    values and accepts every save; the generator issues [access] and
    [refresh]. *)
Definition sample_model (found access refresh : JSValue) : Model :=
  {| respond := fun _ c =>
       match c with
       | GetClient _ _ => ok (VObj {["name" := VStr "Thom"]})
       | GrantTypeAllowed _ _ => ok (VBool true)
       | GetUser _ _ | GetUserFromClient _ _
       | GetAuthCode _ | GetRefreshToken _ => ok found
       | _ => ok VUndefined
       end;
     generate := fun _ _ k =>
       match k with
       | AccessTokenKind => ok access
       | RefreshTokenKind => ok refresh
       end;
     revokeRefreshToken := true;
     extendedGrant := false;
     zone := UTC |}.

(** A storage whose every method reports the error [err]. *)
Definition broken_model (err : JSValue) : Model :=
  {| respond := fun _ _ => failed err;
     generate := fun _ _ _ => ok (VStr "t0ken");
     revokeRefreshToken := true;
     extendedGrant := true;
     zone := UTC |}.

Definition sample_preApproved : PreApproved :=
  {| pa_user := VObj {["id" := VNum 7]}; client_id := Some "thom";
     client_secret := Some "nightworld"; grant_type := None |}.

(** The grant object in the middle of a request of client [thom], about to
    save the token [access]. *)
Definition saving (l : Lifetime) (access refresh : JSValue) : World :=
  {| this :=
       {| config := sample_config l false; now := 1000;
          req := Some password_request; preApproved := None;
          client := Some {| clientId := Some "thom"; clientSecret := Some "nightworld" |};
          clientModel := VUndefined; user := VObj {["id" := VNum 7]};
          grantType := Some "password"; accessToken := access;
          refreshToken := refresh |};
     receiver := ∅; events := [] |}.

(** ** Properties of event logs *)

(** No response has been handed to the transport. *)
Definition unanswered (l : list Event) : Prop := forall x, Respond x ∉ l.

(** The state of a run with configuration [cfg] that has not answered yet. *)
Definition before_response (cfg : Config) (w : World) : Prop :=
  config (this w) = cfg /\ unanswered (events w).

(** How a run of the full pipeline with configuration [cfg] can end: an
    error or an exception and no response, or a response and then the
    decision of [continueAfterResponse]. *)
Definition answered_once (cfg : Config) (o : Outcome) (w : World) : Prop :=
  (unanswered (events w) /\
   match o with
   | Called e _ => truthy e = true
   | NotCalled => False
   | Uncaught _ => True
   end)
  \/ ((exists x, Respond x ∈ events w) /\
      o = if continueAfterResponse cfg then Called VNull VUndefined else NotCalled).

(** The grant object has no [clientModel], and [req.app.oauth] is what it
    was at the start ([o0]) or the object [{client: undefined}]. *)
Definition client_never_attached (o0 : JSValue) (w : World) : Prop :=
  clientModel (this w) = VUndefined /\
  forall rq, req (this w) = Some rq ->
    app_oauth (app rq) = o0 \/ app_oauth (app rq) = VObj {["client" := VUndefined]}.

(** No storage call in the log reported an error. *)
Definition clean (l : list Event) : Prop :=
  forall c r, Storage c r ∈ l -> truthy (r_err r) = false.

Definition clean_log (w : World) : Prop := clean (events w).

(** The error [e] given to the final callback wraps the storage error
    [err] of the call [c]: a [server_error] with message [false], except
    for [extendedGrant], whose error picks kind and message itself. *)
Definition surfaced (c : Call) (err e : JSValue) : Prop :=
  prop e "cause" = err /\
  match c with
  | ExtendedGrant _ _ =>
      prop e "kind" =
        (if truthy (prop err "type") then prop err "type" else VStr "server_error")
      /\ prop e "message" =
           (if truthy (prop err "description") then prop err "description"
            else prop err "message")
  | _ => prop e "kind" = VStr "server_error" /\ prop e "message" = VBool false
  end.

(** Either no storage call failed, or the last one did and its error is
    what the final callback received. *)
Definition storage_error_surfaces (o : Outcome) (w : World) : Prop :=
  clean (events w)
  \/ exists l c r e,
       events w = l ++ [Storage c r] /\ clean l /\ truthy (r_err r) = true /\
       o = Called e VUndefined /\ surfaced c (r_err r) e.

(** The reply of [getRefreshToken] is a record of the client [cl] whose
    [expires] is not [null] and lies before [now]. *)
Definition expired_refresh (r : Reply) (cl : option Client) (now : Z) : Prop :=
  truthy (r_err r) = false /\
  exists c cid t,
    cl = Some c /\ clientId c = Some cid /\
    prop (r_val r) "clientId" = VStr cid /\
    is_null (prop (r_val r) "expires") = false /\
    to_number (prop (r_val r) "expires") = Some t /\ t < now.

(** The reply of [getAuthCode] is a record of the client [cl] whose
    [expires] is [null]. *)
Definition unexpiring_code (r : Reply) (cl : option Client) : Prop :=
  truthy (r_err r) = false /\
  exists c cid,
    cl = Some c /\ clientId c = Some cid /\
    prop (r_val r) "clientId" = VStr cid /\
    prop (r_val r) "expires" = VNull.

(** The storage calls made before the grant type is dispatched. *)
Definition early (e : Event) : Prop :=
  match e with
  | Storage (GetClient _ _) _ | Storage (GrantTypeAllowed _ _) _ => True
  | _ => False
  end.

(** The storage calls that change what is stored. *)
Definition is_write (e : Event) : Prop :=
  match e with
  | Storage (SaveAccessToken _ _ _ _ _) _
  | Storage (SaveRefreshToken _ _ _ _) _
  | Storage (RevokeRefreshToken _) _ => True
  | _ => False
  end.

Definition no_expired_refresh (w : World) : Prop :=
  forall tok r, Storage (GetRefreshToken tok) r ∈ events w ->
    ~ expired_refresh r (client (this w)) (now (this w)).

Definition expired_refresh_rejected (o : Outcome) (w : World) : Prop :=
  no_expired_refresh w
  \/ (o = Called (error (VStr "invalid_grant") (VStr "Refresh token has expired")
                    VUndefined) VUndefined
      /\ forall e, e ∈ events w -> ~ is_write e).

Definition no_unexpiring_code (w : World) : Prop :=
  0 < now (this w) /\
  forall code r, Storage (GetAuthCode code) r ∈ events w ->
    ~ unexpiring_code r (client (this w)).

Definition unexpiring_code_rejected (o : Outcome) (w : World) : Prop :=
  no_unexpiring_code w
  \/ o = Called (error (VStr "invalid_grant") (VStr "Code has expired") VUndefined)
           VUndefined.

(** Only the calls that precede the dispatch have been made. *)
Definition prior (w : World) : Prop := Forall early (events w).

Definition prior_after_epoch (w : World) : Prop := 0 < now (this w) /\ prior w.

(** The configuration and the clock reading of a grant object never change. *)
Definition fixed (cfg : Config) (clock : Z) (w : World) : Prop :=
  config (this w) = cfg /\ now (this w) = clock.


(** A refresh-token record of client [thom] that expired one millisecond
    before the clock reading 1000 used in the examples. *)
Definition stale_token : JSValue :=
  VObj (<["userId" := VNum 7]>
          (<["expires" := VDate (Some 999)]> {["clientId" := VStr "thom"]})).

(** An authorization-code record of client [thom] without expiry. *)
Definition unexpiring_record : JSValue :=
  VObj (<["userId" := VNum 7]>
          (<["expires" := VNull]> {["clientId" := VStr "thom"]})).

(** A storage that knows the client and rejects the extension grant with
    an error of its own kind. *)
Definition extension_model (err : JSValue) : Model :=
  {| respond := fun _ c =>
       match c with
       | GetClient _ _ => ok (VObj {["name" := VStr "Thom"]})
       | GrantTypeAllowed _ _ => ok (VBool true)
       | _ => failed err
       end;
     generate := fun _ _ _ => ok (VStr "t0ken");
     revokeRefreshToken := false;
     extendedGrant := true;
     zone := UTC |}.

Definition extension_request : Request :=
  form {["grant_type" := "urn:custom:foo"]}.


(** ** Further definitions for the properties of the remaining code *)

(** Every character of [s] satisfies [p]. *)
Fixpoint all_chars (p : Ascii.ascii -> bool) (s : string) : bool :=
  match s with
  | EmptyString => true
  | String c rest => p c && all_chars p rest
  end.

(** The place of an event in the protocol. *)
Definition phase (e : Event) : nat :=
  match e with
  | Storage (GetClient _ _) _ => 0
  | Storage (GrantTypeAllowed _ _) _ => 1
  | Storage (GetUser _ _) _ | Storage (GetUserFromClient _ _) _
  | Storage (GetAuthCode _) _ | Storage (GetRefreshToken _) _
  | Storage (ExtendedGrant _ _) _ => 2
  | Storage (RevokeRefreshToken _) _ => 3
  | Token AccessTokenKind _ => 4
  | Storage (SaveAccessToken _ _ _ _ _) _ => 5
  | Token RefreshTokenKind _ => 6
  | Storage (SaveRefreshToken _ _ _ _) _ => 7
  | Respond _ => 8
  end.

(** The events of the log are in strictly increasing phase order, all
    below phase [k]. *)
Definition in_order (k : nat) (l : list Event) : Prop :=
  StronglySorted lt (phase <$> l) /\ Forall (fun e => (phase e < k)%nat) l.

(** What a collaborator passed to its callback, if the event is a call. *)
Definition reply_of (e : Event) : option Reply :=
  match e with
  | Storage _ r | Token _ r => Some r
  | Respond _ => None
  end.

(** No collaborator in the log reported an error. *)
Definition silent (l : list Event) : Prop :=
  forall e r, e ∈ l -> reply_of e = Some r -> truthy (r_err r) = false.

(** The run is still going: nothing reported an error, nothing was sent. *)
Definition going (w : World) : Prop :=
  silent (events w) /\ unanswered (events w).

(** How a run ends with respect to errors: none was reported, or the last
    call reported one and nothing was sent; the token generator's error is
    what the final callback gets. *)
Definition stops_at_error (o : Outcome) (w : World) : Prop :=
  silent (events w)
  \/ (unanswered (events w)
      /\ exists l e r,
           events w = l ++ [e] /\ silent l /\ reply_of e = Some r
           /\ truthy (r_err r) = true
           /\ (forall k, e = Token k r -> o = Called (r_err r) VUndefined)).

(** A token generator that fails on refresh tokens. *)
Definition flaky_generator_model (err : JSValue) : Model :=
  {| respond := fun _ c =>
       match c with
       | GetClient _ _ => ok (VObj {["name" := VStr "Thom"]})
       | GrantTypeAllowed _ _ => ok (VBool true)
       | GetUser _ _ => ok (VObj {["id" := VNum 7]})
       | _ => ok VUndefined
       end;
     generate := fun _ _ k =>
       match k with
       | AccessTokenKind => ok (VStr "t0ken")
       | RefreshTokenKind => failed err
       end;
     revokeRefreshToken := false;
     extendedGrant := false;
     zone := UTC |}.

(** The error a lookup is answered with when the storage finds nothing
    ([extendedGrant]: when it does not support the grant type). *)
Definition rejection (c : Call) : option JSValue :=
  match c with
  | GetClient _ _ =>
      Some (error (VStr "invalid_client") (VStr "Client credentials are invalid") VUndefined)
  | GrantTypeAllowed _ _ =>
      Some (error (VStr "invalid_client")
              (VStr "The grant type is unauthorised for this client_id") VUndefined)
  | GetUser _ _ =>
      Some (error (VStr "invalid_grant") (VStr "User credentials are invalid") VUndefined)
  | GetUserFromClient _ _ =>
      Some (error (VStr "invalid_grant") (VStr "Client credentials are invalid") VUndefined)
  | GetAuthCode _ =>
      Some (error (VStr "invalid_grant") (VStr "Invalid code") VUndefined)
  | GetRefreshToken _ =>
      Some (error (VStr "invalid_grant") (VStr "Invalid refresh token") VUndefined)
  | ExtendedGrant _ _ =>
      Some (error (VStr "invalid_request")
              (VStr "Invalid grant_type parameter or parameter missing") VUndefined)
  | _ => None
  end.

(** Every lookup in the log that reported no error found something. *)
Definition all_found (l : list Event) : Prop :=
  forall c r, Storage c r ∈ l -> is_Some (rejection c) ->
    truthy (r_err r) = false -> truthy (r_val r) = true.

Definition found_log (w : World) : Prop := all_found (events w).

(** Every lookup found something, or the last one did not and its
    rejection is what the final callback received. *)
Definition rejects_not_found (o : Outcome) (w : World) : Prop :=
  all_found (events w)
  \/ exists l c r e,
       events w = l ++ [Storage c r] /\ all_found l /\ rejection c = Some e
       /\ truthy (r_err r) = false /\ truthy (r_val r) = false
       /\ o = Called e VUndefined.

(** A storage that knows no user. *)
Definition userless_model : Model :=
  {| respond := fun _ c =>
       match c with
       | GetClient _ _ => ok (VObj {["name" := VStr "Thom"]})
       | GrantTypeAllowed _ _ => ok (VBool true)
       | _ => ok VNull
       end;
     generate := fun _ _ _ => ok (VStr "t0ken");
     revokeRefreshToken := true;
     extendedGrant := false;
     zone := UTC |}.

(** [credsFromBasic(req) || credsFromBody(req)] *)
Definition creds (rq : Request) : option Client :=
  match Grant.credsFromBasic rq with
  | Some c => Some c
  | None => Grant.credsFromBody rq
  end.

(** The body parameter [k] of the request. *)
Definition param (rq : Request) (k : string) : option string :=
  payload rq ≫= (fun p => p !! k).

(** The call is the one the request [rq] asks for: its arguments are the
    request's credentials and parameters, and a lookup belongs to the
    request's grant type. *)
Definition asked_for (m : Model) (rq : Request) (e : Event) : Prop :=
  match e with
  | Storage (GetClient id secret) _ =>
      creds rq = Some {| clientId := id; clientSecret := secret |}
  | Storage (GrantTypeAllowed id g) _ =>
      clientId <$> creds rq = Some id /\ g = param rq "grant_type"
  | Storage (GetUser u p) _ =>
      param rq "grant_type" = Some "password"
      /\ param rq "username" = Some u /\ param rq "password" = Some p
  | Storage (GetUserFromClient id secret) _ =>
      param rq "grant_type" = Some "client_credentials"
      /\ creds rq = Some {| clientId := id; clientSecret := secret |}
  | Storage (GetAuthCode code) _ =>
      param rq "grant_type" = Some "authorization_code"
      /\ param rq "code" = Some code
  | Storage (GetRefreshToken t) _ =>
      param rq "grant_type" = Some "refresh_token"
      /\ param rq "refresh_token" = Some t
  | Storage (RevokeRefreshToken t) _ =>
      revokeRefreshToken m = true
      /\ param rq "grant_type" = Some "refresh_token"
      /\ param rq "refresh_token" = Some t
  | Storage (ExtendedGrant g _) _ =>
      extendedGrant m = true /\ Grant.matches_extension g = true
      /\ param rq "grant_type" = Some g
  | Storage (SaveAccessToken _ id _ _ g) _ =>
      clientId <$> creds rq = Some id /\ g = param rq "grant_type"
  | Storage (SaveRefreshToken _ id _ _) _ =>
      clientId <$> creds rq = Some id
  | Token _ _ | Respond _ => True
  end.

(** The grant object of a run on the request [rq], before its first step. *)
Definition started (rq : Request) (w : World) : Prop :=
  req (this w) = Some rq /\ events w = [].

(** Once the credentials are extracted, the grant object holds what the
    request [rq] carries, and every call so far is one it asks for. *)
Definition tied (m : Model) (rq : Request) (w : World) : Prop :=
  (exists rq', req (this w) = Some rq' /\ payload rq' = payload rq)
  /\ client (this w) = creds rq
  /\ grantType (this w) = param rq "grant_type"
  /\ Forall (asked_for m rq) (events w).

Definition all_asked_for (m : Model) (rq : Request) (o : Outcome) (w : World) : Prop :=
  Forall (asked_for m rq) (events w).

(** A request that authenticates with the Authorization header and names
    another client in its body. *)
Definition basic_request : Request :=
  {| method := "post"; mime := "application/x-www-form-urlencoded";
     payload := Some (<["grant_type" := "client_credentials"]>
                        (<["client_id" := "mallory"]> {["client_secret" := "guess"]}));
     basic := Some ("thom", "nightworld");
     app := {| app_user := VUndefined; app_oauth := VUndefined |} |}.

(** The request passes the validation of [extractCredentials] under the
    configuration [cfg]. *)
Definition well_formed (cfg : Config) (rq : Request) : Prop :=
  method rq = "post" /\ mime rq = "application/x-www-form-urlencoded"
  /\ exists g id secret,
       param rq "grant_type" = Some g /\ g <> EmptyString
       /\ re_grantType (regex cfg) g = true
       /\ creds rq = Some {| clientId := Some id; clientSecret := Some secret |}
       /\ id <> EmptyString /\ re_clientId (regex cfg) id = true
       /\ secret <> EmptyString.

(** The grant object of a run on [rq] under [cfg], before its first step. *)
Definition started_with (cfg : Config) (rq : Request) (w : World) : Prop :=
  config (this w) = cfg /\ req (this w) = Some rq /\ events w = [].

Definition idle_unless (P : Prop) (o : Outcome) (w : World) : Prop :=
  events w = [] \/ P.

(** Nothing of a refresh token is issued: none generated, none saved, none
    in a response. *)
Definition issues_no_refresh_token (e : Event) : Prop :=
  match e with
  | Token RefreshTokenKind _ | Storage (SaveRefreshToken _ _ _ _) _ => False
  | Respond x => prop x "refresh_token" = VUndefined
  | _ => True
  end.

Definition without_refresh (cfg : Config) (w : World) : Prop :=
  config (this w) = cfg /\ refreshToken (this w) = VUndefined
  /\ Forall issues_no_refresh_token (events w).

Definition no_refresh_issued (o : Outcome) (w : World) : Prop :=
  Forall issues_no_refresh_token (events w).

(** A configuration whose grants leave out [refresh_token]. *)
Definition config_without_refresh : Config :=
  {| grants := ["authorization_code"; "password"];
     accessTokenLifetime := LSeconds 3600; refreshTokenLifetime := LSeconds 1209600;
     regex := permissive; continueAfterResponse := false |}.

(** The events by which a token is issued: generating, saving, sending. *)
Definition issues (e : Event) : Prop :=
  match e with
  | Token _ _ | Respond _
  | Storage (SaveAccessToken _ _ _ _ _) _ | Storage (SaveRefreshToken _ _ _ _) _ => True
  | _ => False
  end.

(** A save names the user [u]. *)
Definition saved_for (u : JSValue) (e : Event) : Prop :=
  match e with
  | Storage (SaveAccessToken _ _ _ u' _) _ | Storage (SaveRefreshToken _ _ _ u') _ => u' = u
  | _ => True
  end.

Definition nothing_issued (w : World) : Prop :=
  Forall (fun e => ~ issues e) (events w).

Definition user_resolved (w : World) : Prop :=
  truthy (user (this w)) = true /\ nothing_issued w.

(** The user is resolved and written to [req.app.user], and every save so
    far names it. *)
Definition user_exposed (w : World) : Prop :=
  truthy (user (this w)) = true
  /\ (exists rq, req (this w) = Some rq /\ app_user (app rq) = user (this w))
  /\ Forall (saved_for (user (this w))) (events w).

Definition issued_for_exposed_user (o : Outcome) (w : World) : Prop :=
  nothing_issued w \/ user_exposed w.

(** The token the save step leaves in the grant object for the generated
    value [v]: the marker's string for a reissue marker, else [v]. *)
Definition issued (k : TokenKind) (v : JSValue) : JSValue :=
  let field :=
    match k with
    | AccessTokenKind => "accessToken"
    | RefreshTokenKind => "refreshToken"
    end in
  if typeof_object v && truthy (prop v field) then prop v field else v.

(** No token of kind [k] has been generated. *)
Definition not_generated (k : TokenKind) (l : list Event) : Prop :=
  forall r, Token k r ∉ l.

(** An access token has been generated, and the grant object holds [f] of
    what the generator returned. *)
Definition access_is (f : JSValue -> JSValue) (w : World) : Prop :=
  (exists r, Token AccessTokenKind r ∈ events w)
  /\ forall r, Token AccessTokenKind r ∈ events w -> accessToken (this w) = f (r_val r).

Definition no_refresh_yet (w : World) : Prop :=
  not_generated RefreshTokenKind (events w) /\ refreshToken (this w) = VUndefined.

Definition refresh_is (f : JSValue -> JSValue) (w : World) : Prop :=
  (forall r, Token RefreshTokenKind r ∈ events w -> refreshToken (this w) = f (r_val r))
  /\ (not_generated RefreshTokenKind (events w) -> refreshToken (this w) = VUndefined).

Definition no_token_yet (w : World) : Prop :=
  not_generated AccessTokenKind (events w) /\ no_refresh_yet w /\ unanswered (events w).

Definition access_generated (f : JSValue -> JSValue) (w : World) : Prop :=
  access_is f w /\ no_refresh_yet w /\ unanswered (events w).

Definition tokens_generated (f : JSValue -> JSValue) (w : World) : Prop :=
  access_is (issued AccessTokenKind) w /\ refresh_is f w /\ unanswered (events w).

(** Every response in the log carries the generated tokens. *)
Definition sends_issued_tokens (o : Outcome) (w : World) : Prop :=
  forall x, Respond x ∈ events w ->
    prop x "token_type" = VStr "bearer"
    /\ (exists r, Token AccessTokenKind r ∈ events w)
    /\ (forall r, Token AccessTokenKind r ∈ events w ->
          prop x "access_token" = issued AccessTokenKind (r_val r))
    /\ (forall r, Token RefreshTokenKind r ∈ events w ->
          prop x "refresh_token" =
            if truthy (r_val r) then issued RefreshTokenKind (r_val r) else VUndefined)
    /\ (not_generated RefreshTokenKind (events w) -> prop x "refresh_token" = VUndefined).

(** The host keeps one offset from UTC all along, of less than a day. *)
Definition fixed_offset (z : Zone) (c : Z) : Prop :=
  - msPerDay <= c <= msPerDay
  /\ (forall t, offset_at z t = c) /\ (forall t, offset_at_local z t = c).

(** The date a save step makes of the clock reading and a number [n] of
    seconds: [setSeconds] of the seconds of the clock plus [n], in the zone
    of the host. *)
Definition seconds_after (z : Zone) (clock n : Z) : JSValue :=
  VDate (setSeconds z clock (DNum (fl (getSeconds z clock + n)) 0)).

(** The expiry a save step passes for the client [id] under the configured
    lifetime [l], when the clock reads [clock]; [None] when the step throws
    before the save.  A number of seconds counts from the clock reading,
    unless the client id names a property that numbers inherit: a function
    adds up to an Invalid Date, the prototype counts as 0.  A mapping counts
    for the clients it lists; for any other client the sum is no number and
    the date invalid, or the addition throws when the mapping itself is
    added and has an entry named [toString]. *)
Definition saved_expiry (z : Zone) (l : Lifetime) (id : option string) (clock : Z) :
    option JSValue :=
  match l with
  | LNull => None
  | LSeconds n =>
      Some (if bool_decide (key_of id ∈ methods Number_prototype) then VDate None
            else if String.eqb (key_of id) "__proto__" then seconds_after z clock 0
            else seconds_after z clock n)
  | LMap mp =>
      match mp !! key_of id with
      | Some n => Some (seconds_after z clock n)
      | None =>
          if bool_decide (key_of id ∈ methods Object_prototype)
             || String.eqb (key_of id) "__proto__"
          then Some (VDate None)
          else if bool_decide (is_Some (mp !! "toString")) then None
          else Some (VDate None)
      end
  end.

(** The event agrees with the lifetimes of [cfg] for the client of [rq]. *)
Definition dated (z : Zone) (cfg : Config) (clock : Z) (rq : Request) (e : Event) : Prop :=
  match e with
  | Storage (SaveAccessToken _ id exp _ _) _ =>
      clientId <$> creds rq = Some id
      /\ saved_expiry z (accessTokenLifetime cfg) id clock = Some exp
  | Storage (SaveRefreshToken _ id exp _) _ =>
      clientId <$> creds rq = Some id
      /\ saved_expiry z (refreshTokenLifetime cfg) id clock = Some exp
  | Respond x =>
      forall id exp,
        clientId <$> creds rq = Some id ->
        saved_expiry z (accessTokenLifetime cfg) id clock = Some exp ->
        add_seconds z clock (prop x "expires_in") = Some exp
  | _ => True
  end.

Definition started_at (cfg : Config) (clock : Z) (rq : Request) (w : World) : Prop :=
  fixed cfg clock w /\ req (this w) = Some rq /\ events w = [].

Definition dating (z : Zone) (cfg : Config) (clock : Z) (rq : Request) (w : World) : Prop :=
  fixed cfg clock w /\ client (this w) = creds rq
  /\ Forall (dated z cfg clock rq) (events w).

Definition all_dated (z : Zone) (cfg : Config) (clock : Z) (rq : Request)
    (o : Outcome) (w : World) : Prop :=
  Forall (dated z cfg clock rq) (events w).

(** A host that sets its clock back by an hour, from one hour ahead of UTC
    to UTC, half an hour after the epoch.  The local times that occur twice
    are read by the offset before the change. *)
Definition clock_set_back : Zone :=
  {| offset_at := fun t => if t <? 1800000 then 3600000 else 0;
     offset_at_local := fun t => if t <? 5400000 then 3600000 else 0 |}.

(** Lifetimes per client: one hour for [thom]. *)
Definition per_client : Lifetime := LMap {["thom" := 3600]}.

(** The expiry the first pre-approved module passes: the configured
    lifetime counts as it is, whoever the client.  [null] gives no expiry;
    a mapping is no number of seconds and leaves an Invalid Date, or throws
    before the save when it has an entry named [toString]. *)
Definition flat_expiry (z : Zone) (l : Lifetime) (clock : Z) : option JSValue :=
  match l with
  | LNull => Some VNull
  | LSeconds n => Some (seconds_after z clock n)
  | LMap mp =>
      if bool_decide (is_Some (mp !! "toString")) then None
      else Some (VDate None)
  end.

(** The calls of a pre-approved run for [p]: the client is looked up with
    the given credentials, the saves name the given client and user, the
    grant type [g] and the expiry that [expiry] gives; nothing else is asked
    of the storage and nothing is sent. *)
Definition preApproved_call (p : PreApproved) (g : option string)
    (expiry : Lifetime -> option JSValue) (cfg : Config) (e : Event) : Prop :=
  match e with
  | Storage (GetClient id secret) _ => id = client_id p /\ secret = client_secret p
  | Storage (SaveAccessToken _ id exp u g') _ =>
      id = client_id p /\ u = pa_user p /\ g' = g
      /\ expiry (accessTokenLifetime cfg) = Some exp
  | Storage (SaveRefreshToken _ id exp u) _ =>
      id = client_id p /\ u = pa_user p
      /\ expiry (refreshTokenLifetime cfg) = Some exp
  | Token _ _ => True
  | _ => False
  end.

(** The grant type the second pre-approved module works under. *)
Definition preApproved_grantType (p : PreApproved) : option string :=
  if truthy (of_param (grant_type p)) then grant_type p else Some "preApproved".

Section PreApprovedStates.
Variable p : PreApproved.
Variable g : option string.
Variable expiry : Lifetime -> option JSValue.
Variable cfg : Config.
Variable clock : Z.

Definition preApproved_started (w : World) : Prop :=
  fixed cfg clock w /\ preApproved (this w) = Some p /\ grantType (this w) = g
  /\ events w = [].

Definition preApproved_checked (w : World) : Prop :=
  fixed cfg clock w /\ preApproved (this w) = Some p /\ grantType (this w) = g
  /\ client (this w) = Some {| clientId := client_id p; clientSecret := client_secret p |}
  /\ Forall (preApproved_call p g expiry cfg) (events w).

Definition preApproved_granted (w : World) : Prop :=
  preApproved_checked w /\ user (this w) = pa_user p.

Definition preApproved_calls (o : Outcome) (w : World) : Prop :=
  Forall (preApproved_call p g expiry cfg) (events w).
End PreApprovedStates.

(** The pre-approval passes the validation of
    [extractPreApprovedCredentials] under the configuration [cfg]. *)
Definition preApproved_well_formed (cfg : Config) (p : PreApproved) : Prop :=
  truthy (pa_user p) = true
  /\ exists id secret,
       client_id p = Some id /\ id <> EmptyString
       /\ re_clientId (regex cfg) id = true
       /\ client_secret p = Some secret /\ secret <> EmptyString.

Definition preApproved_given (cfg : Config) (p : PreApproved) (w : World) : Prop :=
  config (this w) = cfg /\ preApproved (this w) = Some p /\ events w = [].

(** The lifetime [l] is a plain number of seconds, and the client id [id]
    names no property that numbers inherit: the case in which the rule of
    the full pipeline and the flat rule give the same expiry. *)
Definition plain_lifetime (l : Lifetime) (id : option string) : Prop :=
  (exists n, l = LSeconds n) /\ inherited Number_prototype (key_of id) = VUndefined.

(** Two runs have the same grant object and have made the same calls (what
    the storage callbacks left on their receiver apart). *)
Definition same_state (w1 w2 : World) : Prop :=
  this w1 = this w2 /\ events w1 = events w2.

(** The two pre-approved modules at their start on the pre-approval [p]. *)
Definition both_started (cfg : Config) (p : PreApproved) (w1 w2 : World) : Prop :=
  same_state w1 w2 /\ config (this w1) = cfg /\ preApproved (this w1) = Some p.

(** The two modules in step once the client is extracted. *)
Definition in_step (cfg : Config) (p : PreApproved) (w1 w2 : World) : Prop :=
  both_started cfg p w1 w2
  /\ client (this w1) = Some {| clientId := client_id p; clientSecret := client_secret p |}.

(** The lookup found a code or a refresh token that was issued to another
    client than [cl]. *)
Definition foreign (cl : option Client) (e : Event) : Prop :=
  match e with
  | Storage (GetAuthCode _) r | Storage (GetRefreshToken _) r =>
      truthy (r_err r) = false /\ truthy (r_val r) = true
      /\ exists c, cl = Some c
           /\ strict_eq (prop (r_val r) "clientId") (of_param (clientId c)) = false
  | _ => False
  end.

Definition none_foreign (rq : Request) (w : World) : Prop :=
  client (this w) = creds rq /\ Forall (fun e => ~ foreign (creds rq) e) (events w).

(** No lookup found a foreign record, or the last one did and its
    rejection is what the final callback received. *)
Definition rejects_foreign (rq : Request) (o : Outcome) (w : World) : Prop :=
  Forall (fun e => ~ foreign (creds rq) e) (events w)
  \/ exists l c r e,
       events w = l ++ [Storage c r]
       /\ Forall (fun e => ~ foreign (creds rq) e) l
       /\ rejection c = Some e
       /\ o = Called e VUndefined.

(** A refresh-token record of another client. *)
Definition foreign_token : JSValue :=
  VObj (<["userId" := VNum 7]>
          (<["expires" := VNull]> {["clientId" := VStr "mallory"]})).

(** Collaborators that never fail: the storage reports no error and finds
    what it is asked for, the generator reports no error and returns a
    string. *)
Definition cooperative (m : Model) : Prop :=
  (forall l c, truthy (r_err (respond m l c)) = false)
  /\ (forall l c, is_Some (rejection c) -> truthy (r_val (respond m l c)) = true)
  /\ (forall l ctx k, truthy (r_err (generate m l ctx k)) = false)
  /\ (forall l ctx k, exists s, r_val (generate m l ctx k) = VStr s).

(** Adding the lifetime to a number of seconds does not throw: as a mapping
    it has no entry named [toString] (a [toString] that is a number leaves
    the mapping without a primitive value). *)
Definition addable (l : Lifetime) : Prop :=
  match l with
  | LMap mp => mp !! "toString" = None
  | _ => True
  end.

(** A mapping of lifetimes with an entry for a client named [toString]. *)
Definition toString_lifetime : Lifetime := LMap {["toString" := 60]}.

(** A request for the password grant with its two parameters, or for the
    client-credentials grant. *)
Definition direct_grant (rq : Request) : Prop :=
  (param rq "grant_type" = Some "password"
   /\ exists u pw, param rq "username" = Some u /\ u <> EmptyString
                   /\ param rq "password" = Some pw /\ pw <> EmptyString)
  \/ param rq "grant_type" = Some "client_credentials".

(** The refresh token of the grant object is not set, or is a string. *)
Definition plain_refresh (w : World) : Prop :=
  refreshToken (this w) = VUndefined \/ exists s, refreshToken (this w) = VStr s.

Definition fresh (cfg : Config) (rq : Request) (w : World) : Prop :=
  started_with cfg rq w /\ refreshToken (this w) = VUndefined.

Definition granting (cfg : Config) (rq : Request) (w : World) : Prop :=
  config (this w) = cfg
  /\ (exists rq', req (this w) = Some rq' /\ payload rq' = payload rq)
  /\ client (this w) = creds rq
  /\ grantType (this w) = param rq "grant_type"
  /\ plain_refresh w.

Definition granting_token (cfg : Config) (rq : Request) (w : World) : Prop :=
  granting cfg rq w /\ exists s, accessToken (this w) = VStr s.

(** The run ended by sending a response, and the final callback is left to
    [continueAfterResponse]. *)
Definition answered (cfg : Config) (o : Outcome) (w : World) : Prop :=
  (exists x, last (events w) = Some (Respond x))
  /\ o = if continueAfterResponse cfg then Called VNull VUndefined else NotCalled.

(** Collaborators that find the same record for every lookup and issue the
    same string for every token. *)
Definition obliging_model : Model :=
  {| respond := fun _ _ => ok (VObj {["id" := VNum 7]});
     generate := fun _ _ _ => ok (VStr "t0ken");
     revokeRefreshToken := false;
     extendedGrant := false;
     zone := UTC |}.

(** The response passed to the final callback carries the generated
    tokens. *)
Definition returns_issued_tokens (o : Outcome) (w : World) : Prop :=
  forall x, o = Called VNull x ->
    prop x "token_type" = VStr "bearer"
    /\ (exists r, Token AccessTokenKind r ∈ events w)
    /\ (forall r, Token AccessTokenKind r ∈ events w ->
          prop x "access_token" = issued AccessTokenKind (r_val r))
    /\ (forall r, Token RefreshTokenKind r ∈ events w ->
          prop x "refresh_token" =
            if truthy (r_val r) then issued RefreshTokenKind (r_val r) else VUndefined)
    /\ (not_generated RefreshTokenKind (events w) -> prop x "refresh_token" = VUndefined).

(** The lookup found a code of the client [cl] whose expiry lies before
    [clock]: the expiry is compared as a number, so a date counts by its
    time value, a string by the number it spells and [null] as the epoch. *)
Definition stale_code (cl : option Client) (clock : Z) (e : Event) : Prop :=
  match e with
  | Storage (GetAuthCode _) r =>
      truthy (r_err r) = false /\ truthy (r_val r) = true
      /\ (exists c, cl = Some c
            /\ strict_eq (prop (r_val r) "clientId") (of_param (clientId c)) = true)
      /\ lt_date (prop (r_val r) "expires") clock = Some true
  | _ => False
  end.

Definition started_on (clock : Z) (rq : Request) (w : World) : Prop :=
  now (this w) = clock /\ req (this w) = Some rq /\ events w = [].

Definition none_stale (clock : Z) (rq : Request) (w : World) : Prop :=
  now (this w) = clock /\ client (this w) = creds rq
  /\ Forall (fun e => ~ stale_code (creds rq) clock e) (events w).

(** No lookup found a stale code, or the last one did and the final
    callback was told so. *)
Definition rejects_stale (clock : Z) (rq : Request) (o : Outcome) (w : World) : Prop :=
  Forall (fun e => ~ stale_code (creds rq) clock e) (events w)
  \/ exists l e,
       events w = l ++ [e]
       /\ Forall (fun e => ~ stale_code (creds rq) clock e) l
       /\ o = Called (error (VStr "invalid_grant") (VStr "Code has expired") VUndefined)
              VUndefined.

(** An authorization-code record of client [thom] that expired one
    millisecond before the clock reading 1000 used in the examples. *)
Definition stale_record : JSValue :=
  VObj (<["userId" := VNum 7]>
          (<["expires" := VDate (Some 999)]> {["clientId" := VStr "thom"]})).

(** The same record with its expiry given as a string. *)
Definition string_stale_record : JSValue :=
  VObj (<["userId" := VNum 7]>
          (<["expires" := VStr "999"]> {["clientId" := VStr "thom"]})).

(** The grant types the dispatch knows by name. *)
Definition builtin_grants : list string :=
  ["authorization_code"; "password"; "refresh_token"; "client_credentials"].

(** The storage allowed the grant type for the client. *)
Definition allowed (e : Event) : Prop :=
  match e with
  | Storage (GrantTypeAllowed _ _) r =>
      truthy (r_err r) = false /\ truthy (r_val r) = true
  | _ => False
  end.

Definition unsupported : JSValue :=
  error (VStr "invalid_request")
    (VStr "Invalid grant_type parameter or parameter missing") VUndefined.

Definition before_allowance (g : string) (w : World) : Prop :=
  grantType (this w) = Some g
  /\ Forall early (events w) /\ Forall (fun e => ~ allowed e) (events w).

Definition before_dispatch (g : string) (w : World) : Prop :=
  grantType (this w) = Some g /\ Forall early (events w).

(** Only the client and the allowance have been looked up, and a run that
    got its allowance ended as unsupported. *)
Definition never_dispatched (o : Outcome) (w : World) : Prop :=
  Forall early (events w)
  /\ (Forall (fun e => ~ allowed e) (events w) \/ o = Called unsupported VUndefined).

Definition implicit_request : Request :=
  form {["grant_type" := "implicit"]}.

(** The grant object holds the request [rq] up to [req.app]. *)
Definition request_kept (rq : Request) (w : World) : Prop :=
  exists a, req (this w) = Some (set_app a rq).

Definition request_kept_at_end (rq : Request) (o : Outcome) (w : World) : Prop :=
  request_kept rq w.

(** The run succeeded: the final callback got a response and no error. *)
Definition succeeded (o : Outcome) (w : World) : Prop :=
  exists x, o = Called VNull x.

Definition preApproved_granting (cfg : Config) (p : PreApproved) (w : World) : Prop :=
  config (this w) = cfg /\ preApproved (this w) = Some p
  /\ client (this w) = Some {| clientId := client_id p; clientSecret := client_secret p |}
  /\ plain_refresh w.

Definition preApproved_granting_token (cfg : Config) (p : PreApproved) (w : World) : Prop :=
  preApproved_granting cfg p w /\ exists s, accessToken (this w) = VStr s.

Definition preApproved_fresh (cfg : Config) (p : PreApproved) (w : World) : Prop :=
  config (this w) = cfg /\ preApproved (this w) = Some p
  /\ refreshToken (this w) = VUndefined.

(** ** The runner *)

Section RunnerFacts.
Context {W : Type}.
Implicit Types (fns fs : list (Step W)) (w : W) (tr : list (nat * Completion)).

Lemma run_none fns last pos tr w :
  fns !! pos = None -> run fns last pos tr w = mkRun (Uncaught TypeError) tr w.
Proof.
  intros H. rewrite run_equation_1.
  destruct (inspect (fns !! pos)) as [[g|] Hg];
    [pose proof (eq_trans (eq_sym Hg) H); discriminate|].
  now simp run.
Qed.

Lemma run_some fns last pos tr w f :
  fns !! pos = Some f ->
  run fns last pos tr w =
    match f w with
    | (Done err response, w') =>
        let tr' := tr ++ [(pos, Done err response)] in
        if truthy err then mkRun (Called err VUndefined) tr' w'
        else if Z.eqb (Z.of_nat pos) last then mkRun (Called VNull response) tr' w'
        else run fns last (S pos) tr' w'
    | (Pending, w') => mkRun NotCalled (tr ++ [(pos, Pending)]) w'
    | (Threw e, w') => mkRun (Uncaught e) (tr ++ [(pos, Threw e)]) w'
    end.
Proof.
  intros H. rewrite run_equation_1.
  destruct (inspect (fns !! pos)) as [[g|] Hg];
    [|pose proof (eq_trans (eq_sym Hg) H); discriminate].
  assert (g = f) by (pose proof (eq_trans (eq_sym Hg) H) as E; now injection E).
  subst g. simp run.
  destruct (f w) as [[err response| |e] w']; simp run; try reflexivity.
  cbn zeta. destruct (truthy err); [reflexivity|].
  destruct (Z.of_nat pos =? last)%Z; [reflexivity|].
  now rewrite run_equation_1.
Qed.

(** The indexed loop, started in the middle of the list, is the loop over
    the remaining steps. *)
Lemma run_run_list rest : forall pre f tr w,
  run (pre ++ f :: rest) (Z.of_nat (length (pre ++ f :: rest)) - 1) (length pre) tr w
  = run_list (length pre) tr (f :: rest) w.
Proof.
  induction rest as [|g rest IH]; intros pre f tr w.
  - rewrite (run_some _ _ _ _ _ f) by now apply list_lookup_middle.
    simpl. destruct (f w) as [[err response| |e] w']; try reflexivity.
    destruct (truthy err); [reflexivity|].
    rewrite length_app; simpl.
    replace (Z.of_nat (length pre) =? Z.of_nat (length pre + 1) - 1)%Z with true
      by (symmetry; apply Z.eqb_eq; lia).
    reflexivity.
  - rewrite (run_some _ _ _ _ _ f) by now apply list_lookup_middle.
    cbn [run_list]. destruct (f w) as [[err response| |e] w']; try reflexivity.
    cbn zeta. destruct (truthy err); [reflexivity|].
    replace (Z.of_nat (length pre) =? Z.of_nat (length (pre ++ f :: g :: rest)) - 1)%Z
      with false by (symmetry; apply Z.eqb_neq; rewrite length_app; simpl; lia).
    specialize (IH (pre ++ [f]) g (tr ++ [(length pre, Done err response)]) w').
    replace ((pre ++ [f]) ++ g :: rest) with (pre ++ f :: g :: rest) in IH
      by now rewrite <- app_assoc.
    replace (length (pre ++ [f])) with (S (length pre)) in IH
      by (rewrite length_app; simpl; lia).
    exact IH.
Qed.

Lemma runner_run_list fns w : runner fns w = run_list 0 [] fns w.
Proof.
  destruct fns as [|f rest].
  - unfold runner. now rewrite run_none.
  - apply (run_run_list rest [] f).
Qed.

(** What a run over a non-empty list looks like: a prefix of steps that
    called back without error, then the step that decided the outcome. *)
Lemma run_list_shape fs : forall pos tr w,
  fs <> [] ->
  exists k c ok,
    ran (run_list pos tr fs w) = tr ++ ok ++ [((pos + k)%nat, c)] /\
    (k < length fs)%nat /\
    ok.*1 = seq pos k /\
    (forall x, x ∈ ok -> exists e r, x.2 = Done e r /\ truthy e = false) /\
    match c with
    | Done e r =>
        if truthy e then outcome (run_list pos tr fs w) = Called e VUndefined
        else S k = length fs /\ outcome (run_list pos tr fs w) = Called VNull r
    | Pending => outcome (run_list pos tr fs w) = NotCalled
    | Threw ex => outcome (run_list pos tr fs w) = Uncaught ex
    end.
Proof.
  induction fs as [|f rest IH]; intros pos tr w Hne; [done|].
  cbn [run_list].
  destruct (f w) as [[err response| |ex] w'] eqn:Hf.
  - cbn zeta. destruct (truthy err) eqn:Herr.
    + exists 0%nat, (Done err response), [].
      rewrite Nat.add_0_r, Herr. simpl. split_and!; try done; try lia.
      intros x Hx. by apply elem_of_nil in Hx.
    + destruct rest as [|g rest'].
      * exists 0%nat, (Done err response), [].
        rewrite Nat.add_0_r, Herr. simpl. split_and!; try done; try lia.
        intros x Hx. by apply elem_of_nil in Hx.
      * destruct (IH (S pos) (tr ++ [(pos, Done err response)]) w')
          as (k & c & ok & Hran & Hk & Hidx & Hok & Hc); [done|].
        exists (S k), c, ((pos, Done err response) :: ok).
        rewrite Hran, <- app_assoc. cbn [List.app].
        replace (pos + S k)%nat with (S pos + k)%nat by lia.
        split_and!.
        -- done.
        -- simpl in *; lia.
        -- by rewrite fmap_cons, Hidx.
        -- intros x [->|Hx]%elem_of_cons; [by exists err, response|by apply Hok].
        -- destruct c as [e r| |]; try done.
           destruct (truthy e); [done|]. destruct Hc as [Hc1 Hc2].
           split; [simpl in *; lia|done].
  - exists 0%nat, Pending, []. rewrite Nat.add_0_r. simpl.
    split_and!; try done; try lia.
    intros x Hx. by apply elem_of_nil in Hx.
  - exists 0%nat, (Threw ex), []. rewrite Nat.add_0_r. simpl.
    split_and!; try done; try lia.
    intros x Hx. by apply elem_of_nil in Hx.
Qed.

(** Chaining triples along the list of steps. *)
Lemma ends_last (P : W -> Prop) (f : Step W) (Q : Outcome -> W -> Prop) :
  triple P f (fun r w' => Q (Called VNull r) w') Q -> ends P [f] Q.
Proof.
  intros Hf pos tr w HP. specialize (Hf w HP). cbn [run_list].
  destruct (f w) as [[e r| |x] w']; cbn zeta; try done.
  by destruct (truthy e).
Qed.

Lemma ends_cons (P M : W -> Prop) (f : Step W) rest (Q : Outcome -> W -> Prop) :
  rest <> [] ->
  triple P f (fun _ => M) Q -> ends M rest Q -> ends P (f :: rest) Q.
Proof.
  intros Hne Hf Hrest pos tr w HP. specialize (Hf w HP). cbn [run_list].
  destruct (f w) as [[e r| |x] w']; cbn zeta; try done.
  destruct (truthy e); [done|].
  destruct rest as [|g rest']; [done|]. by apply Hrest.
Qed.

(** One invariant kept by every step but the last. *)
Lemma ends_uniform (I : W -> Prop) (Q : Outcome -> W -> Prop) init (l : Step W) :
  Forall (fun f => triple I f (fun _ => I) Q) init ->
  triple I l (fun r w' => Q (Called VNull r) w') Q ->
  ends I (init ++ [l]) Q.
Proof.
  intros Hinit Hl. induction Hinit as [|f init Hf _ IH]; simpl.
  - by apply ends_last.
  - apply ends_cons with (M := I); [by destruct init|done|done].
Qed.

(** One invariant kept by every step, however it ends. *)
Lemma ends_invariant (I : W -> Prop) fs :
  Forall (fun f => triple I f (fun _ => I) (fun _ => I)) fs -> fs <> [] ->
  ends I fs (fun _ => I).
Proof.
  intros Hall Hne. induction Hall as [|f rest Hf _ IH]; [done|].
  destruct rest as [|g rest'].
  - by apply ends_last.
  - apply ends_cons with (M := I); [done|done|by apply IH].
Qed.

Lemma ends_runner (P : W -> Prop) fs (Q : Outcome -> W -> Prop) w :
  ends P fs Q -> P w -> Q (outcome (runner fs w)) (final (runner fs w)).
Proof. intros H HP. rewrite runner_run_list. by apply H. Qed.

End RunnerFacts.

(** Membership of an event in the log of a closed run. *)
Ltac in_log :=
  apply list_elem_of_In; vm_compute; repeat first [left; reflexivity | right].



(** ** Reading the fields of an error *)

Lemma error_kind k m c : prop (error k m c) "kind" = k.
Proof. reflexivity. Qed.

Lemma error_message k m c : prop (error k m c) "message" = m.
Proof. reflexivity. Qed.

Lemma error_cause k m c : prop (error k m c) "cause" = c.
Proof. reflexivity. Qed.

Lemma error_truthy k m c : truthy (error k m c) = true.
Proof. reflexivity. Qed.

(** ** Saving tokens *)

(** C7, amended.  When the generated access token is an object whose
    [accessToken] field holds a non-empty string [X], the save step calls
    back without error, leaves the event log as it was (the storage model is
    not invoked) and the context's [accessToken] becomes the string [X]; the
    same holds for a refresh token, its [refreshToken] field and
    [saveRefreshToken]. *)
Theorem reissue_marker_bypasses_storage
    (m : Model) (w : World) (props : gmap string JSValue) (X : string) :
  X <> EmptyString ->
  (accessToken (this w) = VObj props -> props !! "accessToken" = Some (VStr X) ->
   exists w', GrantBase.saveAccessToken m w = (done_ok, w') /\
              events w' = events w /\ accessToken (this w') = VStr X) /\
  (refreshToken (this w) = VObj props -> props !! "refreshToken" = Some (VStr X) ->
   exists w', GrantBase.saveRefreshToken m w = (done_ok, w') /\
              events w' = events w /\ refreshToken (this w') = VStr X).
Proof.
  intros HX.
  assert (truthy (VStr X) = true) as Ht.
  { simpl. destruct X; [done|reflexivity]. }
  split; intros Htok Hfield.
  - unfold GrantBase.saveAccessToken. rewrite Htok. cbn [typeof_object is_null andb].
    unfold prop. rewrite Hfield. cbn [default from_option id]. rewrite Ht.
    eexists. split_and!; reflexivity.
  - unfold GrantBase.saveRefreshToken. rewrite Htok.
    cbn [truthy negb typeof_object andb].
    unfold prop. rewrite Hfield. cbn [default from_option id]. rewrite Ht.
    eexists. split_and!; reflexivity.
Qed.

Lemma reissue_marker_bypasses_storage_witness :
  exists w',
    GrantBase.saveAccessToken (sample_model VNull VNull VNull)
      (saving (LSeconds 3600) (VObj {["accessToken" := VStr "X"]}) VUndefined)
    = (done_ok, w') /\
    events w' = [] /\ accessToken (this w') = VStr "X".
Proof.
  apply (reissue_marker_bypasses_storage (sample_model VNull VNull VNull)
           (saving (LSeconds 3600) (VObj {["accessToken" := VStr "X"]}) VUndefined)
           {["accessToken" := VStr "X"]} "X"); [discriminate|reflexivity|reflexivity].
Defined.

(** C7 as stated fails for the empty string: the marker [{accessToken: ''}]
    is handed to the storage model's [saveAccessToken] and stays in the
    context as an object. *)
Lemma empty_reissue_marker_is_saved :
  let marker := VObj {["accessToken" := VStr EmptyString]} in
  let w' := (GrantBase.saveAccessToken (sample_model VNull VNull VNull)
               (saving (LSeconds 3600) marker VUndefined)).2 in
  events w' =
    [Storage (SaveAccessToken marker (Some "thom") (VDate (Some 3601000))
                (VObj {["id" := VNum 7]}) (Some "password"))
       (ok VUndefined)]
  /\ accessToken (this w') = marker
  /\ accessToken (this w') <> VStr EmptyString.
Proof. split_and!; [reflexivity|reflexivity|discriminate]. Qed.

(** C3.  With [accessTokenLifetime: null] and a freshly generated token the
    save step indexes [null] and throws before the storage model is reached:
    nothing is saved, the callback is never called. *)
Theorem null_lifetime_save_throws (m : Model) (w : World) (c : Client) :
  accessTokenLifetime (config (this w)) = LNull ->
  client (this w) = Some c ->
  typeof_object (accessToken (this w)) = false ->
  GrantBase.saveAccessToken m w = (Threw TypeError, w).
Proof.
  intros Hl Hc Ht. unfold GrantBase.saveAccessToken.
  rewrite Ht, Hl, Hc. reflexivity.
Qed.

Lemma null_lifetime_save_throws_witness :
  GrantBase.saveAccessToken (sample_model VNull VNull VNull)
    (saving LNull (VStr "t0ken") VUndefined)
  = (Threw TypeError, saving LNull (VStr "t0ken") VUndefined).
Proof.
  apply (null_lifetime_save_throws _ _
           {| clientId := Some "thom"; clientSecret := Some "nightworld" |});
    reflexivity.
Defined.

(** ** Lifetimes as the save step resolves them *)

(** What [saveAccessToken] hands to the storage model when the lifetime is
    not [null] and the token is not a reissue marker. *)
Lemma saveAccessToken_passes_resolved_expiry (m : Model) (w : World) (c : Client)
    (v exp : JSValue) :
  client (this w) = Some c ->
  typeof_object (accessToken (this w)) = false ->
  index (accessTokenLifetime (config (this w))) (key_of (clientId c)) = Some v ->
  add_seconds (zone m) (now (this w))
    (if negb (is_undefined v) then v
     else lifetime_value (accessTokenLifetime (config (this w)))) = Some exp ->
  events (GrantBase.saveAccessToken m w).2 =
    events w ++
    [Storage
       (SaveAccessToken (accessToken (this w)) (clientId c) exp
          (user (this w)) (grantType (this w)))
       (respond m (events w)
          (SaveAccessToken (accessToken (this w)) (clientId c) exp
             (user (this w)) (grantType (this w))))].
Proof.
  intros Hc Ht Hidx Hexp. unfold GrantBase.saveAccessToken.
  rewrite Ht, Hc, Hidx. simpl.
  assert (is_null (if negb (is_undefined v) then v
                   else lifetime_value (accessTokenLifetime (config (this w)))) = false)
    as Hnn.
  { destruct (accessTokenLifetime (config (this w))) as [|n|mp]; [done| |].
    - simpl in Hidx. injection Hidx as <-. unfold inherited. by repeat case_match.
    - simpl in Hidx. injection Hidx as <-. unfold inherited. by repeat case_match. }
  unfold call. rewrite Hnn. simpl. rewrite Hexp.
  destruct (truthy _); reflexivity.
Qed.

(** A mapping entry for the client decides the expiry. *)
Lemma mapping_entry_sets_expiry (mp : gmap string Z) (cid : string) (n : Z) :
  mp !! cid = Some n -> index (LMap mp) cid = Some (VNum n).
Proof. intros H. simpl. by rewrite H. Qed.

(** A scalar lifetime applies to every client whose id is not the name of
    something a number inherits. *)
Lemma scalar_lifetime_has_no_entry (n : Z) (cid : string) :
  cid ∉ "__proto__" :: methods Number_prototype ->
  index (LSeconds n) cid = Some VUndefined.
Proof.
  intros Hnot. simpl. unfold inherited.
  rewrite bool_decide_eq_false_2 by (intros Hin; apply Hnot; by right).
  destruct (String.eqb cid "__proto__") eqn:E; [|done].
  apply String.eqb_eq in E. subst. exfalso. apply Hnot. by left.
Qed.

(** ... and not to a client named after such a thing: an inherited function
    leaves an Invalid Date, the prototype of numbers counts as 0 seconds. *)
Lemma scalar_lifetime_shadowed_by_prototype :
  index (LSeconds 3600) "toString" = Some (VFun "toString")
  /\ add_seconds UTC 1000 (VFun "toString") = Some (VDate None)
  /\ index (LSeconds 3600) "__proto__" = Some (VNumberObj 0)
  /\ add_seconds UTC 1000 (VNumberObj 0) = Some (VDate (Some 1000)).
Proof. by split_and!. Qed.

(** ** The pre-approved constructors *)

Lemma runner_ran_nonempty {W : Type} (fs : list (Step W)) (w : W) :
  fs <> [] -> ran (runner fs w) <> [].
Proof.
  intros Hne. rewrite runner_run_list.
  destruct (run_list_shape fs 0 [] w Hne) as (k & c & ok & -> & _).
  simpl. by destruct ok.
Qed.

(** No step of the second pre-approved pipeline raises an [Error]: the
    only exception a step can end with is the engine's TypeError. *)
Lemma PreApproved2_steps_raise_no_Error (m : Model) :
  Forall (fun f : Step World =>
            forall w x, (f w).1 = Threw x -> x = TypeError)
         (PreApproved2.fns m).
Proof.
  unfold PreApproved2.fns.
  repeat apply Forall_cons_2; [..|apply Forall_nil_2]; intros w x;
    unfold PreApproved2.extractPreApprovedCredentials, GrantBase.checkClient,
      PreApproved2.checkGrantType, PreApproved2.usePreApprovedGrant,
      GrantBase.generateAccessToken, GrantBase.saveAccessToken,
      GrantBase.generateRefreshToken, GrantBase.saveRefreshToken,
      PreApproved2.returnPreApprovedResponse, call, token, fail, server_error, done_ok;
    repeat case_match; simpl; congruence.
Qed.

Lemma run_list_uncaught {W : Type} (fs : list (Step W)) : forall pos tr w x,
  outcome (run_list pos tr fs w) = Uncaught x ->
  (fs = [] /\ x = TypeError) \/ exists f w0, f ∈ fs /\ (f w0).1 = Threw x.
Proof.
  induction fs as [|f rest IH]; intros pos tr w x; cbn [run_list].
  - intros [= <-]. by left.
  - destruct (f w) as [[e r| |y] w'] eqn:Hf; cbn zeta.
    + destruct (truthy e); [done|]. destruct rest as [|g rest']; [done|].
      intros [[? _]|(h & w0 & Hin & Hh)]%IH; [done|].
      right. exists h, w0. split; [by apply list_elem_of_further|done].
    + done.
    + intros [= ->]. right. exists f, w. split; [apply list_elem_of_here|by rewrite Hf].
Qed.

(** C4, amended.  With [continueAfterResponse] set, constructing the first
    pre-approved grant throws its [Error] before any step runs and before
    any collaborator is invoked; the second pre-approved grant, built on
    GrantBase, does not read the flag: its construction starts the pipeline
    (the first step runs) and never raises that error. *)
Theorem preApproved_continueAfterResponse
    (m : Model) (cfg : Config) (p : PreApproved) (clock : Z)
    (globals : gmap string JSValue) :
  continueAfterResponse cfg = true ->
  (outcome (PreApproved1.PreApprovedGrant m cfg p clock globals)
     = Uncaught (Error "continueAfterResponse option incompatible to preApproved")
   /\ ran (PreApproved1.PreApprovedGrant m cfg p clock globals) = []
   /\ events (final (PreApproved1.PreApprovedGrant m cfg p clock globals)) = [])
  /\ (ran (PreApproved2.PreApprovedGrant m cfg p clock globals) <> []
      /\ forall msg,
           outcome (PreApproved2.PreApprovedGrant m cfg p clock globals)
           <> Uncaught (Error msg)).
Proof.
  intros Hflag. split.
  - unfold PreApproved1.PreApprovedGrant. rewrite Hflag. by split_and!.
  - unfold PreApproved2.PreApprovedGrant. split.
    + by apply runner_ran_nonempty.
    + intros msg Hout. rewrite runner_run_list in Hout.
      apply run_list_uncaught in Hout as [[? _]|(f & w0 & Hin & Hf)]; [done|].
      pose proof (PreApproved2_steps_raise_no_Error m) as Hall.
      rewrite Forall_forall in Hall. by specialize (Hall f Hin w0 _ Hf).
Qed.

Lemma preApproved_continueAfterResponse_witness :
  (outcome (PreApproved1.PreApprovedGrant (sample_model VNull (VStr "t0ken") (VStr "r3fresh"))
              (sample_config (LSeconds 3600) true) sample_preApproved 1000 ∅)
     = Uncaught (Error "continueAfterResponse option incompatible to preApproved")
   /\ ran (PreApproved1.PreApprovedGrant (sample_model VNull (VStr "t0ken") (VStr "r3fresh"))
              (sample_config (LSeconds 3600) true) sample_preApproved 1000 ∅) = []
   /\ events (final (PreApproved1.PreApprovedGrant
                       (sample_model VNull (VStr "t0ken") (VStr "r3fresh"))
                       (sample_config (LSeconds 3600) true) sample_preApproved 1000 ∅)) = [])
  /\ (ran (PreApproved2.PreApprovedGrant (sample_model VNull (VStr "t0ken") (VStr "r3fresh"))
             (sample_config (LSeconds 3600) true) sample_preApproved 1000 ∅) <> []
      /\ forall msg,
           outcome (PreApproved2.PreApprovedGrant
                      (sample_model VNull (VStr "t0ken") (VStr "r3fresh"))
                      (sample_config (LSeconds 3600) true) sample_preApproved 1000 ∅)
           <> Uncaught (Error msg)).
Proof.
  apply (preApproved_continueAfterResponse
           (sample_model VNull (VStr "t0ken") (VStr "r3fresh"))
           (sample_config (LSeconds 3600) true) sample_preApproved 1000 ∅).
  reflexivity.
Defined.

(** C4 as stated fails for the second variant: with the flag set it runs
    all eight steps and hands the response to the final callback. *)
Lemma PreApproved2_runs_with_continueAfterResponse :
  let R := PreApproved2.PreApprovedGrant
             (sample_model VNull (VStr "t0ken") (VStr "r3fresh"))
             (sample_config (LSeconds 3600) true) sample_preApproved 1000 ∅ in
  continueAfterResponse (sample_config (LSeconds 3600) true) = true
  /\ outcome R =
       Called VNull
         (VObj (<["refresh_token" := VStr "r3fresh"]>
                  (<["expires_in" := VNum 3600]>
                     (<["access_token" := VStr "t0ken"]>
                        {["token_type" := VStr "bearer"]}))))
  /\ (ran R).*1 = seq 0 8.
Proof. split_and!; reflexivity. Qed.

(** ** Symbolic execution of the steps *)

Arguments error : simpl never.

Ltac unfold_steps :=
  unfold Grant.extractCredentials, Grant.checkGrantTypeAllowed,
    Grant.checkGrantType, Grant.useExtendedGrant, Grant.useAuthCodeGrant,
    Grant.usePasswordGrant, Grant.useRefreshTokenGrant,
    Grant.useClientCredentialsGrant, Grant.exposeUser, Grant.exposeClient,
    Grant.sendResponse, Grant.credsFromBasic, Grant.credsFromBody, Grant.field,
    GrantBase.checkClient, GrantBase.generateAccessToken,
    GrantBase.saveAccessToken, GrantBase.generateRefreshToken,
    GrantBase.saveRefreshToken,
    call, token, fail, server_error, done_ok in *.

(** Follows every path through the step in the goal. *)
Ltac step_paths :=
  unfold_steps;
  repeat (case_match; simplify_eq/=; rewrite ?error_truthy in *; try done).

Lemma unanswered_storage l c r : unanswered l -> unanswered (l ++ [Storage c r]).
Proof.
  intros H x [Hin|Hin%list_elem_of_singleton]%elem_of_app; [by apply (H x)|done].
Qed.

Lemma unanswered_token l k r : unanswered l -> unanswered (l ++ [Token k r]).
Proof.
  intros H x [Hin|Hin%list_elem_of_singleton]%elem_of_app; [by apply (H x)|done].
Qed.

Lemma answered_snoc l x : exists y, Respond y ∈ l ++ [Respond x].
Proof. exists x. apply elem_of_app. right. apply list_elem_of_here. Qed.

Create HintDb grant.
#[local] Hint Resolve unanswered_storage unanswered_token answered_snoc : grant.

Section ContinueAfterResponse.
Variables (m : Model) (cfg : Config).

Lemma Grant_steps_before_response :
  Forall (fun f => triple (before_response cfg) f (fun _ => before_response cfg) (answered_once cfg))
    [ Grant.extractCredentials; GrantBase.checkClient m; Grant.exposeClient;
      Grant.checkGrantTypeAllowed m; Grant.checkGrantType m; Grant.exposeUser;
      GrantBase.generateAccessToken m; GrantBase.saveAccessToken m;
      GrantBase.generateRefreshToken m; GrantBase.saveRefreshToken m ].
Proof.
  repeat apply Forall_cons_2; [..|apply Forall_nil_2];
    intros w [Hcfg Hun]; unfold before_response, answered_once;
    step_paths; auto 6 with grant.
Qed.

Lemma Grant_sendResponse_decides :
  triple (before_response cfg) Grant.sendResponse
    (fun r w' => answered_once cfg (Called VNull r) w') (answered_once cfg).
Proof.
  intros w [Hcfg Hun]; unfold before_response, answered_once;
    step_paths; auto 6 with grant.
Qed.

Lemma Grant_ends_answered_once : ends (before_response cfg) (Grant.fns m) (answered_once cfg).
Proof.
  apply (ends_uniform (before_response cfg) (answered_once cfg)
           [ Grant.extractCredentials; GrantBase.checkClient m; Grant.exposeClient;
             Grant.checkGrantTypeAllowed m; Grant.checkGrantType m; Grant.exposeUser;
             GrantBase.generateAccessToken m; GrantBase.saveAccessToken m;
             GrantBase.generateRefreshToken m; GrantBase.saveRefreshToken m ]
           Grant.sendResponse).
  - apply Grant_steps_before_response.
  - apply Grant_sendResponse_decides.
Qed.
End ContinueAfterResponse.

(** C10.  In the full pipeline, once the response has been handed to the
    transport, the completion callback is not invoked when
    [continueAfterResponse] is false and is invoked without error when it is
    true; whenever it is invoked, it is with an error (and then no response
    was sent) or [continueAfterResponse] is true. *)
Theorem completion_callback_only_on_error_or_continue
    (m : Model) (cfg : Config) (rq : Request) (clock : Z)
    (globals : gmap string JSValue) :
  ((exists x, Respond x ∈ events (final (Grant.Grant m cfg rq clock globals))) ->
   outcome (Grant.Grant m cfg rq clock globals) =
     if continueAfterResponse cfg then Called VNull VUndefined else NotCalled)
  /\ (forall e r,
        outcome (Grant.Grant m cfg rq clock globals) = Called e r ->
        (truthy e = true /\
         unanswered (events (final (Grant.Grant m cfg rq clock globals))))
        \/ (continueAfterResponse cfg = true /\ truthy e = false)).
Proof.
  pose proof (ends_runner _ _ _
    {| this := set_req (Some rq) (GrantBase.GrantBase cfg clock);
       receiver := globals; events := [] |}
    (Grant_ends_answered_once m cfg)) as H.
  unfold Grant.Grant, Grant.lib_runner.
  destruct H as [[Hun Ho]|[Hans Ho]].
  - split; [done|]. by intros x Hx%elem_of_nil.
  - split.
    + intros [x Hx]. by destruct (Hun x).
    + intros e r Heq. rewrite Heq in Ho. by left.
  - split; [done|].
    intros e r Heq. rewrite Heq in Ho.
    destruct (continueAfterResponse cfg); [|done].
    injection Ho as -> ->. by right.
Qed.

Lemma completion_callback_only_on_error_or_continue_witness :
  outcome (Grant.Grant (sample_model (VObj {["id" := VNum 7]}) (VStr "t0ken") (VStr "r3fresh"))
             (sample_config (LSeconds 3600) false) password_request 1000 ∅)
  = NotCalled.
Proof.
  apply (proj1 (completion_callback_only_on_error_or_continue
                  (sample_model (VObj {["id" := VNum 7]}) (VStr "t0ken") (VStr "r3fresh"))
                  (sample_config (LSeconds 3600) false) password_request 1000 ∅)).
  exists (VObj (<["refresh_token" := VStr "r3fresh"]>
                  (<["expires_in" := VNum 3600]>
                     (<["access_token" := VStr "t0ken"]>
                        {["token_type" := VStr "bearer"]})))).
  apply list_elem_of_In. vm_compute.
  repeat first [left; reflexivity | right].
Defined.

(** ** The client record *)

Section ClientModel.
Variables (m : Model) (o0 : JSValue).

Lemma Grant_steps_never_attach_client :
  Forall (fun f => triple (client_never_attached o0) f
                     (fun _ => client_never_attached o0)
                     (fun _ => client_never_attached o0))
    (Grant.fns m).
Proof.
  repeat apply Forall_cons_2; [..|apply Forall_nil_2];
    intros w [Hcm Hoauth]; unfold client_never_attached;
    step_paths; rewrite ?Hcm;
    try (split; [done|]; intros ? ?; simplify_eq/=; eauto).
Qed.
End ClientModel.

(** C1.  The claim fails on the code: whatever [getClient] returns, the
    grant object never gets a [clientModel] ([checkClient] assigns it to the
    callback's receiver), so what [exposeClient] stores in [req.app.oauth]
    is [{client: undefined}]. *)
Theorem Grant_never_attaches_client_record
    (m : Model) (cfg : Config) (rq : Request) (clock : Z)
    (globals : gmap string JSValue) :
  clientModel (this (final (Grant.Grant m cfg rq clock globals))) = VUndefined
  /\ forall rq',
       req (this (final (Grant.Grant m cfg rq clock globals))) = Some rq' ->
       app_oauth (app rq') = app_oauth (app rq)
       \/ app_oauth (app rq') = VObj {["client" := VUndefined]}.
Proof.
  unfold Grant.Grant, Grant.lib_runner.
  apply (ends_runner (client_never_attached (app_oauth (app rq))) (Grant.fns m)
           (fun _ => client_never_attached (app_oauth (app rq)))).
  - apply ends_invariant; [apply Grant_steps_never_attach_client|done].
  - split; [done|]. intros rq' [= <-]. by left.
Qed.

(** The failing input of C1: [getClient] answers with the record
    [{name: 'Thom'}]; the run goes on to send the response, the record sits
    on the callback's receiver and the caller finds [{client: undefined}]. *)
Lemma Grant_exposes_undefined_client :
  let R := Grant.Grant
             (sample_model (VObj {["id" := VNum 7]}) (VStr "t0ken") (VStr "r3fresh"))
             (sample_config (LSeconds 3600) false) password_request 1000 ∅ in
  events (final R) !! 0%nat
    = Some (Storage (GetClient (Some "thom") (Some "nightworld"))
              (ok (VObj {["name" := VStr "Thom"]})))
  /\ receiver (final R) !! "clientModel" = Some (VObj {["name" := VStr "Thom"]})
  /\ (app_oauth ∘ app) <$> req (this (final R))
     = Some (VObj {["client" := VUndefined]})
  /\ (ran R).*1 = seq 0 11.
Proof. split_and!; reflexivity. Qed.

(** ** Storage errors *)

Lemma clean_storage l c r :
  clean l -> truthy (r_err r) = false -> clean (l ++ [Storage c r]).
Proof.
  intros H Hr c' r' [Hin|Hin%list_elem_of_singleton]%elem_of_app; [by apply (H c')|].
  by injection Hin as -> ->.
Qed.

Lemma clean_token l k r : clean l -> clean (l ++ [Token k r]).
Proof.
  intros H c' r' [Hin|Hin%list_elem_of_singleton]%elem_of_app; [by apply (H c')|done].
Qed.

Lemma clean_respond l x : clean l -> clean (l ++ [Respond x]).
Proof.
  intros H c' r' [Hin|Hin%list_elem_of_singleton]%elem_of_app; [by apply (H c')|done].
Qed.

#[local] Hint Resolve clean_storage clean_token clean_respond : grant.

(** The last storage call failed and its error is the one passed on. *)
Ltac surface :=
  right; eexists _, _, _, _;
  split_and!; [reflexivity|eauto with grant|eassumption|reflexivity|by repeat split].

Section StorageErrors.
Variable m : Model.

Lemma Grant_steps_surface_storage_errors :
  Forall (fun f => triple clean_log f (fun _ => clean_log) storage_error_surfaces)
    [ Grant.extractCredentials; GrantBase.checkClient m; Grant.exposeClient;
      Grant.checkGrantTypeAllowed m; Grant.checkGrantType m; Grant.exposeUser;
      GrantBase.generateAccessToken m; GrantBase.saveAccessToken m;
      GrantBase.generateRefreshToken m; GrantBase.saveRefreshToken m ].
Proof.
  repeat apply Forall_cons_2; [..|apply Forall_nil_2];
    intros w Hclean; unfold clean_log, storage_error_surfaces in *;
    step_paths;
    first [by eauto 6 with grant | left; by eauto 6 with grant | surface].
Qed.

Lemma Grant_sendResponse_surfaces_nothing :
  triple clean_log Grant.sendResponse
    (fun r w' => storage_error_surfaces (Called VNull r) w') storage_error_surfaces.
Proof.
  intros w Hclean; unfold clean_log, storage_error_surfaces in *;
    step_paths; left; by eauto 6 with grant.
Qed.

Lemma Grant_ends_surfacing : ends clean_log (Grant.fns m) storage_error_surfaces.
Proof.
  apply (ends_uniform clean_log storage_error_surfaces
           [ Grant.extractCredentials; GrantBase.checkClient m; Grant.exposeClient;
             Grant.checkGrantTypeAllowed m; Grant.checkGrantType m; Grant.exposeUser;
             GrantBase.generateAccessToken m; GrantBase.saveAccessToken m;
             GrantBase.generateRefreshToken m; GrantBase.saveRefreshToken m ]
           Grant.sendResponse).
  - apply Grant_steps_surface_storage_errors.
  - apply Grant_sendResponse_surfaces_nothing.
Qed.
End StorageErrors.

(** C6.  In the full pipeline, when a storage call reports an error, the
    final callback receives an error that wraps it as its cause; its kind is
    [server_error] and its message [false] for every storage method except
    [extendedGrant], where the storage error's own [type] and [description],
    when present, are the kind and the message (otherwise [server_error] and
    the storage error's [message]). *)
Theorem storage_errors_surface_as_server_error
    (m : Model) (cfg : Config) (rq : Request) (clock : Z)
    (globals : gmap string JSValue) (c : Call) (r : Reply) :
  Storage c r ∈ events (final (Grant.Grant m cfg rq clock globals)) ->
  truthy (r_err r) = true ->
  exists e,
    outcome (Grant.Grant m cfg rq clock globals) = Called e VUndefined /\
    prop e "cause" = r_err r /\
    match c with
    | ExtendedGrant _ _ =>
        prop e "kind" =
          (if truthy (prop (r_err r) "type") then prop (r_err r) "type"
           else VStr "server_error")
        /\ prop e "message" =
             (if truthy (prop (r_err r) "description")
              then prop (r_err r) "description"
              else prop (r_err r) "message")
    | _ => prop e "kind" = VStr "server_error" /\ prop e "message" = VBool false
    end.
Proof.
  intros Hin Herr.
  pose proof (ends_runner _ _ _
    {| this := set_req (Some rq) (GrantBase.GrantBase cfg clock);
       receiver := globals; events := [] |}
    (Grant_ends_surfacing m)) as H.
  unfold Grant.Grant, Grant.lib_runner in *.
  destruct H as [Hclean|(l & c' & r' & e & Hev & Hl & Hr' & Ho & Hcause & Hkind)].
  - by intros ? ? ?%elem_of_nil.
  - rewrite (Hclean c r Hin) in Herr. done.
  - rewrite Hev in Hin.
    apply elem_of_app in Hin as [Hin|Hin%list_elem_of_singleton].
    { rewrite (Hl c r Hin) in Herr. done. }
    injection Hin as -> ->. exists e. by split_and!.
Qed.

Lemma storage_errors_surface_as_server_error_witness :
  exists e,
    outcome (Grant.Grant (broken_model (VStr "db down"))
               (sample_config (LSeconds 3600) false) password_request 1000 ∅)
      = Called e VUndefined
    /\ prop e "cause" = VStr "db down"
    /\ prop e "kind" = VStr "server_error" /\ prop e "message" = VBool false.
Proof.
  apply (storage_errors_surface_as_server_error (broken_model (VStr "db down"))
           (sample_config (LSeconds 3600) false) password_request 1000 ∅
           (GetClient (Some "thom") (Some "nightworld")) (failed (VStr "db down")));
    [in_log|reflexivity].
Defined.

(** The exception of C6 at work: the extension grant's error names its own
    kind and description. *)
Lemma extended_grant_error_keeps_its_kind :
  let err := VObj (<["description" := VStr "nope"]> {["type" := VStr "custom_kind"]}) in
  outcome (Grant.Grant (extension_model err)
             (sample_config (LSeconds 3600) false) extension_request 1000 ∅)
  = Called (error (VStr "custom_kind") (VStr "nope") err) VUndefined.
Proof. reflexivity. Qed.

(** ** Expired refresh tokens *)

(** A value that converts to an integer compares as that integer. *)
Lemma lt_date_number (v : JSValue) (t now : Z) :
  to_number v = Some t -> lt_date v now = Some (t <? now).
Proof.
  unfold to_number, lt_date. destruct (to_double v) as [[| |mt e]|]; try done.
  simpl. destruct (0 <=? e) eqn:He; [by intros [= <-]|].
  destruct (mt mod 2 ^ (- e) =? 0) eqn:Hm; [|done]. intros [= <-]. f_equal.
  apply Z.eqb_eq in Hm. apply Z.leb_gt in He.
  assert (0 < 2 ^ (- e)) as Hp by (apply Z.pow_pos_nonneg; lia).
  pose proof (Z.div_mod mt (2 ^ (- e)) ltac:(lia)) as Hd. rewrite Hm in Hd.
  destruct (Z.ltb_spec mt (now * 2 ^ (- e))), (Z.ltb_spec (mt / 2 ^ (- e)) now);
    try done; nia.
Qed.

Lemma lt_date_before (v : JSValue) (t now : Z) :
  to_number v = Some t -> t < now -> lt_date v now = Some true.
Proof.
  intros Hv Ht. rewrite (lt_date_number _ _ _ Hv). f_equal. by apply Z.ltb_lt.
Qed.

Lemma early_snoc l e : Forall early l -> early e -> Forall early (l ++ [e]).
Proof. intros Hl He. apply Forall_app. split; [done|]. by apply Forall_singleton. Qed.

Lemma early_not_refresh l tok r :
  Forall early l -> Storage (GetRefreshToken tok) r ∉ l.
Proof.
  intros Hl Hin. rewrite Forall_forall in Hl. by apply Hl in Hin.
Qed.

(** *** The pre-approved pipelines *)

Ltac unfold_preApproved_steps :=
  unfold PreApproved1.extractPreApprovedCredentials, PreApproved1.checkClient,
    PreApproved1.checkGrantType, PreApproved1.usePreApprovedGrant,
    PreApproved1.generateAccessToken, PreApproved1.saveAccessToken,
    PreApproved1.generateRefreshToken, PreApproved1.saveRefreshToken,
    PreApproved1.returnPreApprovedResponse,
    PreApproved2.extractPreApprovedCredentials, PreApproved2.checkGrantType,
    PreApproved2.usePreApprovedGrant, PreApproved2.returnPreApprovedResponse in *.

Lemma PreApproved_steps_surface_storage_errors (m : Model) :
  Forall (fun f => triple clean_log f (fun _ => clean_log) storage_error_surfaces)
    [ PreApproved1.extractPreApprovedCredentials; PreApproved1.checkClient m;
      PreApproved1.checkGrantType; PreApproved1.generateAccessToken m;
      PreApproved1.saveAccessToken m; PreApproved1.generateRefreshToken m;
      PreApproved1.saveRefreshToken m;
      PreApproved2.extractPreApprovedCredentials; GrantBase.checkClient m;
      PreApproved2.checkGrantType; GrantBase.generateAccessToken m;
      GrantBase.saveAccessToken m; GrantBase.generateRefreshToken m;
      GrantBase.saveRefreshToken m ].
Proof.
  repeat apply Forall_cons_2; [..|apply Forall_nil_2];
    intros w Hclean; unfold clean_log, storage_error_surfaces in *;
    unfold_preApproved_steps; step_paths;
    first [by eauto 6 with grant | left; by eauto 6 with grant | surface].
Qed.

Lemma PreApproved_responses_surface_nothing :
  Forall (fun f => triple clean_log f
                     (fun r w' => storage_error_surfaces (Called VNull r) w')
                     storage_error_surfaces)
    [ PreApproved1.returnPreApprovedResponse; PreApproved2.returnPreApprovedResponse ].
Proof.
  repeat apply Forall_cons_2; [..|apply Forall_nil_2];
    intros w Hclean; unfold clean_log, storage_error_surfaces in *;
    unfold_preApproved_steps; step_paths; by left.
Qed.

Lemma PreApproved_ends_surfacing (m : Model) :
  ends clean_log (PreApproved1.fns m) storage_error_surfaces
  /\ ends clean_log (PreApproved2.fns m) storage_error_surfaces.
Proof.
  pose proof (PreApproved_steps_surface_storage_errors m) as Hsteps.
  change [ PreApproved1.extractPreApprovedCredentials; PreApproved1.checkClient m;
      PreApproved1.checkGrantType; PreApproved1.generateAccessToken m;
      PreApproved1.saveAccessToken m; PreApproved1.generateRefreshToken m;
      PreApproved1.saveRefreshToken m;
      PreApproved2.extractPreApprovedCredentials; GrantBase.checkClient m;
      PreApproved2.checkGrantType; GrantBase.generateAccessToken m;
      GrantBase.saveAccessToken m; GrantBase.generateRefreshToken m;
      GrantBase.saveRefreshToken m ]
    with ([ PreApproved1.extractPreApprovedCredentials; PreApproved1.checkClient m;
      PreApproved1.checkGrantType; PreApproved1.generateAccessToken m;
      PreApproved1.saveAccessToken m; PreApproved1.generateRefreshToken m;
      PreApproved1.saveRefreshToken m ] ++
      [ PreApproved2.extractPreApprovedCredentials; GrantBase.checkClient m;
      PreApproved2.checkGrantType; GrantBase.generateAccessToken m;
      GrantBase.saveAccessToken m; GrantBase.generateRefreshToken m;
      GrantBase.saveRefreshToken m ]) in Hsteps.
  apply Forall_app in Hsteps as [H1 H2].
  pose proof PreApproved_responses_surface_nothing as Hlast.
  apply Forall_cons_1 in Hlast as [L1 Hlast]. apply Forall_cons_1 in Hlast as [L2 _].
  split.
  - by apply (ends_uniform clean_log storage_error_surfaces _ _ H1).
  - by apply (ends_uniform clean_log storage_error_surfaces _ _ H2).
Qed.

(** X22.  The pre-approved pipelines wrap storage errors the same way:
    when a storage call of either pipeline reports an error, the final
    callback receives a [server_error] with message [false] that has the
    storage error as its cause. *)
Lemma preApproved_storage_errors_surface
    (m : Model) (cfg : Config) (p : PreApproved) (clock : Z)
    (globals : gmap string JSValue) (R : Run World) (c : Call) (r : Reply) :
  R = PreApproved1.PreApprovedGrant m cfg p clock globals
  \/ R = PreApproved2.PreApprovedGrant m cfg p clock globals ->
  Storage c r ∈ events (final R) ->
  truthy (r_err r) = true ->
  exists e, outcome R = Called e VUndefined /\ surfaced c (r_err r) e.
Proof.
  intros HR Hin Herr.
  assert (storage_error_surfaces (outcome R) (final R)) as H.
  { destruct (PreApproved_ends_surfacing m) as [E1 E2].
    destruct HR as [-> | ->].
    - unfold PreApproved1.PreApprovedGrant.
      destruct (continueAfterResponse cfg).
      + left. by intros ? ? ?%elem_of_nil.
      + apply (ends_runner _ _ _ _ E1). by intros ? ? ?%elem_of_nil.
    - unfold PreApproved2.PreApprovedGrant.
      apply (ends_runner _ _ _ _ E2). by intros ? ? ?%elem_of_nil. }
  destruct H as [Hclean|(l & c' & r' & e & Hev & Hl & Hr' & Ho & Hs)].
  - rewrite (Hclean c r Hin) in Herr. done.
  - rewrite Hev in Hin.
    apply elem_of_app in Hin as [Hin|Hin%list_elem_of_singleton].
    { rewrite (Hl c r Hin) in Herr. done. }
    injection Hin as -> ->. by exists e.
Qed.

Lemma early_not_write l e : Forall early l -> e ∈ l -> ~ is_write e.
Proof.
  intros Hl Hin. rewrite Forall_forall in Hl. apply Hl in Hin.
  destruct e as [[] ?| |]; simpl in *; tauto.
Qed.

Lemma prior_no_expired_refresh w : prior w -> no_expired_refresh w.
Proof. intros H tok r Hin. by apply early_not_refresh in Hin. Qed.

(** Splits a membership in a log the step has extended. *)
Ltac split_log H :=
  repeat (apply elem_of_app in H as [H|H%list_elem_of_singleton]).

(** An expired record cannot have passed the tests the path has taken. *)
Ltac refute_expired H :=
  destruct H as (? & ? & ? & ? & ? & Hcid & Hid & Hnull & Hnum & Hlt);
  apply (lt_date_before _ _ _ Hnum) in Hlt;
  simplify_eq/=; try congruence;
  match type of Hid with
  | prop ?v _ = _ => destruct v eqn:?; try discriminate Hid
  end;
  simpl in *;
  rewrite ?Hcid, ?Hid, ?Hnull, ?Hlt in *; simpl in *;
  rewrite ?String.eqb_refl in *; simpl in *;
  congruence.

(** The log grew by calls that are not [getRefreshToken], or by one whose
    record is not an expired one. *)
Ltac keep_no_expired Hprev :=
  try left; intros tok r0 Hin Hexp; simpl in *;
  try match goal with E : client _ = _ |- _ => rewrite E in * end;
  split_log Hin;
  first [ done
        | exact (early_not_refresh _ _ _ Hprev Hin)
        | exact (Hprev _ _ Hin Hexp)
        | by refute_expired Hexp ].

Ltac keep_prior Hprior :=
  first [ done
        | by apply early_snoc
        | left; apply prior_no_expired_refresh; first [done | by apply early_snoc] ].

Section RefreshExpiry.
Variable m : Model.

Lemma steps_before_dispatch_keep_prior :
  Forall (fun f => triple prior f (fun _ => prior) expired_refresh_rejected)
    [ Grant.extractCredentials; GrantBase.checkClient m; Grant.exposeClient;
      Grant.checkGrantTypeAllowed m ].
Proof.
  repeat apply Forall_cons_2; [..|apply Forall_nil_2];
    intros w Hprior; unfold expired_refresh_rejected, prior in *;
    step_paths; keep_prior Hprior.
Qed.

Lemma useRefreshTokenGrant_rejects_expired :
  triple prior (Grant.useRefreshTokenGrant m) (fun _ => no_expired_refresh)
    expired_refresh_rejected.
Proof.
  intros w Hprior. unfold expired_refresh_rejected, no_expired_refresh.
  step_paths; try keep_no_expired Hprior.
  right. split; [done|]. intros e Hin. split_log Hin.
  - by eapply early_not_write.
  - subst e. simpl. tauto.
Qed.

Lemma other_grants_read_no_refresh_token :
  Forall (fun f => triple prior f (fun _ => no_expired_refresh) expired_refresh_rejected)
    [ Grant.useExtendedGrant m; Grant.useAuthCodeGrant m;
      Grant.usePasswordGrant m; Grant.useClientCredentialsGrant m ].
Proof.
  repeat apply Forall_cons_2; [..|apply Forall_nil_2];
    intros w Hprior; unfold expired_refresh_rejected, no_expired_refresh;
    step_paths; keep_no_expired Hprior.
Qed.

Lemma checkGrantType_rejects_expired :
  triple prior (Grant.checkGrantType m) (fun _ => no_expired_refresh)
    expired_refresh_rejected.
Proof.
  pose proof other_grants_read_no_refresh_token as Hothers.
  apply Forall_cons_1 in Hothers as [Hext Hothers].
  apply Forall_cons_1 in Hothers as [Hcode Hothers].
  apply Forall_cons_1 in Hothers as [Hpass Hothers].
  apply Forall_cons_1 in Hothers as [Hcc _].
  intros w Hprior. unfold Grant.checkGrantType.
  destruct (grantType (this w)) as [g|];
    [|left; by apply prior_no_expired_refresh].
  destruct (Grant.matches_extension g && extendedGrant m); [by apply Hext|].
  destruct (String.eqb g "authorization_code"); [by apply Hcode|].
  destruct (String.eqb g "password"); [by apply Hpass|].
  destruct (String.eqb g "refresh_token");
    [by apply useRefreshTokenGrant_rejects_expired|].
  destruct (String.eqb g "client_credentials"); [by apply Hcc|].
  unfold fail. rewrite error_truthy. left. by apply prior_no_expired_refresh.
Qed.

Lemma steps_after_dispatch_keep_no_expired :
  Forall (fun f => triple no_expired_refresh f (fun _ => no_expired_refresh)
                     expired_refresh_rejected)
    [ Grant.exposeUser; GrantBase.generateAccessToken m;
      GrantBase.saveAccessToken m; GrantBase.generateRefreshToken m;
      GrantBase.saveRefreshToken m ].
Proof.
  repeat apply Forall_cons_2; [..|apply Forall_nil_2];
    intros w Hpost; unfold expired_refresh_rejected, no_expired_refresh in *;
    step_paths; keep_no_expired Hpost.
Qed.

Lemma sendResponse_keeps_no_expired :
  triple no_expired_refresh Grant.sendResponse
    (fun r w' => expired_refresh_rejected (Called VNull r) w')
    expired_refresh_rejected.
Proof.
  intros w Hpost; unfold expired_refresh_rejected, no_expired_refresh in *;
    step_paths; keep_no_expired Hpost.
Qed.

Lemma Grant_ends_rejecting_expired :
  ends prior (Grant.fns m) expired_refresh_rejected.
Proof.
  pose proof steps_before_dispatch_keep_prior as Hpre.
  apply Forall_cons_1 in Hpre as [H1 Hpre].
  apply Forall_cons_1 in Hpre as [H2 Hpre].
  apply Forall_cons_1 in Hpre as [H3 Hpre].
  apply Forall_cons_1 in Hpre as [H4 _].
  unfold Grant.fns.
  do 4 (eapply ends_cons; [done|eassumption|]).
  eapply ends_cons; [done|apply checkGrantType_rejects_expired|].
  apply (ends_uniform no_expired_refresh expired_refresh_rejected
           [ Grant.exposeUser; GrantBase.generateAccessToken m;
             GrantBase.saveAccessToken m; GrantBase.generateRefreshToken m;
             GrantBase.saveRefreshToken m ] Grant.sendResponse).
  - apply steps_after_dispatch_keep_no_expired.
  - apply sendResponse_keeps_no_expired.
Qed.
End RefreshExpiry.

Lemma Grant_steps_keep_config_and_now (m : Model) (cfg : Config) (clock : Z) :
  Forall (fun f => triple (fixed cfg clock) f (fun _ => fixed cfg clock)
                     (fun _ => fixed cfg clock))
    (Grant.fns m).
Proof.
  repeat apply Forall_cons_2; [..|apply Forall_nil_2];
    intros w [Hcfg Hnow]; unfold fixed; step_paths.
Qed.

Lemma Grant_keeps_config_and_now m cfg rq clock globals :
  fixed cfg clock (final (Grant.Grant m cfg rq clock globals)).
Proof.
  unfold Grant.Grant, Grant.lib_runner.
  apply (ends_runner (fixed cfg clock) (Grant.fns m) (fun _ => fixed cfg clock)).
  - apply ends_invariant; [apply Grant_steps_keep_config_and_now|done].
  - done.
Qed.

(** C8.  In the full pipeline, when [getRefreshToken] has answered without
    error with a record whose [clientId] is the authenticated client's and
    whose [expires] is not [null] and lies strictly before the context's
    [now], the final callback receives [invalid_grant] with the message
    "Refresh token has expired", and the storage model's [saveAccessToken],
    [saveRefreshToken] and [revokeRefreshToken] are never invoked. *)
Theorem expired_refresh_token_is_rejected_before_any_write
    (m : Model) (cfg : Config) (rq : Request) (clock : Z)
    (globals : gmap string JSValue)
    (tok : string) (r : Reply) (c : Client) (cid : string) (t : Z) :
  Storage (GetRefreshToken tok) r ∈ events (final (Grant.Grant m cfg rq clock globals)) ->
  truthy (r_err r) = false ->
  client (this (final (Grant.Grant m cfg rq clock globals))) = Some c ->
  clientId c = Some cid ->
  prop (r_val r) "clientId" = VStr cid ->
  is_null (prop (r_val r) "expires") = false ->
  to_number (prop (r_val r) "expires") = Some t ->
  t < clock ->
  outcome (Grant.Grant m cfg rq clock globals)
    = Called (error (VStr "invalid_grant") (VStr "Refresh token has expired") VUndefined)
        VUndefined
  /\ forall e, e ∈ events (final (Grant.Grant m cfg rq clock globals)) -> ~ is_write e.
Proof.
  intros Hin Herr Hc Hcid Hid Hnull Hnum Hlt.
  destruct (Grant_keeps_config_and_now m cfg rq clock globals) as [_ Hnow].
  pose proof (ends_runner _ _ _
    {| this := set_req (Some rq) (GrantBase.GrantBase cfg clock);
       receiver := globals; events := [] |}
    (Grant_ends_rejecting_expired m)) as H.
  unfold Grant.Grant, Grant.lib_runner in *.
  destruct H as [Hno|H]; [by apply Forall_nil_2| |done].
  exfalso. apply (Hno tok r Hin).
  split; [done|]. exists c, cid, t. split_and!; try done.
  by rewrite Hnow.
Qed.

Lemma expired_refresh_token_is_rejected_before_any_write_witness :
  outcome (Grant.Grant (sample_model stale_token (VStr "t0ken") (VStr "r3fresh"))
             (sample_config (LSeconds 3600) false) refresh_request 1000 ∅)
    = Called (error (VStr "invalid_grant") (VStr "Refresh token has expired") VUndefined)
        VUndefined
  /\ forall e,
       e ∈ events (final (Grant.Grant
                            (sample_model stale_token (VStr "t0ken") (VStr "r3fresh"))
                            (sample_config (LSeconds 3600) false) refresh_request 1000 ∅)) ->
       ~ is_write e.
Proof.
  apply (expired_refresh_token_is_rejected_before_any_write
           (sample_model stale_token (VStr "t0ken") (VStr "r3fresh"))
           (sample_config (LSeconds 3600) false) refresh_request 1000 ∅
           "old" (ok stale_token)
           {| clientId := Some "thom"; clientSecret := Some "nightworld" |} "thom" 999);
    [in_log|reflexivity..|lia].
Defined.

(** ** Authorization codes without expiry *)

Lemma early_not_code l code r :
  Forall early l -> Storage (GetAuthCode code) r ∉ l.
Proof.
  intros Hl Hin. rewrite Forall_forall in Hl. by apply Hl in Hin.
Qed.

Lemma prior_no_unexpiring_code w : prior_after_epoch w -> no_unexpiring_code w.
Proof.
  intros [Hnow H]. split; [done|]. intros code r Hin. by apply early_not_code in Hin.
Qed.

(** [null] counts as the epoch. *)
Lemma lt_date_null (now : Z) : 0 < now -> lt_date VNull now = Some true.
Proof. intros Hnow. by apply (lt_date_before _ 0). Qed.

(** A record with [expires: null] cannot have passed the expiry test. *)
Ltac refute_unexpiring H Hnow :=
  destruct H as (? & ? & ? & ? & Hcid & Hid & Hnull);
  simplify_eq/=; try congruence;
  match type of Hid with
  | prop ?v _ = _ => destruct v eqn:?; try discriminate Hid
  end;
  simpl in *;
  rewrite ?Hcid, ?Hid, ?Hnull in *;
  repeat match goal with
         | E : context [lt_date VNull ?n] |- _ => rewrite (lt_date_null n Hnow) in E
         end;
  simpl in *;
  rewrite ?String.eqb_refl in *; simpl in *;
  congruence.

Ltac keep_no_unexpiring Hnow Hprev :=
  try left; (split; [exact Hnow|]); intros code r0 Hin Hexp; simpl in *;
  try match goal with E : client _ = _ |- _ => rewrite E in * end;
  split_log Hin;
  first [ done
        | exact (early_not_code _ _ _ Hprev Hin)
        | exact (Hprev _ _ Hin Hexp)
        | by refute_unexpiring Hexp Hnow ].

Ltac keep_prior_after_epoch :=
  first [ done
        | split; [done|by apply early_snoc]
        | left; apply prior_no_unexpiring_code;
          first [done | split; [done|by apply early_snoc]] ].

Section CodeExpiry.
Variable m : Model.

Lemma steps_before_dispatch_keep_prior_after_epoch :
  Forall (fun f => triple prior_after_epoch f (fun _ => prior_after_epoch)
                     unexpiring_code_rejected)
    [ Grant.extractCredentials; GrantBase.checkClient m; Grant.exposeClient;
      Grant.checkGrantTypeAllowed m ].
Proof.
  repeat apply Forall_cons_2; [..|apply Forall_nil_2];
    intros w [Hnow Hprior];
    unfold unexpiring_code_rejected, prior_after_epoch, prior in *;
    step_paths; keep_prior_after_epoch.
Qed.

Lemma useAuthCodeGrant_rejects_unexpiring :
  triple prior_after_epoch (Grant.useAuthCodeGrant m) (fun _ => no_unexpiring_code)
    unexpiring_code_rejected.
Proof.
  intros w [Hnow Hprior]. unfold unexpiring_code_rejected, no_unexpiring_code.
  step_paths; try keep_no_unexpiring Hnow Hprior.
  by right.
Qed.

Lemma other_grants_read_no_code :
  Forall (fun f => triple prior_after_epoch f (fun _ => no_unexpiring_code)
                     unexpiring_code_rejected)
    [ Grant.useExtendedGrant m; Grant.useRefreshTokenGrant m;
      Grant.usePasswordGrant m; Grant.useClientCredentialsGrant m ].
Proof.
  repeat apply Forall_cons_2; [..|apply Forall_nil_2];
    intros w [Hnow Hprior]; unfold unexpiring_code_rejected, no_unexpiring_code;
    step_paths; keep_no_unexpiring Hnow Hprior.
Qed.

Lemma checkGrantType_rejects_unexpiring :
  triple prior_after_epoch (Grant.checkGrantType m) (fun _ => no_unexpiring_code)
    unexpiring_code_rejected.
Proof.
  pose proof other_grants_read_no_code as Hothers.
  apply Forall_cons_1 in Hothers as [Hext Hothers].
  apply Forall_cons_1 in Hothers as [Hrefresh Hothers].
  apply Forall_cons_1 in Hothers as [Hpass Hothers].
  apply Forall_cons_1 in Hothers as [Hcc _].
  intros w Hprior. unfold Grant.checkGrantType.
  destruct (grantType (this w)) as [g|];
    [|left; by apply prior_no_unexpiring_code].
  destruct (Grant.matches_extension g && extendedGrant m); [by apply Hext|].
  destruct (String.eqb g "authorization_code");
    [by apply useAuthCodeGrant_rejects_unexpiring|].
  destruct (String.eqb g "password"); [by apply Hpass|].
  destruct (String.eqb g "refresh_token"); [by apply Hrefresh|].
  destruct (String.eqb g "client_credentials"); [by apply Hcc|].
  unfold fail. rewrite error_truthy. left. by apply prior_no_unexpiring_code.
Qed.

Lemma steps_after_dispatch_keep_no_unexpiring :
  Forall (fun f => triple no_unexpiring_code f (fun _ => no_unexpiring_code)
                     unexpiring_code_rejected)
    [ Grant.exposeUser; GrantBase.generateAccessToken m;
      GrantBase.saveAccessToken m; GrantBase.generateRefreshToken m;
      GrantBase.saveRefreshToken m ].
Proof.
  repeat apply Forall_cons_2; [..|apply Forall_nil_2];
    intros w [Hnow Hpost]; unfold unexpiring_code_rejected, no_unexpiring_code in *;
    step_paths; keep_no_unexpiring Hnow Hpost.
Qed.

Lemma sendResponse_keeps_no_unexpiring :
  triple no_unexpiring_code Grant.sendResponse
    (fun r w' => unexpiring_code_rejected (Called VNull r) w')
    unexpiring_code_rejected.
Proof.
  intros w [Hnow Hpost]; unfold unexpiring_code_rejected, no_unexpiring_code in *;
    step_paths; keep_no_unexpiring Hnow Hpost.
Qed.

Lemma Grant_ends_rejecting_unexpiring :
  ends prior_after_epoch (Grant.fns m) unexpiring_code_rejected.
Proof.
  pose proof steps_before_dispatch_keep_prior_after_epoch as Hpre.
  apply Forall_cons_1 in Hpre as [H1 Hpre].
  apply Forall_cons_1 in Hpre as [H2 Hpre].
  apply Forall_cons_1 in Hpre as [H3 Hpre].
  apply Forall_cons_1 in Hpre as [H4 _].
  unfold Grant.fns.
  do 4 (eapply ends_cons; [done|eassumption|]).
  eapply ends_cons; [done|apply checkGrantType_rejects_unexpiring|].
  apply (ends_uniform no_unexpiring_code unexpiring_code_rejected
           [ Grant.exposeUser; GrantBase.generateAccessToken m;
             GrantBase.saveAccessToken m; GrantBase.generateRefreshToken m;
             GrantBase.saveRefreshToken m ] Grant.sendResponse).
  - apply steps_after_dispatch_keep_no_unexpiring.
  - apply sendResponse_keeps_no_unexpiring.
Qed.
End CodeExpiry.

(** C9.  With a clock after the epoch: in the full pipeline, when
    [getAuthCode] has answered without error with a record whose [clientId]
    is the authenticated client's and whose [expires] is [null], the final
    callback receives [invalid_grant] with the message "Code has expired"
    ([null < now] holds, there is no null guard).  The refresh-token branch
    differs: for a record of the right client whose [expires] is [null] and
    that carries a user or a userId, it calls back without error and sets
    the user: the record's user, or an object with the record's userId as
    its id when the record has no user (provided the revocation, when the
    model has one, reports no error). *)
Theorem null_expiry_expires_code_but_not_refresh_token
    (m : Model) (cfg : Config) (rq : Request) (clock : Z)
    (globals : gmap string JSValue) :
  0 < clock ->
  (forall code r c cid,
     Storage (GetAuthCode code) r ∈ events (final (Grant.Grant m cfg rq clock globals)) ->
     truthy (r_err r) = false ->
     client (this (final (Grant.Grant m cfg rq clock globals))) = Some c ->
     clientId c = Some cid ->
     prop (r_val r) "clientId" = VStr cid ->
     prop (r_val r) "expires" = VNull ->
     outcome (Grant.Grant m cfg rq clock globals)
       = Called (error (VStr "invalid_grant") (VStr "Code has expired") VUndefined)
           VUndefined)
  /\ (forall w rq' fields tok c cid,
        req (this w) = Some rq' -> payload rq' = Some fields ->
        fields !! "refresh_token" = Some tok -> tok <> EmptyString ->
        client (this w) = Some c -> clientId c = Some cid ->
        let r := respond m (events w) (GetRefreshToken tok) in
        truthy (r_err r) = false ->
        prop (r_val r) "clientId" = VStr cid ->
        prop (r_val r) "expires" = VNull ->
        truthy (prop (r_val r) "user") || truthy (prop (r_val r) "userId") = true ->
        (revokeRefreshToken m = true ->
         truthy (r_err (respond m (events w ++ [Storage (GetRefreshToken tok) r])
                          (RevokeRefreshToken tok))) = false) ->
        (Grant.useRefreshTokenGrant m w).1 = done_ok
        /\ user (this (Grant.useRefreshTokenGrant m w).2)
           = if truthy (prop (r_val r) "user") then prop (r_val r) "user"
             else VObj {["id" := prop (r_val r) "userId"]}).
Proof.
  intros Hclock. split.
  - intros code r c cid Hin Herr Hc Hcid Hid Hnull.
    destruct (Grant_keeps_config_and_now m cfg rq clock globals) as [_ Hnow].
    pose proof (ends_runner _ _ _
      {| this := set_req (Some rq) (GrantBase.GrantBase cfg clock);
         receiver := globals; events := [] |}
      (Grant_ends_rejecting_unexpiring m)) as H.
    unfold Grant.Grant, Grant.lib_runner in *.
    destruct H as [[_ Hno]|H]; [split; [done|by apply Forall_nil_2]| |done].
    exfalso. apply (Hno code r Hin).
    split; [done|]. by exists c, cid.
  - intros w rq' fields tok c cid Hrq Hfields Htok Hne Hc Hcid r Herr Hid Hnull Huser Hrevoke.
    assert (truthy (VStr tok) = true) as Ht by (simpl; by destruct tok).
    unfold Grant.useRefreshTokenGrant, Grant.field.
    rewrite Hrq. simpl. rewrite Hfields. simpl. rewrite Htok. simpl in *.
    rewrite Ht. simpl. unfold call. simpl. fold r. rewrite Herr, Hc. simpl.
    destruct (r_val r) eqn:Hrec; try discriminate Hid.
    rewrite Hcid. simpl in *. rewrite Hid, Hnull. simpl. rewrite String.eqb_refl. simpl.
    unfold js_or.
    destruct (truthy (default VUndefined (props !! "user"))) eqn:Hu; simpl in *;
      [|rewrite Huser; simpl];
      (destruct (revokeRefreshToken m); [simpl; by rewrite Hrevoke|done]).
Qed.

Lemma null_expiry_expires_code_but_not_refresh_token_witness :
  outcome (Grant.Grant (sample_model unexpiring_record (VStr "t0ken") (VStr "r3fresh"))
             (sample_config (LSeconds 3600) false) code_request 1000 ∅)
    = Called (error (VStr "invalid_grant") (VStr "Code has expired") VUndefined)
        VUndefined.
Proof.
  apply (proj1 (null_expiry_expires_code_but_not_refresh_token
                  (sample_model unexpiring_record (VStr "t0ken") (VStr "r3fresh"))
                  (sample_config (LSeconds 3600) false) code_request 1000 ∅
                  ltac:(lia))
           "c0de" (ok unexpiring_record)
           {| clientId := Some "thom"; clientSecret := Some "nightworld" |} "thom");
    [in_log|reflexivity..].
Defined.

(** The same record presented as a refresh token: the run goes through to
    the response. *)
Lemma unexpiring_refresh_token_is_accepted :
  let R := Grant.Grant (sample_model unexpiring_record (VStr "t0ken") (VStr "r3fresh"))
             (sample_config (LSeconds 3600) false) refresh_request 1000 ∅ in
  (ran R).*1 = seq 0 11 /\ outcome R = NotCalled
  /\ user (this (final R)) = VObj {["id" := VNum 7]}.
Proof. split_and!; reflexivity. Qed.

(** ** The user principal *)

(** C2 as stated fails for the password grant: [getUser] answers with a
    record that has no [id]; the dispatch succeeds, the token is generated
    and saved for that user, and the run reaches the response. *)
Lemma password_user_without_id_reaches_token_steps :
  let nameless := VObj {["name" := VStr "bob"]} in
  let R := Grant.Grant (sample_model nameless (VStr "t0ken") (VStr "r3fresh"))
             (sample_config (LSeconds 3600) false) password_request 1000 ∅ in
  prop (user (this (final R))) "id" = VUndefined
  /\ events (final R) !! 2%nat = Some (Storage (GetUser "bob" "hunter2") (ok nameless))
  /\ events (final R) !! 3%nat = Some (Token AccessTokenKind (ok (VStr "t0ken")))
  /\ events (final R) !! 4%nat
     = Some (Storage (SaveAccessToken (VStr "t0ken") (Some "thom")
                        (VDate (Some 3601000)) nameless (Some "password"))
               (ok VUndefined))
  /\ (ran R).*1 = seq 0 11.
Proof. split_and!; reflexivity. Qed.

(** C2, amended.  When the dispatch step calls back without error: for an
    extension grant the user's [id] is not [undefined]; for
    [authorization_code] it is truthy; for [password] and
    [client_credentials] the user is the truthy record that [getUser] or
    [getUserFromClient] returned, whatever it contains; for [refresh_token]
    it is the record's [user] or else [{id: userId}], one of the two being
    truthy.  An authorization-code or refresh-token record of the right
    client that is not expired (its [expires], compared as a number, is not
    before the clock reading; for a refresh token [null] will do as well)
    and carries neither [user] nor [userId] makes the step fail with
    [server_error]. *)
Theorem dispatch_resolves_user_by_grant_type (m : Model) (w : World) (g : string) :
  grantType (this w) = Some g ->
  (forall e r w',
     Grant.checkGrantType m w = (Done e r, w') -> truthy e = false ->
     if Grant.matches_extension g && extendedGrant m
     then is_undefined (prop (user (this w')) "id") = false
     else if String.eqb g "authorization_code"
     then truthy (prop (user (this w')) "id") = true
     else if String.eqb g "password"
     then exists u p,
            user (this w') = r_val (respond m (events w) (GetUser u p))
            /\ truthy (user (this w')) = true
     else if String.eqb g "refresh_token"
     then exists tok,
            user (this w') =
              js_or (prop (r_val (respond m (events w) (GetRefreshToken tok))) "user")
                    (VObj {["id" := prop (r_val (respond m (events w)
                                                   (GetRefreshToken tok))) "userId"]})
            /\ (truthy (prop (r_val (respond m (events w) (GetRefreshToken tok))) "user")
                || truthy (prop (r_val (respond m (events w) (GetRefreshToken tok)))
                             "userId")) = true
     else exists id secret,
            user (this w') = r_val (respond m (events w) (GetUserFromClient id secret))
            /\ truthy (user (this w')) = true)
  /\ (forall rq fields code c,
        req (this w) = Some rq -> payload rq = Some fields ->
        fields !! "code" = Some code -> code <> EmptyString ->
        client (this w) = Some c ->
        let r := respond m (events w) (GetAuthCode code) in
        truthy (r_err r) = false -> truthy (r_val r) = true ->
        strict_eq (prop (r_val r) "clientId") (of_param (clientId c)) = true ->
        lt_date (prop (r_val r) "expires") (now (this w)) = Some false ->
        truthy (prop (r_val r) "user") = false ->
        truthy (prop (r_val r) "userId") = false ->
        (Grant.useAuthCodeGrant m w).1 =
          Done (error (VStr "server_error") (VBool false)
                  (VStr "No user/userId parameter returned from getauthCode"))
            VUndefined)
  /\ (forall rq fields tok c,
        req (this w) = Some rq -> payload rq = Some fields ->
        fields !! "refresh_token" = Some tok -> tok <> EmptyString ->
        client (this w) = Some c ->
        let r := respond m (events w) (GetRefreshToken tok) in
        truthy (r_err r) = false -> truthy (r_val r) = true ->
        strict_eq (prop (r_val r) "clientId") (of_param (clientId c)) = true ->
        is_null (prop (r_val r) "expires") = true
        \/ lt_date (prop (r_val r) "expires") (now (this w)) = Some false ->
        truthy (prop (r_val r) "user") = false ->
        truthy (prop (r_val r) "userId") = false ->
        (Grant.useRefreshTokenGrant m w).1 =
          Done (error (VStr "server_error") (VBool false)
                  (VStr "No user/userId parameter returned from getRefreshToken"))
            VUndefined).
Proof.
  intros Hg. split_and!.
  - intros e r w' Hrun He. unfold Grant.checkGrantType in Hrun. rewrite Hg in Hrun.
    repeat case_match; revert Hrun; step_paths; intros; simplify_eq/=;
      rewrite ?error_truthy in *; try done;
      repeat match goal with
             | H : _ || _ = false |- _ => apply orb_false_elim in H as [? ?]
             | H : negb _ = false |- _ => apply negb_false_iff in H
             end;
      try done.
    all: first
      [ by eexists _, _
      | eexists; split; [reflexivity|];
        repeat match goal with
               | H : negb _ && negb _ = false |- _ => revert H
               end;
        by repeat (destruct (truthy _)) ].
  - intros rq fields code c Hrq Hfields Hcode Hne Hc r Herr Hrec Hid Hexp Huser Huid.
    assert (truthy (VStr code) = true) as Ht by (simpl; by destruct code).
    unfold Grant.useAuthCodeGrant, Grant.field.
    rewrite Hrq. simpl. rewrite Hfields. simpl. rewrite Hcode. simpl in *.
    rewrite Ht. simpl. unfold call. simpl. fold r. rewrite Herr, Hc. simpl.
    rewrite Hrec, Hid, Hexp. simpl.
    unfold js_or. rewrite Huser.
    change (prop (VObj {["id" := prop (r_val r) "userId"]}) "id")
      with (prop (r_val r) "userId").
    by rewrite Huid.
  - intros rq fields tok c Hrq Hfields Htok Hne Hc r Herr Hrec Hid Hexp Huser Huid.
    assert (truthy (VStr tok) = true) as Ht by (simpl; by destruct tok).
    unfold Grant.useRefreshTokenGrant, Grant.field.
    rewrite Hrq. simpl. rewrite Hfields. simpl. rewrite Htok. simpl in *.
    rewrite Ht. simpl. unfold call. simpl. fold r. rewrite Herr, Hc. simpl.
    rewrite Hrec, Hid. simpl.
    destruct Hexp as [-> | ->]; simpl; [|destruct (is_null _); simpl];
      by rewrite Huser, Huid.
Qed.

Lemma dispatch_resolves_user_by_grant_type_witness :
  let m := sample_model (VObj {["id" := VNum 7]}) (VStr "t0ken") (VStr "r3fresh") in
  let w := saving (LSeconds 3600) VUndefined VUndefined in
  exists u p,
    user (this (Grant.checkGrantType m w).2) = r_val (respond m (events w) (GetUser u p))
    /\ truthy (user (this (Grant.checkGrantType m w).2)) = true.
Proof.
  exact (proj1 (dispatch_resolves_user_by_grant_type
                  (sample_model (VObj {["id" := VNum 7]}) (VStr "t0ken") (VStr "r3fresh"))
                  (saving (LSeconds 3600) VUndefined VUndefined) "password" eq_refl)
           VUndefined VUndefined _ eq_refl eq_refl).
Defined.


(** ** The runner, when a step does not call back *)

(** X1.  On an empty list the runner throws a TypeError and calls nothing.
    A step that returns without calling its callback leaves the final
    callback uncalled, a step that throws leaves its exception uncaught; in
    both cases no later step runs. *)
Theorem runner_stalls_without_callback {W : Type} (fns : list (Step W)) (w : W) :
  (fns = [] -> runner fns w = mkRun (Uncaught TypeError) [] w)
  /\ (forall i, (i, Pending) ∈ ran (runner fns w) ->
        outcome (runner fns w) = NotCalled
        /\ forall j c, (j, c) ∈ ran (runner fns w) -> (j <= i)%nat)
  /\ (forall i x, (i, Threw x) ∈ ran (runner fns w) ->
        outcome (runner fns w) = Uncaught x
        /\ forall j c, (j, c) ∈ ran (runner fns w) -> (j <= i)%nat).
Proof.
  rewrite runner_run_list.
  destruct (decide (fns = [])) as [->|Hne].
  { split_and!; [done|..]; simpl; intros; by match goal with H : _ ∈ [] |- _ => apply elem_of_nil in H end. }
  destruct (run_list_shape fns 0 [] w Hne) as (k & c & ok & Hran & Hk & Hidx & Hok & Hc).
  rewrite Hran. simpl in *.
  assert (forall j c', (j, c') ∈ ok ++ [(k, c)] -> (j <= k)%nat) as Hle.
  { intros j c' [Hj|Hj%list_elem_of_singleton]%elem_of_app.
    - apply (list_elem_of_fmap_2 fst) in Hj. rewrite Hidx in Hj.
      apply elem_of_seq in Hj. simpl in Hj. lia.
    - injection Hj as -> _. lia. }
  split_and!; [done|..].
  - intros i Hin.
    apply elem_of_app in Hin as [Hin|Hin%list_elem_of_singleton].
    { destruct (Hok _ Hin) as (e' & r' & Heq & _). done. }
    injection Hin as -> <-. by split.
  - intros i x Hin.
    apply elem_of_app in Hin as [Hin|Hin%list_elem_of_singleton].
    { destruct (Hok _ Hin) as (e' & r' & Heq & _). done. }
    injection Hin as -> <-. by split.
Qed.

(** Three steps over a counter: the second one never calls back. *)
Lemma runner_stalls_without_callback_witness :
  outcome (runner [ (fun n : nat => (done_ok, S n));
                    (fun n : nat => (Pending, S n));
                    (fun n : nat => (done_ok, S n)) ] 0%nat) = NotCalled
  /\ forall j c,
       (j, c) ∈ ran (runner [ (fun n : nat => (done_ok, S n));
                              (fun n : nat => (Pending, S n));
                              (fun n : nat => (done_ok, S n)) ] 0%nat) ->
       (j <= 1)%nat.
Proof.
  apply (proj1 (proj2 (runner_stalls_without_callback
                         [ (fun n : nat => (done_ok, S n));
                           (fun n : nat => (Pending, S n));
                           (fun n : nat => (done_ok, S n)) ] 0%nat)) 1%nat).
  in_log.
Defined.

(** ** The extension-grant pattern *)

Lemma scheme_rest_spec (s : string) : forall seen,
  Grant.scheme_rest seen s = true <->
  exists run rest,
    s = run +:+ String ":"%char rest
    /\ all_chars Grant.is_scheme_char run = true
    /\ (seen = true \/ run <> EmptyString).
Proof.
  induction s as [|c s IH]; intros seen; simpl.
  - split; [done|]. intros (run & rest & Heq & _). by destruct run.
  - destruct (Grant.is_scheme_char c) eqn:Hc.
    + rewrite IH. split.
      * intros (run & rest & -> & Hall & _).
        exists (String c run), rest. simpl. rewrite Hc, Hall. split_and!; [done|done|by right].
      * intros (run & rest & Heq & Hall & Hseen).
        destruct run as [|c' run]; simpl in *.
        { injection Heq as -> _. done. }
        injection Heq as -> ->. exists run, rest.
        apply andb_prop in Hall as [_ Hall]. split_and!; [done|done|by left].
    + split.
      * intros [-> Hcolon]%andb_prop. apply Ascii.eqb_eq in Hcolon as ->.
        exists EmptyString, s. split_and!; [done|done|by left].
      * intros (run & rest & Heq & Hall & Hseen).
        destruct run as [|c' run]; simpl in *.
        -- injection Heq as -> _. destruct Hseen as [->|]; [|done]. done.
        -- injection Heq as -> _. apply andb_prop in Hall as [Hc' _]. congruence.
Qed.

(** X2.  A grant type is matched by [/^[a-zA-Z][a-zA-Z0-9+.-]+:/] exactly
    when it is a letter, then a non-empty run of letters, digits, [+], [.]
    and [-], then a colon, then anything. *)
Theorem matches_extension_spec (g : string) :
  Grant.matches_extension g = true <->
  exists c run rest,
    g = String c (run +:+ String ":"%char rest)
    /\ Grant.is_letter c = true
    /\ run <> EmptyString
    /\ all_chars Grant.is_scheme_char run = true.
Proof.
  destruct g as [|c s]; simpl.
  - split; [done|]. by intros (? & ? & ? & ? & _).
  - rewrite andb_true_iff, scheme_rest_spec. split.
    + intros (Hc & run & rest & -> & Hall & [?|Hne]); [done|].
      by exists c, run, rest.
    + intros (c' & run & rest & Heq & Hc & Hne & Hall). injection Heq as <- ->.
      split; [done|]. exists run, rest. split_and!; [done|done|by right].
Qed.

(** The built-in grant types have no such prefix; a URN has. *)
Lemma builtin_grant_types_are_no_extensions :
  Forall (fun g => Grant.matches_extension g = false)
    ["authorization_code"; "password"; "refresh_token"; "client_credentials"]
  /\ Grant.matches_extension "urn:custom:foo" = true
  /\ Grant.matches_extension "a:b" = false.
Proof. split_and!; [by repeat constructor|done|done]. Qed.

(** ** Triples for the dispatch step *)

(** A triple for [checkGrantType] from triples for the grants it
    delegates to. *)
Lemma checkGrantType_triple (m : Model) (P M : World -> Prop)
    (Q : Outcome -> World -> Prop) :
  triple P (Grant.useExtendedGrant m) (fun _ => M) Q ->
  triple P (Grant.useAuthCodeGrant m) (fun _ => M) Q ->
  triple P (Grant.usePasswordGrant m) (fun _ => M) Q ->
  triple P (Grant.useRefreshTokenGrant m) (fun _ => M) Q ->
  triple P (Grant.useClientCredentialsGrant m) (fun _ => M) Q ->
  (forall w, P w ->
     Q (Called (error (VStr "invalid_request")
                  (VStr "Invalid grant_type parameter or parameter missing")
                  VUndefined) VUndefined) w) ->
  (forall w, P w -> Q (Uncaught TypeError) w) ->
  triple P (Grant.checkGrantType m) (fun _ => M) Q.
Proof.
  intros Hext Hcode Hpass Hrefresh Hcc Hdefault Hthrow w HP.
  unfold Grant.checkGrantType.
  destruct (grantType (this w)) as [g|]; [|by apply Hthrow].
  destruct (Grant.matches_extension g && extendedGrant m); [by apply Hext|].
  destruct (String.eqb g "authorization_code"); [by apply Hcode|].
  destruct (String.eqb g "password"); [by apply Hpass|].
  destruct (String.eqb g "refresh_token"); [by apply Hrefresh|].
  destruct (String.eqb g "client_credentials"); [by apply Hcc|].
  unfold fail. rewrite error_truthy. by apply Hdefault.
Qed.

(** One invariant along the whole pipeline, from triples for the steps
    and for the grants. *)
Lemma Grant_ends_uniform (m : Model) (I : World -> Prop)
    (Q : Outcome -> World -> Prop) :
  Forall (fun f => triple I f (fun _ => I) Q)
    [ Grant.extractCredentials; GrantBase.checkClient m; Grant.exposeClient;
      Grant.checkGrantTypeAllowed m; Grant.exposeUser;
      GrantBase.generateAccessToken m; GrantBase.saveAccessToken m;
      GrantBase.generateRefreshToken m; GrantBase.saveRefreshToken m ] ->
  Forall (fun f => triple I f (fun _ => I) Q)
    [ Grant.useExtendedGrant m; Grant.useAuthCodeGrant m;
      Grant.usePasswordGrant m; Grant.useRefreshTokenGrant m;
      Grant.useClientCredentialsGrant m ] ->
  (forall o w, I w -> Q o w) ->
  triple I Grant.sendResponse (fun r w' => Q (Called VNull r) w') Q ->
  ends I (Grant.fns m) Q.
Proof.
  intros Hsteps Hgrants Hstop Hlast.
  apply Forall_cons_1 in Hsteps as [H1 Hsteps].
  apply Forall_cons_1 in Hsteps as [H2 Hsteps].
  apply Forall_cons_1 in Hsteps as [H3 Hsteps].
  apply Forall_cons_1 in Hsteps as [H4 Hsteps].
  apply Forall_cons_1 in Hgrants as [G1 Hgrants].
  apply Forall_cons_1 in Hgrants as [G2 Hgrants].
  apply Forall_cons_1 in Hgrants as [G3 Hgrants].
  apply Forall_cons_1 in Hgrants as [G4 Hgrants].
  apply Forall_cons_1 in Hgrants as [G5 _].
  unfold Grant.fns.
  do 4 (eapply ends_cons; [done|eassumption|]).
  eapply ends_cons; [done|apply checkGrantType_triple; by eauto|].
  by apply (ends_uniform I Q
              [ Grant.exposeUser; GrantBase.generateAccessToken m;
                GrantBase.saveAccessToken m; GrantBase.generateRefreshToken m;
                GrantBase.saveRefreshToken m ] Grant.sendResponse).
Qed.

(** The same with a precondition of its own for the first step. *)
Lemma Grant_ends_through (m : Model) (P I : World -> Prop)
    (Q : Outcome -> World -> Prop) :
  triple P Grant.extractCredentials (fun _ => I) Q ->
  Forall (fun f => triple I f (fun _ => I) Q)
    [ GrantBase.checkClient m; Grant.exposeClient;
      Grant.checkGrantTypeAllowed m; Grant.checkGrantType m; Grant.exposeUser;
      GrantBase.generateAccessToken m; GrantBase.saveAccessToken m;
      GrantBase.generateRefreshToken m; GrantBase.saveRefreshToken m ] ->
  triple I Grant.sendResponse (fun r w' => Q (Called VNull r) w') Q ->
  ends P (Grant.fns m) Q.
Proof.
  intros Hfirst Hsteps Hlast. unfold Grant.fns.
  eapply ends_cons; [done|exact Hfirst|].
  by apply (ends_uniform I Q
              [ GrantBase.checkClient m; Grant.exposeClient;
                Grant.checkGrantTypeAllowed m; Grant.checkGrantType m;
                Grant.exposeUser; GrantBase.generateAccessToken m;
                GrantBase.saveAccessToken m; GrantBase.generateRefreshToken m;
                GrantBase.saveRefreshToken m ] Grant.sendResponse).
Qed.

(** A triple for [checkGrantType] in which each grant knows the grant type
    it was chosen for. *)
Lemma checkGrantType_dispatch (m : Model) (P M : World -> Prop)
    (Q : Outcome -> World -> Prop) :
  triple (fun w => P w /\ extendedGrant m = true
                   /\ exists g, grantType (this w) = Some g
                                /\ Grant.matches_extension g = true)
    (Grant.useExtendedGrant m) (fun _ => M) Q ->
  triple (fun w => P w /\ grantType (this w) = Some "authorization_code")
    (Grant.useAuthCodeGrant m) (fun _ => M) Q ->
  triple (fun w => P w /\ grantType (this w) = Some "password")
    (Grant.usePasswordGrant m) (fun _ => M) Q ->
  triple (fun w => P w /\ grantType (this w) = Some "refresh_token")
    (Grant.useRefreshTokenGrant m) (fun _ => M) Q ->
  triple (fun w => P w /\ grantType (this w) = Some "client_credentials")
    (Grant.useClientCredentialsGrant m) (fun _ => M) Q ->
  (forall o w, P w -> Q o w) ->
  triple P (Grant.checkGrantType m) (fun _ => M) Q.
Proof.
  intros Hext Hcode Hpass Hrefresh Hcc Hstop w HP.
  unfold Grant.checkGrantType.
  destruct (grantType (this w)) as [g|] eqn:Hg; [|by apply Hstop].
  destruct (Grant.matches_extension g && extendedGrant m) eqn:Hx.
  { apply andb_prop in Hx as [? ?]. apply Hext. by eauto. }
  destruct (String.eqb g "authorization_code") eqn:E1.
  { apply String.eqb_eq in E1 as ->. by apply Hcode. }
  destruct (String.eqb g "password") eqn:E2.
  { apply String.eqb_eq in E2 as ->. by apply Hpass. }
  destruct (String.eqb g "refresh_token") eqn:E3.
  { apply String.eqb_eq in E3 as ->. by apply Hrefresh. }
  destruct (String.eqb g "client_credentials") eqn:E4.
  { apply String.eqb_eq in E4 as ->. by apply Hcc. }
  unfold fail. rewrite error_truthy. by apply Hstop.
Qed.

(** ** The order of the calls *)

Lemma in_order_weaken k k' l : in_order k l -> (k <= k')%nat -> in_order k' l.
Proof.
  intros [Hs Hb] Hle. split; [done|].
  eapply Forall_impl; [exact Hb|]. simpl. intros; lia.
Qed.

Lemma in_order_snoc k k' l e :
  in_order k l -> (k <= phase e)%nat -> (phase e < k')%nat -> in_order k' (l ++ [e]).
Proof.
  intros [Hs Hb] Hle Hlt. split.
  - rewrite fmap_app. apply StronglySorted_app_2; [|done|repeat constructor].
    intros x1 x2 (e1 & -> & Hin)%list_elem_of_fmap ->%list_elem_of_singleton.
    rewrite Forall_forall in Hb. specialize (Hb e1 Hin). simpl in Hb. lia.
  - apply Forall_app. split.
    + eapply Forall_impl; [exact Hb|]. simpl. intros; lia.
    + by apply Forall_singleton.
Qed.

Lemma StronglySorted_lookup {A : Type} (R : relation A) (l : list A) i j x y :
  StronglySorted R l -> (i < j)%nat -> l !! i = Some x -> l !! j = Some y -> R x y.
Proof.
  intros Hs Hij Hi Hj. rewrite <- (take_drop j l) in Hs.
  apply (StronglySorted_app_1_elem_of R _ _ x y Hs).
  - apply list_elem_of_lookup. exists i. by rewrite lookup_take_lt.
  - apply list_elem_of_lookup. exists 0%nat. by rewrite lookup_drop, Nat.add_0_r.
Qed.

Lemma in_order_snoc_exact k l e :
  in_order k l -> (k <= phase e)%nat -> in_order (S (phase e)) (l ++ [e]).
Proof. intros H Hle. apply (in_order_snoc k); [done|done|lia]. Qed.

(** The log stays in order: the step added nothing, or calls of later
    phases. *)
Ltac order_exact :=
  first [ eassumption
        | eapply in_order_snoc_exact; [order_exact|simpl; lia] ].

Ltac keep_in_order :=
  simpl; eapply in_order_weaken; [order_exact|simpl; lia].

Section CallOrder.
Variable m : Model.

Lemma Grant_steps_keep_order :
  triple (fun w => in_order 0 (events w)) Grant.extractCredentials
    (fun _ w => in_order 0 (events w)) (fun _ w => in_order 9 (events w))
  /\ triple (fun w => in_order 0 (events w)) (GrantBase.checkClient m)
       (fun _ w => in_order 1 (events w)) (fun _ w => in_order 9 (events w))
  /\ triple (fun w => in_order 1 (events w)) Grant.exposeClient
       (fun _ w => in_order 1 (events w)) (fun _ w => in_order 9 (events w))
  /\ triple (fun w => in_order 1 (events w)) (Grant.checkGrantTypeAllowed m)
       (fun _ w => in_order 2 (events w)) (fun _ w => in_order 9 (events w))
  /\ triple (fun w => in_order 4 (events w)) Grant.exposeUser
       (fun _ w => in_order 4 (events w)) (fun _ w => in_order 9 (events w))
  /\ triple (fun w => in_order 4 (events w)) (GrantBase.generateAccessToken m)
       (fun _ w => in_order 5 (events w)) (fun _ w => in_order 9 (events w))
  /\ triple (fun w => in_order 5 (events w)) (GrantBase.saveAccessToken m)
       (fun _ w => in_order 6 (events w)) (fun _ w => in_order 9 (events w))
  /\ triple (fun w => in_order 6 (events w)) (GrantBase.generateRefreshToken m)
       (fun _ w => in_order 7 (events w)) (fun _ w => in_order 9 (events w))
  /\ triple (fun w => in_order 7 (events w)) (GrantBase.saveRefreshToken m)
       (fun _ w => in_order 8 (events w)) (fun _ w => in_order 9 (events w))
  /\ triple (fun w => in_order 8 (events w)) Grant.sendResponse
       (fun _ w => in_order 9 (events w)) (fun _ w => in_order 9 (events w)).
Proof.
  split_and!; intros w Hord; step_paths; keep_in_order.
Qed.

Lemma Grant_dispatch_keeps_order :
  triple (fun w => in_order 2 (events w)) (Grant.checkGrantType m)
    (fun _ w => in_order 4 (events w)) (fun _ w => in_order 9 (events w)).
Proof.
  apply checkGrantType_triple;
    try (intros w Hord; step_paths; keep_in_order);
    intros; keep_in_order.
Qed.

Lemma Grant_ends_in_order :
  ends (fun w => in_order 0 (events w)) (Grant.fns m)
    (fun _ w => in_order 9 (events w)).
Proof.
  destruct Grant_steps_keep_order
    as (H1 & H2 & H3 & H4 & H6 & H7 & H8 & H9 & H10 & H11).
  unfold Grant.fns.
  do 4 (eapply ends_cons; [done|eassumption|]).
  eapply ends_cons; [done|apply Grant_dispatch_keeps_order|].
  do 5 (eapply ends_cons; [done|eassumption|]).
  by apply ends_last.
Qed.
End CallOrder.

(** X3.  In every run of the full pipeline the collaborators are invoked
    in the order of the protocol, each at most once: [getClient],
    [grantTypeAllowed], the lookup of the grant, [revokeRefreshToken], the
    access-token generator, [saveAccessToken], the refresh-token generator,
    [saveRefreshToken], the response. *)
Theorem Grant_calls_in_protocol_order
    (m : Model) (cfg : Config) (rq : Request) (clock : Z)
    (globals : gmap string JSValue) (i j : nat) (e1 e2 : Event) :
  (i < j)%nat ->
  events (final (Grant.Grant m cfg rq clock globals)) !! i = Some e1 ->
  events (final (Grant.Grant m cfg rq clock globals)) !! j = Some e2 ->
  (phase e1 < phase e2)%nat.
Proof.
  intros Hij Hi Hj.
  assert (in_order 9 (events (final (Grant.Grant m cfg rq clock globals)))) as [Hs _].
  { unfold Grant.Grant, Grant.lib_runner.
    apply (ends_runner _ _ _ _ (Grant_ends_in_order m)).
    split; simpl; constructor. }
  apply (StronglySorted_lookup lt (phase <$> events (final (Grant.Grant m cfg rq clock globals)))
           i j); [done|done|..]; by rewrite list_lookup_fmap, ?Hi, ?Hj.
Qed.

Lemma Grant_calls_in_protocol_order_witness :
  (phase (Storage (GetClient (Some "thom") (Some "nightworld"))
            (ok (VObj {["name" := VStr "Thom"]})))
   < phase (Respond (VObj (<["refresh_token" := VStr "r3fresh"]>
                             (<["expires_in" := VNum 3600]>
                                (<["access_token" := VStr "t0ken"]>
                                   {["token_type" := VStr "bearer"]}))))))%nat.
Proof.
  apply (Grant_calls_in_protocol_order
           (sample_model (VObj {["id" := VNum 7]}) (VStr "t0ken") (VStr "r3fresh"))
           (sample_config (LSeconds 3600) false) password_request 1000 ∅ 0 7);
    [lia|reflexivity|reflexivity].
Defined.

(** ** Errors of the collaborators end the run *)

Lemma silent_snoc l e r :
  silent l -> reply_of e = Some r -> truthy (r_err r) = false -> silent (l ++ [e]).
Proof.
  intros Hl He Hr e' r' [Hin|Hin%list_elem_of_singleton]%elem_of_app Hr'.
  - by apply (Hl e').
  - subst e'. congruence.
Qed.

Lemma silent_respond l x : silent l -> silent (l ++ [Respond x]).
Proof.
  intros Hl e' r' [Hin|Hin%list_elem_of_singleton]%elem_of_app Hr';
    [by apply (Hl e')|by subst e'].
Qed.

Ltac prove_silent :=
  solve [ repeat first [ eassumption
                       | apply silent_respond
                       | eapply silent_snoc; [|reflexivity|eassumption] ] ].

Ltac prove_unanswered :=
  solve [ repeat first [ eassumption
                       | apply unanswered_storage
                       | apply unanswered_token ] ].

(** The step went on, or stopped at the error of its last call. *)
Ltac keep_going :=
  first
    [ prove_silent
    | split; [prove_silent|prove_unanswered]
    | left; prove_silent
    | right; split; [prove_unanswered|];
      eexists _, _, _; split_and!;
      [reflexivity|prove_silent|reflexivity|eassumption
      |intros k' Hk'; first [discriminate Hk'|reflexivity]] ].

Section ErrorsEndTheRun.
Variable m : Model.

Lemma Grant_steps_stop_at_error :
  Forall (fun f => triple going f (fun _ => going) stops_at_error)
    [ Grant.extractCredentials; GrantBase.checkClient m; Grant.exposeClient;
      Grant.checkGrantTypeAllowed m; Grant.exposeUser;
      GrantBase.generateAccessToken m; GrantBase.saveAccessToken m;
      GrantBase.generateRefreshToken m; GrantBase.saveRefreshToken m ]
  /\ Forall (fun f => triple going f (fun _ => going) stops_at_error)
       [ Grant.useExtendedGrant m; Grant.useAuthCodeGrant m;
         Grant.usePasswordGrant m; Grant.useRefreshTokenGrant m;
         Grant.useClientCredentialsGrant m ]
  /\ triple going Grant.sendResponse
       (fun r w' => stops_at_error (Called VNull r) w') stops_at_error.
Proof.
  split_and!; [repeat apply Forall_cons_2; [..|apply Forall_nil_2]..|];
    intros w [Hsilent Hun]; unfold going, stops_at_error;
    step_paths; keep_going.
Qed.

Lemma Grant_ends_stopping_at_error : ends going (Grant.fns m) stops_at_error.
Proof.
  destruct Grant_steps_stop_at_error as (Hsteps & Hgrants & Hlast).
  apply Grant_ends_uniform; [done|done| |done].
  intros o w [Hsilent _]. by left.
Qed.
End ErrorsEndTheRun.

Lemma Grant_stops_at_error m cfg rq clock globals :
  stops_at_error (outcome (Grant.Grant m cfg rq clock globals))
    (final (Grant.Grant m cfg rq clock globals)).
Proof.
  unfold Grant.Grant, Grant.lib_runner.
  apply (ends_runner _ _ _ _ (Grant_ends_stopping_at_error m)).
  split; simpl; by intros ? ? ?%elem_of_nil || by intros ? ?%elem_of_nil.
Qed.

(** X4.  The full pipeline hands a response to the transport only when
    none of the collaborators it called (storage model, token generator)
    reported an error. *)
Theorem response_only_after_silent_collaborators
    (m : Model) (cfg : Config) (rq : Request) (clock : Z)
    (globals : gmap string JSValue) (x : JSValue) (e : Event) (r : Reply) :
  Respond x ∈ events (final (Grant.Grant m cfg rq clock globals)) ->
  e ∈ events (final (Grant.Grant m cfg rq clock globals)) ->
  reply_of e = Some r ->
  truthy (r_err r) = false.
Proof.
  intros Hx He Hr.
  destruct (Grant_stops_at_error m cfg rq clock globals) as [Hsilent|[Hun _]].
  - by apply (Hsilent e).
  - by destruct (Hun x).
Qed.

Lemma response_only_after_silent_collaborators_witness :
  truthy (r_err (ok (VObj {["id" := VNum 7]}))) = false.
Proof.
  apply (response_only_after_silent_collaborators
           (sample_model (VObj {["id" := VNum 7]}) (VStr "t0ken") (VStr "r3fresh"))
           (sample_config (LSeconds 3600) false) password_request 1000 ∅
           (VObj (<["refresh_token" := VStr "r3fresh"]>
                    (<["expires_in" := VNum 3600]>
                       (<["access_token" := VStr "t0ken"]>
                          {["token_type" := VStr "bearer"]}))))
           (Storage (GetUser "bob" "hunter2") (ok (VObj {["id" := VNum 7]}))));
    [in_log|in_log|reflexivity].
Defined.

(** X5.  An error reported by the token generator is not wrapped: it ends
    the run as the last event of the log and is passed to the final
    callback as it is. *)
Theorem generator_error_is_passed_on_unchanged
    (m : Model) (cfg : Config) (rq : Request) (clock : Z)
    (globals : gmap string JSValue) (k : TokenKind) (r : Reply) :
  Token k r ∈ events (final (Grant.Grant m cfg rq clock globals)) ->
  truthy (r_err r) = true ->
  outcome (Grant.Grant m cfg rq clock globals) = Called (r_err r) VUndefined
  /\ last (events (final (Grant.Grant m cfg rq clock globals))) = Some (Token k r).
Proof.
  intros Hin Herr.
  destruct (Grant_stops_at_error m cfg rq clock globals)
    as [Hsilent|(_ & l & e & r' & Hev & Hl & Hr' & Herr' & Hout)].
  - rewrite (Hsilent _ r Hin eq_refl) in Herr. done.
  - rewrite Hev in Hin |- *.
    apply elem_of_app in Hin as [Hin|Hin%list_elem_of_singleton].
    { rewrite (Hl _ r Hin eq_refl) in Herr. done. }
    subst e. injection Hr' as <-. split; [by apply (Hout k)|by rewrite last_snoc].
Qed.


Lemma generator_error_is_passed_on_unchanged_witness :
  outcome (Grant.Grant (flaky_generator_model (VStr "entropy"))
             (sample_config (LSeconds 3600) false) password_request 1000 ∅)
    = Called (VStr "entropy") VUndefined
  /\ last (events (final (Grant.Grant (flaky_generator_model (VStr "entropy"))
                            (sample_config (LSeconds 3600) false)
                            password_request 1000 ∅)))
     = Some (Token RefreshTokenKind (failed (VStr "entropy"))).
Proof.
  apply (generator_error_is_passed_on_unchanged
           (flaky_generator_model (VStr "entropy"))
           (sample_config (LSeconds 3600) false) password_request 1000 ∅
           RefreshTokenKind (failed (VStr "entropy")));
    [in_log|reflexivity].
Defined.

(** ** Lookups that find nothing *)

Lemma all_found_storage l c r :
  all_found l ->
  (is_Some (rejection c) -> truthy (r_err r) = false -> truthy (r_val r) = true) ->
  all_found (l ++ [Storage c r]).
Proof.
  intros H Hr c' r' [Hin|Hin%list_elem_of_singleton]%elem_of_app; [by apply (H c')|].
  by injection Hin as -> ->.
Qed.

Lemma all_found_other l e :
  all_found l -> (forall c r, e <> Storage c r) -> all_found (l ++ [e]).
Proof.
  intros H He c' r' [Hin|Hin%list_elem_of_singleton]%elem_of_app; [by apply (H c')|].
  by destruct (He c' r').
Qed.

Ltac prove_found :=
  solve [ repeat first
            [ eassumption
            | apply all_found_other; [|done]
            | apply all_found_storage;
              [|first [ by intros [? ?]
                      | intros _ _; eassumption
                      | intros _ ?; congruence ]] ] ].

Ltac found_cases :=
  repeat match goal with
         | H : negb _ = true |- _ => apply negb_true_iff in H
         | H : negb _ = false |- _ => apply negb_false_iff in H
         | H : _ || _ = false |- _ => apply orb_false_iff in H as [? ?]
         | H : negb (truthy ?v) || _ = true |- _ => destruct (truthy v) eqn:?; clear H
         end.

Ltac keep_found :=
  found_cases;
  first
    [ prove_found
    | left; prove_found
    | right; eexists _, _, _, _;
      split_and!; [reflexivity|prove_found|reflexivity|eassumption|eassumption|reflexivity] ].

Section NotFound.
Variable m : Model.

Lemma Grant_steps_reject_not_found :
  Forall (fun f => triple found_log f (fun _ => found_log) rejects_not_found)
    [ Grant.extractCredentials; GrantBase.checkClient m; Grant.exposeClient;
      Grant.checkGrantTypeAllowed m; Grant.exposeUser;
      GrantBase.generateAccessToken m; GrantBase.saveAccessToken m;
      GrantBase.generateRefreshToken m; GrantBase.saveRefreshToken m ]
  /\ Forall (fun f => triple found_log f (fun _ => found_log) rejects_not_found)
       [ Grant.useExtendedGrant m; Grant.useAuthCodeGrant m;
         Grant.usePasswordGrant m; Grant.useRefreshTokenGrant m;
         Grant.useClientCredentialsGrant m ]
  /\ triple found_log Grant.sendResponse
       (fun r w' => rejects_not_found (Called VNull r) w') rejects_not_found.
Proof.
  split_and!; [repeat apply Forall_cons_2; [..|apply Forall_nil_2]..|];
    intros w Hfound; unfold found_log, rejects_not_found in *;
    step_paths; keep_found.
Qed.

Lemma Grant_ends_rejecting_not_found :
  ends found_log (Grant.fns m) rejects_not_found.
Proof.
  destruct Grant_steps_reject_not_found as (Hsteps & Hgrants & Hlast).
  apply Grant_ends_uniform; [done|done| |done].
  intros o w Hfound. by left.
Qed.
End NotFound.

(** X6.  When a lookup of the storage model reports no error and finds
    nothing (for [extendedGrant]: does not support the grant type), the run
    ends at that call and the final callback gets the rejection of that
    lookup: [invalid_client] for the client and the allowed grant type,
    [invalid_grant] for the user, the code and the refresh token,
    [invalid_request] for the extension grant. *)
Theorem lookup_finding_nothing_rejects
    (m : Model) (cfg : Config) (rq : Request) (clock : Z)
    (globals : gmap string JSValue) (c : Call) (r : Reply) (e : JSValue) :
  Storage c r ∈ events (final (Grant.Grant m cfg rq clock globals)) ->
  rejection c = Some e ->
  truthy (r_err r) = false ->
  truthy (r_val r) = false ->
  outcome (Grant.Grant m cfg rq clock globals) = Called e VUndefined
  /\ last (events (final (Grant.Grant m cfg rq clock globals))) = Some (Storage c r).
Proof.
  intros Hin Hrej Herr Hval.
  pose proof (ends_runner _ _ _
    {| this := set_req (Some rq) (GrantBase.GrantBase cfg clock);
       receiver := globals; events := [] |}
    (Grant_ends_rejecting_not_found m)) as H.
  unfold Grant.Grant, Grant.lib_runner in *.
  destruct H as [Hfound|(l & c' & r' & e' & Hev & Hl & Hrej' & Herr' & Hval' & Ho)].
  - by intros ? ? ?%elem_of_nil.
  - rewrite (Hfound c r Hin) in Hval; [done|by rewrite Hrej|done].
  - rewrite Hev in Hin |- *.
    apply elem_of_app in Hin as [Hin|Hin%list_elem_of_singleton].
    { rewrite (Hl c r Hin) in Hval; [done|by rewrite Hrej|done]. }
    injection Hin as -> ->. rewrite last_snoc. split; [congruence|done].
Qed.

Lemma lookup_finding_nothing_rejects_witness :
  outcome (Grant.Grant userless_model (sample_config (LSeconds 3600) false)
             password_request 1000 ∅)
    = Called (error (VStr "invalid_grant") (VStr "User credentials are invalid")
                VUndefined) VUndefined
  /\ last (events (final (Grant.Grant userless_model
                            (sample_config (LSeconds 3600) false)
                            password_request 1000 ∅)))
     = Some (Storage (GetUser "bob" "hunter2") (ok VNull)).
Proof.
  apply (lookup_finding_nothing_rejects userless_model
           (sample_config (LSeconds 3600) false) password_request 1000 ∅
           (GetUser "bob" "hunter2") (ok VNull));
    [in_log|reflexivity|reflexivity|reflexivity].
Defined.

(** ** The calls a request asks for *)

Ltac asked_log :=
  repeat match goal with
         | |- Forall _ (_ ++ [_]) => apply Forall_app_2; [|apply Forall_singleton; simpl]
         | |- Forall _ [] => constructor
         | |- Forall _ _ => eassumption
         end.

Ltac asked_fact :=
  repeat match goal with
         | H : Some _ = creds _ |- _ => rewrite <- H; clear H
         | H : Some _ = param _ _ |- _ => rewrite <- H; clear H
         end;
  simpl; repeat split;
  first [ done | match goal with c : Client |- _ => by destruct c end ].

Ltac asked_param Hgrant Hpay :=
  repeat match goal with
         | H : _ /\ _ |- _ => destruct H
         | H : exists _, _ |- _ => destruct H
         end;
  repeat match goal with
         | H : grantType _ = Some _ |- _ => rewrite H in *
         end;
  unfold param in *; rewrite <- ?Hpay in *;
  repeat match goal with
         | H : match ?p with _ => _ end = Some _ |- _ => destruct p eqn:?; simplify_eq/=
         | H : _ || _ = false |- _ => apply orb_false_iff in H as [? ?]
         end;
  cbn [default from_option id] in *;
  repeat match goal with
         | |- context [default _ ?o] => destruct o; simplify_eq/=
         end;
  repeat match goal with
         | H : Some ?c = creds _ |- _ => rewrite <- H; clear H
         end;
  cbn [default from_option id] in *;
  repeat split;
  first [ done | congruence | match goal with c : Client |- _ => by destruct c end ].

Section AskedFor.
Variable m : Model.
Variable rq : Request.

Lemma extractCredentials_ties :
  triple (started rq) Grant.extractCredentials (fun _ => tied m rq) (all_asked_for m rq).
Proof.
  intros w [Hreq Hev]. unfold tied, all_asked_for, creds, param.
  step_paths; rewrite ?Hev; first [by constructor|split_and!; by eauto].
Qed.

Lemma Grant_steps_ask_for_the_request :
  Forall (fun f => triple (tied m rq) f (fun _ => tied m rq) (all_asked_for m rq))
    [ GrantBase.checkClient m; Grant.exposeClient;
      Grant.checkGrantTypeAllowed m; Grant.exposeUser;
      GrantBase.generateAccessToken m; GrantBase.saveAccessToken m;
      GrantBase.generateRefreshToken m; GrantBase.saveRefreshToken m ].
Proof.
  repeat apply Forall_cons_2; [..|apply Forall_nil_2];
    intros w ((rq' & Hreq & Hpay) & Hclient & Hgrant & Hlog);
    unfold tied, all_asked_for;
    step_paths; rewrite ?Hreq, <- ?Hclient, <- ?Hgrant in *; simplify_eq/=;
    try split_and!; asked_log; eauto; asked_fact.
Qed.

Lemma Grant_grants_ask_for_the_request :
  triple (fun w => tied m rq w /\ extendedGrant m = true
                   /\ exists g, grantType (this w) = Some g
                                /\ Grant.matches_extension g = true)
    (Grant.useExtendedGrant m) (fun _ => tied m rq) (all_asked_for m rq)
  /\ triple (fun w => tied m rq w /\ grantType (this w) = Some "authorization_code")
       (Grant.useAuthCodeGrant m) (fun _ => tied m rq) (all_asked_for m rq)
  /\ triple (fun w => tied m rq w /\ grantType (this w) = Some "password")
       (Grant.usePasswordGrant m) (fun _ => tied m rq) (all_asked_for m rq)
  /\ triple (fun w => tied m rq w /\ grantType (this w) = Some "refresh_token")
       (Grant.useRefreshTokenGrant m) (fun _ => tied m rq) (all_asked_for m rq)
  /\ triple (fun w => tied m rq w /\ grantType (this w) = Some "client_credentials")
       (Grant.useClientCredentialsGrant m) (fun _ => tied m rq) (all_asked_for m rq).
Proof.
  split_and!;
    intros w (((rq' & Hreq & Hpay) & Hclient & Hgrant & Hlog) & Hchosen);
    unfold tied, all_asked_for;
    step_paths; rewrite ?Hreq, <- ?Hclient, <- ?Hgrant in *; simplify_eq/=;
    try split_and!; asked_log; eauto; asked_param Hgrant Hpay.
Qed.

Lemma Grant_sendResponse_asks_nothing :
  triple (tied m rq) Grant.sendResponse
    (fun r w' => all_asked_for m rq (Called VNull r) w') (all_asked_for m rq).
Proof.
  intros w (_ & _ & _ & Hlog). unfold all_asked_for.
  step_paths; asked_log; done.
Qed.

Lemma Grant_ends_asking_for_the_request :
  ends (started rq) (Grant.fns m) (all_asked_for m rq).
Proof.
  pose proof Grant_steps_ask_for_the_request as Hsteps.
  destruct Grant_grants_ask_for_the_request as (G1 & G2 & G3 & G4 & G5).
  apply Forall_cons_1 in Hsteps as [H1 Hsteps].
  apply Forall_cons_1 in Hsteps as [H2 Hsteps].
  apply Forall_cons_1 in Hsteps as [H3 Hsteps].
  apply (Grant_ends_through m (started rq) (tied m rq));
    [apply extractCredentials_ties| |apply Grant_sendResponse_asks_nothing].
  do 3 (apply Forall_cons_2; [done|]).
  apply Forall_cons_2; [|done].
  apply checkGrantType_dispatch; try done.
  by intros o w (_ & _ & _ & Hlog).
Qed.
End AskedFor.

(** X7.  Every storage call of a run is one the request asks for:
    [getClient] gets the credentials of the Authorization header, or else of
    the body; a lookup is made only for its own grant type, with the
    parameters of the body ([getUser] for [password], [getAuthCode] for
    [authorization_code], [getRefreshToken] and [revokeRefreshToken] for
    [refresh_token], [getUserFromClient] for [client_credentials],
    [extendedGrant] for a grant type with a scheme prefix when the model has
    the method); the saves name the request's client and grant type. *)
Theorem storage_calls_are_asked_for
    (m : Model) (cfg : Config) (rq : Request) (clock : Z)
    (globals : gmap string JSValue) :
  Forall (asked_for m rq) (events (final (Grant.Grant m cfg rq clock globals))).
Proof.
  unfold Grant.Grant, Grant.lib_runner.
  by apply (ends_runner _ _ _ _ (Grant_ends_asking_for_the_request m rq)).
Qed.

(** The calls of the example request carry the header's credentials, not
    the body's. *)
Lemma basic_credentials_take_precedence :
  events (final (Grant.Grant userless_model (sample_config (LSeconds 3600) false)
                   basic_request 1000 ∅))
  = [ Storage (GetClient (Some "thom") (Some "nightworld"))
        (ok (VObj {["name" := VStr "Thom"]}));
      Storage (GrantTypeAllowed (Some "thom") (Some "client_credentials"))
        (ok (VBool true));
      Storage (GetUserFromClient (Some "thom") (Some "nightworld")) (ok VNull) ].
Proof. by vm_compute. Qed.

(** ** Requests that are not well formed *)

(** A step keeps what does not depend on the state. *)
Lemma triple_const {W : Type} (P : Prop) (f : Step W) (Q : Outcome -> W -> Prop) :
  (forall o w, P -> Q o w) ->
  triple (fun _ => P) f (fun _ _ => P) Q.
Proof.
  intros HQ w HP. destruct (f w) as [[e r| |x] w']; [|by apply HQ..].
  destruct (truthy e); [by apply HQ|done].
Qed.

Ltac bool_facts :=
  repeat match goal with
         | H : _ || _ = false |- _ => apply orb_false_iff in H as [? ?]
         | H : negb _ = false |- _ => apply negb_false_iff in H
         | H : negb _ = true |- _ => apply negb_true_iff in H
         | H : String.eqb _ _ = true |- _ => apply String.eqb_eq in H
         | H : String.eqb _ _ = false |- _ => apply String.eqb_neq in H
         end.

Lemma extractCredentials_validates (cfg : Config) (rq : Request) :
  triple (started_with cfg rq) Grant.extractCredentials
    (fun _ _ => well_formed cfg rq) (idle_unless (well_formed cfg rq)).
Proof.
  intros w (Hcfg & Hreq & Hev). unfold idle_unless, well_formed, creds, param.
  step_paths; try by left.
  all: bool_facts.
  - split_and!; [done..|]. eexists _, _, _; split_and!; try first [reflexivity|eassumption].
  - destruct (g !! "client_id") eqn:Hid, (g !! "client_secret") eqn:Hsecret;
      simplify_eq/=; bool_facts.
    split_and!; [done..|]. eexists _, _, _; split_and!; try first [reflexivity|eassumption].
Qed.

Lemma Grant_ends_idle_unless_well_formed (m : Model) (cfg : Config) (rq : Request) :
  ends (started_with cfg rq) (Grant.fns m) (idle_unless (well_formed cfg rq)).
Proof.
  apply (Grant_ends_through m _ (fun _ => well_formed cfg rq));
    [apply extractCredentials_validates| |].
  - repeat apply Forall_cons_2; [..|apply Forall_nil_2];
      apply triple_const; intros; by right.
  - intros w Hwf. destruct (Grant.sendResponse w) as [[e r| |x] w']; [|by right..].
    destruct (truthy e); by right.
Qed.

(** X8.  A collaborator is invoked only for a well-formed request: a POST
    with form encoding, whose grant type is present and matches the
    configured pattern, and whose client id (matching its pattern) and
    client secret are present, in the Authorization header or else in the
    body. *)
Theorem collaborators_only_for_well_formed_requests
    (m : Model) (cfg : Config) (rq : Request) (clock : Z)
    (globals : gmap string JSValue) (e : Event) :
  e ∈ events (final (Grant.Grant m cfg rq clock globals)) ->
  well_formed cfg rq.
Proof.
  intros Hin.
  destruct (ends_runner _ _ _
    {| this := set_req (Some rq) (GrantBase.GrantBase cfg clock);
       receiver := globals; events := [] |}
    (Grant_ends_idle_unless_well_formed m cfg rq)) as [Hev|Hwf]; [done| |done].
  unfold Grant.Grant, Grant.lib_runner in Hin. rewrite Hev in Hin.
  by apply elem_of_nil in Hin.
Qed.

Lemma collaborators_only_for_well_formed_requests_witness :
  well_formed (sample_config (LSeconds 3600) false) basic_request.
Proof.
  apply (collaborators_only_for_well_formed_requests userless_model
           (sample_config (LSeconds 3600) false) basic_request 1000 ∅
           (Storage (GetClient (Some "thom") (Some "nightworld"))
              (ok (VObj {["name" := VStr "Thom"]})))).
  in_log.
Defined.

(** ** Refresh tokens are issued only when configured *)

Ltac log_facts :=
  repeat match goal with
         | |- Forall _ (_ ++ [_]) => apply Forall_app_2; [|apply Forall_singleton; simpl]
         | |- Forall _ [] => constructor
         | |- Forall _ _ => eassumption
         end.

Section RefreshDisabled.
Variable m : Model.
Variable cfg : Config.
Hypothesis Hdisabled : "refresh_token" ∉ grants cfg.

Lemma Grant_steps_issue_no_refresh_token :
  Forall (fun f => triple (without_refresh cfg) f (fun _ => without_refresh cfg)
                     no_refresh_issued)
    [ Grant.extractCredentials; GrantBase.checkClient m; Grant.exposeClient;
      Grant.checkGrantTypeAllowed m; Grant.exposeUser;
      GrantBase.generateAccessToken m; GrantBase.saveAccessToken m;
      GrantBase.generateRefreshToken m; GrantBase.saveRefreshToken m ]
  /\ Forall (fun f => triple (without_refresh cfg) f (fun _ => without_refresh cfg)
                        no_refresh_issued)
       [ Grant.useExtendedGrant m; Grant.useAuthCodeGrant m;
         Grant.usePasswordGrant m; Grant.useRefreshTokenGrant m;
         Grant.useClientCredentialsGrant m ]
  /\ triple (without_refresh cfg) Grant.sendResponse
       (fun r w' => no_refresh_issued (Called VNull r) w') no_refresh_issued.
Proof.
  split_and!; [repeat apply Forall_cons_2; [..|apply Forall_nil_2]..|];
    intros w (Hcfg & Hrefresh & Hlog); unfold without_refresh, no_refresh_issued;
    step_paths; rewrite ?Hrefresh in *; try done;
    try (match goal with
         | H : negb (bool_decide _) = false |- _ =>
             apply negb_false_iff, bool_decide_eq_true in H; by destruct Hdisabled
         end);
    try split_and!; try done; log_facts; done.
Qed.

Lemma Grant_ends_issuing_no_refresh_token :
  ends (without_refresh cfg) (Grant.fns m) no_refresh_issued.
Proof.
  destruct Grant_steps_issue_no_refresh_token as (Hsteps & Hgrants & Hlast).
  apply Grant_ends_uniform; [done|done| |done].
  by intros o w (_ & _ & Hlog).
Qed.
End RefreshDisabled.

(** X9.  When the configured grants leave out [refresh_token], a run
    generates no refresh token, saves none and sends none in its response,
    whatever the grant type of the request. *)
Theorem no_refresh_token_unless_configured
    (m : Model) (cfg : Config) (rq : Request) (clock : Z)
    (globals : gmap string JSValue) :
  "refresh_token" ∉ grants cfg ->
  Forall issues_no_refresh_token
    (events (final (Grant.Grant m cfg rq clock globals))).
Proof.
  intros Hdisabled. unfold Grant.Grant, Grant.lib_runner.
  apply (ends_runner _ _ _ _ (Grant_ends_issuing_no_refresh_token m cfg Hdisabled)).
  by split_and!.
Qed.

Lemma no_refresh_token_unless_configured_witness :
  Forall issues_no_refresh_token
    (events (final (Grant.Grant
                      (sample_model (VObj {["id" := VNum 7]}) (VStr "t0ken")
                         (VStr "r3fresh"))
                      config_without_refresh password_request 1000 ∅))).
Proof.
  apply (no_refresh_token_unless_configured
           (sample_model (VObj {["id" := VNum 7]}) (VStr "t0ken") (VStr "r3fresh"))
           config_without_refresh password_request 1000 ∅).
  unfold config_without_refresh; simpl.
  intros [?|[?|?%elem_of_nil]%elem_of_cons]%elem_of_cons; done.
Defined.


(** ** Tokens are issued for the resolved user *)

Lemma js_or_object_truthy a ps : truthy (js_or a (VObj ps)) = true.
Proof. unfold js_or. by destruct (truthy a) eqn:Ha. Qed.

Section ResolvedUser.
Variable m : Model.

Lemma Grant_steps_issue_nothing_before_dispatch :
  Forall (fun f => triple nothing_issued f (fun _ => nothing_issued)
                     issued_for_exposed_user)
    [ Grant.extractCredentials; GrantBase.checkClient m; Grant.exposeClient;
      Grant.checkGrantTypeAllowed m ].
Proof.
  repeat apply Forall_cons_2; [..|apply Forall_nil_2];
    intros w Hlog; unfold issued_for_exposed_user, nothing_issued in *;
    step_paths; try left; log_facts; by auto.
Qed.

Lemma Grant_grants_resolve_a_user :
  Forall (fun f => triple nothing_issued f (fun _ => user_resolved)
                     issued_for_exposed_user)
    [ Grant.useExtendedGrant m; Grant.useAuthCodeGrant m;
      Grant.usePasswordGrant m; Grant.useRefreshTokenGrant m;
      Grant.useClientCredentialsGrant m ].
Proof.
  repeat apply Forall_cons_2; [..|apply Forall_nil_2];
    intros w Hlog;
    unfold issued_for_exposed_user, user_resolved, nothing_issued in *;
    step_paths; bool_facts; try left; try split; log_facts;
    first [by auto|apply js_or_object_truthy].
Qed.

Lemma Grant_dispatch_resolves_a_user :
  triple nothing_issued (Grant.checkGrantType m) (fun _ => user_resolved)
    issued_for_exposed_user.
Proof.
  pose proof Grant_grants_resolve_a_user as Hgrants.
  apply Forall_cons_1 in Hgrants as [G1 Hgrants].
  apply Forall_cons_1 in Hgrants as [G2 Hgrants].
  apply Forall_cons_1 in Hgrants as [G3 Hgrants].
  apply Forall_cons_1 in Hgrants as [G4 Hgrants].
  apply Forall_cons_1 in Hgrants as [G5 _].
  apply checkGrantType_triple; try done; intros w Hlog; by left.
Qed.

Lemma Grant_exposeUser_exposes :
  triple user_resolved Grant.exposeUser (fun _ => user_exposed)
    issued_for_exposed_user.
Proof.
  intros w [Huser Hlog]. unfold issued_for_exposed_user, user_exposed.
  step_paths; [|by left].
  split_and!; [done|by eauto|].
  eapply Forall_impl; [exact Hlog|]. intros [[]| |] Hno; simpl in *; tauto.
Qed.

Lemma Grant_steps_issue_for_the_user :
  Forall (fun f => triple user_exposed f (fun _ => user_exposed)
                     issued_for_exposed_user)
    [ GrantBase.generateAccessToken m; GrantBase.saveAccessToken m;
      GrantBase.generateRefreshToken m; GrantBase.saveRefreshToken m ]
  /\ triple user_exposed Grant.sendResponse
       (fun r w' => issued_for_exposed_user (Called VNull r) w')
       issued_for_exposed_user.
Proof.
  split; [repeat apply Forall_cons_2; [..|apply Forall_nil_2]|];
    intros w (Huser & Hreq & Hlog); unfold issued_for_exposed_user, user_exposed;
    step_paths; try right; split_and!; log_facts; by auto.
Qed.

Lemma Grant_ends_issuing_for_the_user :
  ends nothing_issued (Grant.fns m) issued_for_exposed_user.
Proof.
  pose proof Grant_steps_issue_nothing_before_dispatch as Hbefore.
  destruct Grant_steps_issue_for_the_user as [Hafter Hlast].
  apply Forall_cons_1 in Hbefore as [H1 Hbefore].
  apply Forall_cons_1 in Hbefore as [H2 Hbefore].
  apply Forall_cons_1 in Hbefore as [H3 Hbefore].
  apply Forall_cons_1 in Hbefore as [H4 _].
  unfold Grant.fns.
  do 4 (eapply ends_cons; [done|eassumption|]).
  eapply ends_cons; [done|apply Grant_dispatch_resolves_a_user|].
  eapply ends_cons; [done|apply Grant_exposeUser_exposes|].
  by apply (ends_uniform user_exposed issued_for_exposed_user
              [ GrantBase.generateAccessToken m; GrantBase.saveAccessToken m;
                GrantBase.generateRefreshToken m; GrantBase.saveRefreshToken m ]
              Grant.sendResponse).
Qed.
End ResolvedUser.

(** X10.  A token is generated, saved or sent only once the dispatch has
    resolved a user: by then the user is truthy and written to
    [req.app.user], and every save is given that user. *)
Theorem tokens_are_issued_for_the_exposed_user
    (m : Model) (cfg : Config) (rq : Request) (clock : Z)
    (globals : gmap string JSValue) (e : Event) :
  e ∈ events (final (Grant.Grant m cfg rq clock globals)) ->
  issues e ->
  exists u rq',
    user (this (final (Grant.Grant m cfg rq clock globals))) = u
    /\ truthy u = true
    /\ req (this (final (Grant.Grant m cfg rq clock globals))) = Some rq'
    /\ app_user (app rq') = u
    /\ saved_for u e.
Proof.
  intros Hin Hissues.
  destruct (ends_runner _ _ _
    {| this := set_req (Some rq) (GrantBase.GrantBase cfg clock);
       receiver := globals; events := [] |}
    (Grant_ends_issuing_for_the_user m)) as [Hnone|(Huser & (rq' & Hreq & Happ) & Hlog)].
  - by constructor.
  - unfold Grant.Grant, Grant.lib_runner in Hin.
    by destruct (proj1 (Forall_forall _ _) Hnone e Hin).
  - unfold Grant.Grant, Grant.lib_runner in *.
    eexists _, rq'. split_and!; [reflexivity|done|done|done|].
    by apply (proj1 (Forall_forall _ _) Hlog e Hin).
Qed.

Lemma tokens_are_issued_for_the_exposed_user_witness :
  exists u rq',
    user (this (final (Grant.Grant
                         (sample_model (VObj {["id" := VNum 7]}) (VStr "t0ken")
                            (VStr "r3fresh"))
                         (sample_config (LSeconds 3600) false)
                         password_request 1000 ∅))) = u
    /\ truthy u = true
    /\ req (this (final (Grant.Grant
                           (sample_model (VObj {["id" := VNum 7]}) (VStr "t0ken")
                              (VStr "r3fresh"))
                           (sample_config (LSeconds 3600) false)
                           password_request 1000 ∅))) = Some rq'
    /\ app_user (app rq') = u
    /\ saved_for u
         (Storage (SaveAccessToken (VStr "t0ken") (Some "thom")
                     (VDate (Some 3601000)) (VObj {["id" := VNum 7]})
                     (Some "password")) (ok VUndefined)).
Proof.
  apply (tokens_are_issued_for_the_exposed_user
           (sample_model (VObj {["id" := VNum 7]}) (VStr "t0ken") (VStr "r3fresh"))
           (sample_config (LSeconds 3600) false) password_request 1000 ∅
           (Storage (SaveAccessToken (VStr "t0ken") (Some "thom")
                       (VDate (Some 3601000)) (VObj {["id" := VNum 7]})
                       (Some "password")) (ok VUndefined)));
    [in_log|exact I].
Defined.


(** ** The response carries the generated tokens *)

Lemma generated_snoc_other (k : TokenKind) (P : Reply -> Prop) l e :
  (forall r, Token k r ∈ l -> P r) -> (forall r, e <> Token k r) ->
  forall r, Token k r ∈ l ++ [e] -> P r.
Proof.
  intros H He r [Hin|Hin%list_elem_of_singleton]%elem_of_app; [by apply H|].
  by destruct (He r).
Qed.

Lemma generated_snoc_new (k : TokenKind) (P : Reply -> Prop) l r0 :
  not_generated k l -> P r0 ->
  forall r, Token k r ∈ l ++ [Token k r0] -> P r.
Proof.
  intros H Hr0 r [Hin|Hin%list_elem_of_singleton]%elem_of_app; [by destruct (H r)|].
  by injection Hin as ->.
Qed.

Lemma not_generated_snoc (k : TokenKind) l e :
  not_generated k l -> (forall r, e <> Token k r) -> not_generated k (l ++ [e]).
Proof.
  intros H He r [Hin|Hin%list_elem_of_singleton]%elem_of_app; [by apply (H r)|].
  by destruct (He r).
Qed.

Lemma generated_snoc_ex (k : TokenKind) l e :
  (exists r, Token k r ∈ l) -> exists r, Token k r ∈ l ++ [e].
Proof. intros [r Hin]. exists r. apply elem_of_app. by left. Qed.

Lemma generated_snoc_here (k : TokenKind) l r :
  exists r', Token k r' ∈ l ++ [Token k r].
Proof. exists r. apply elem_of_app. right. apply list_elem_of_here. Qed.

Lemma generated_here (k : TokenKind) l r : ~ not_generated k (l ++ [Token k r]).
Proof. intros H. apply (H r), elem_of_app. right. apply list_elem_of_here. Qed.

Lemma not_generated_prefix (k : TokenKind) l l' :
  not_generated k (l ++ l') -> not_generated k l.
Proof. intros H r Hin. apply (H r), elem_of_app. by left. Qed.

Lemma issued_falsy (k : TokenKind) v : truthy v = false -> issued k v = v.
Proof. unfold issued. by destruct v, k. Qed.

Lemma issued_truthy (k : TokenKind) v : truthy v = true -> truthy (issued k v) = true.
Proof.
  intros Hv. unfold issued.
  destruct (typeof_object v && truthy (prop v _)) eqn:Hmarker; [|done].
  by apply andb_prop in Hmarker as [_ ?].
Qed.

Lemma sends_issued_tokens_respond o w x :
  tokens_generated (issued RefreshTokenKind) w ->
  prop x "token_type" = VStr "bearer" ->
  prop x "access_token" = accessToken (this w) ->
  prop x "refresh_token" =
    (if truthy (refreshToken (this w)) then refreshToken (this w) else VUndefined) ->
  sends_issued_tokens o (log (Respond x) w).
Proof.
  intros ([Hex Ha] & [Hr Hnor] & Hun) Htype Haccess Hrefresh y Hy. simpl in *.
  apply elem_of_app in Hy as [Hy|Hy%list_elem_of_singleton]; [by destruct (Hun y)|].
  injection Hy as ->. split_and!.
  - done.
  - by apply generated_snoc_ex.
  - apply generated_snoc_other; [|done]. intros r Hin. by rewrite Haccess, (Ha r Hin).
  - apply generated_snoc_other; [|done]. intros r Hin.
    rewrite Hrefresh, (Hr r Hin).
    destruct (truthy (r_val r)) eqn:Hv.
    + by rewrite (issued_truthy _ _ Hv).
    + by rewrite (issued_falsy _ _ Hv), Hv.
  - intros Hn%not_generated_prefix. by rewrite Hrefresh, (Hnor Hn).
Qed.

Lemma unanswered_sends_nothing o w :
  unanswered (events w) -> sends_issued_tokens o w.
Proof. intros H x Hx. by destruct (H x). Qed.

Ltac token_log :=
  repeat first
    [ eassumption
    | apply generated_snoc_here
    | apply generated_snoc_ex
    | apply unanswered_storage
    | apply unanswered_token
    | apply not_generated_snoc; [|done]
    | apply generated_snoc_other; [|done]
    | apply generated_snoc_new; [eassumption|] ].

Section IssuedTokens.
Variable m : Model.

Lemma Grant_steps_generate_no_token :
  Forall (fun f => triple no_token_yet f (fun _ => no_token_yet) sends_issued_tokens)
    [ Grant.extractCredentials; GrantBase.checkClient m; Grant.exposeClient;
      Grant.checkGrantTypeAllowed m; Grant.exposeUser ]
  /\ Forall (fun f => triple no_token_yet f (fun _ => no_token_yet) sends_issued_tokens)
       [ Grant.useExtendedGrant m; Grant.useAuthCodeGrant m;
         Grant.usePasswordGrant m; Grant.useRefreshTokenGrant m;
         Grant.useClientCredentialsGrant m ].
Proof.
  split; repeat apply Forall_cons_2; try apply Forall_nil_2;
    intros w (Hno & [Hnor Hr] & Hun);
    unfold no_token_yet, no_refresh_yet;
    step_paths;
    first [ apply unanswered_sends_nothing; simpl; token_log; done
          | split_and!; token_log; done ].
Qed.

Lemma generateAccessToken_generates :
  triple no_token_yet (GrantBase.generateAccessToken m)
    (fun _ => access_generated (fun v => v)) sends_issued_tokens.
Proof.
  intros w (Hno & [Hnor Hr] & Hun).
  unfold access_generated, access_is, no_refresh_yet.
  step_paths;
    first [ apply unanswered_sends_nothing; simpl; token_log; done
          | split_and!; token_log; done ].
Qed.

Lemma saveAccessToken_issues :
  triple (access_generated (fun v => v)) (GrantBase.saveAccessToken m)
    (fun _ => access_generated (issued AccessTokenKind)) sends_issued_tokens.
Proof.
  intros w ([Hex Ha] & [Hnor Hr] & Hun).
  unfold access_generated, access_is, no_refresh_yet, issued.
  step_paths;
    first [ apply unanswered_sends_nothing; simpl; token_log; done
          | split_and!; token_log; try done;
            intros r Hin; rewrite <- (Ha r Hin);
            match goal with
            | H : typeof_object _ && truthy _ = _ |- _ => by rewrite H
            end ].
Qed.

Lemma generateRefreshToken_generates :
  triple (access_generated (issued AccessTokenKind)) (GrantBase.generateRefreshToken m)
    (fun _ => tokens_generated (fun v => v)) sends_issued_tokens.
Proof.
  intros w ([Hex Ha] & [Hnor Hr] & Hun).
  unfold tokens_generated, access_is, refresh_is.
  step_paths;
    first [ apply unanswered_sends_nothing; simpl; token_log; done
          | split_and!; token_log; try done;
            first [ intros r Hin; by destruct (Hnor r)
                  | intros Hn; by destruct (generated_here _ _ _ Hn) ] ].
Qed.

Lemma saveRefreshToken_issues :
  triple (tokens_generated (fun v => v)) (GrantBase.saveRefreshToken m)
    (fun _ => tokens_generated (issued RefreshTokenKind)) sends_issued_tokens.
Proof.
  intros w ([Hex Ha] & [Hr Hnor] & Hun).
  unfold tokens_generated, access_is, refresh_is.
  step_paths;
    first [ apply unanswered_sends_nothing; simpl; token_log; done
          | split_and!; token_log; try done ];
    bool_facts;
    first [ intros r Hin; rewrite <- (Hr r Hin);
            first [ symmetry; by apply issued_falsy
                  | unfold issued;
                    match goal with
                    | H : typeof_object _ && truthy _ = _ |- _ => by rewrite H
                    end ]
          | intros Hn; apply not_generated_prefix in Hn; by apply Hnor
          | intros Hn; rewrite (Hnor Hn) in *; done ].
Qed.

Lemma sendResponse_sends_issued_tokens :
  triple (tokens_generated (issued RefreshTokenKind)) Grant.sendResponse
    (fun r w' => sends_issued_tokens (Called VNull r) w') sends_issued_tokens.
Proof.
  intros w ([Hex Ha] & [Hr Hnor] & Hun).
  step_paths; try (apply unanswered_sends_nothing; simpl; token_log; done);
    (apply sends_issued_tokens_respond; [done|done|done|]);
    match goal with H : truthy (refreshToken _) = _ |- _ => by rewrite H end.
Qed.

Lemma Grant_ends_sending_issued_tokens :
  ends no_token_yet (Grant.fns m) sends_issued_tokens.
Proof.
  destruct Grant_steps_generate_no_token as [Hsteps Hgrants].
  apply Forall_cons_1 in Hsteps as [H1 Hsteps].
  apply Forall_cons_1 in Hsteps as [H2 Hsteps].
  apply Forall_cons_1 in Hsteps as [H3 Hsteps].
  apply Forall_cons_1 in Hsteps as [H4 Hsteps].
  apply Forall_cons_1 in Hsteps as [H5 _].
  apply Forall_cons_1 in Hgrants as [G1 Hgrants].
  apply Forall_cons_1 in Hgrants as [G2 Hgrants].
  apply Forall_cons_1 in Hgrants as [G3 Hgrants].
  apply Forall_cons_1 in Hgrants as [G4 Hgrants].
  apply Forall_cons_1 in Hgrants as [G5 _].
  unfold Grant.fns.
  do 4 (eapply ends_cons; [done|eassumption|]).
  eapply ends_cons; [done| |].
  { apply checkGrantType_triple; try done;
      intros w (_ & _ & Hun); by apply unanswered_sends_nothing. }
  eapply ends_cons; [done|eassumption|].
  eapply ends_cons; [done|apply generateAccessToken_generates|].
  eapply ends_cons; [done|apply saveAccessToken_issues|].
  eapply ends_cons; [done|apply generateRefreshToken_generates|].
  eapply ends_cons; [done|apply saveRefreshToken_issues|].
  apply ends_last, sendResponse_sends_issued_tokens.
Qed.
End IssuedTokens.

(** X11.  A response carries [token_type] [bearer] and the tokens of this
    run: its [access_token] is what the generator returned for the access
    token (the marker's string for a reissue marker), and its
    [refresh_token] likewise for the refresh token, the field being absent
    when no refresh token was generated or the generator returned a falsy
    value. *)
Theorem response_carries_the_generated_tokens
    (m : Model) (cfg : Config) (rq : Request) (clock : Z)
    (globals : gmap string JSValue) (x : JSValue) :
  Respond x ∈ events (final (Grant.Grant m cfg rq clock globals)) ->
  prop x "token_type" = VStr "bearer"
  /\ (exists r, Token AccessTokenKind r
                  ∈ events (final (Grant.Grant m cfg rq clock globals)))
  /\ (forall r, Token AccessTokenKind r
                  ∈ events (final (Grant.Grant m cfg rq clock globals)) ->
        prop x "access_token" = issued AccessTokenKind (r_val r))
  /\ (forall r, Token RefreshTokenKind r
                  ∈ events (final (Grant.Grant m cfg rq clock globals)) ->
        prop x "refresh_token" =
          if truthy (r_val r) then issued RefreshTokenKind (r_val r) else VUndefined)
  /\ (not_generated RefreshTokenKind
        (events (final (Grant.Grant m cfg rq clock globals))) ->
      prop x "refresh_token" = VUndefined).
Proof.
  unfold Grant.Grant, Grant.lib_runner.
  apply (ends_runner _ _ _ _ (Grant_ends_sending_issued_tokens m)).
  repeat split; simpl; try done; by intros ? ?%elem_of_nil.
Qed.

Lemma response_carries_the_generated_tokens_witness :
  prop (VObj (<["refresh_token" := VStr "r3fresh"]>
                (<["expires_in" := VNum 3600]>
                   (<["access_token" := VStr "t0ken"]>
                      {["token_type" := VStr "bearer"]})))) "access_token"
  = issued AccessTokenKind (r_val (ok (VObj {["accessToken" := VStr "t0ken"]}))).
Proof.
  apply (response_carries_the_generated_tokens
           (sample_model (VObj {["id" := VNum 7]})
              (VObj {["accessToken" := VStr "t0ken"]}) (VStr "r3fresh"))
           (sample_config (LSeconds 3600) false) password_request 1000 ∅
           (VObj (<["refresh_token" := VStr "r3fresh"]>
                    (<["expires_in" := VNum 3600]>
                       (<["access_token" := VStr "t0ken"]>
                          {["token_type" := VStr "bearer"]})))));
    in_log.
Defined.


(** ** The expiry of the saved tokens *)

(** Below [2^53] every integer is a double. *)
Lemma fl_small (z : Z) : Z.abs z < 9007199254740992 -> fl z = z.
Proof.
  intros Hz. unfold fl. change (2 ^ 53) with 9007199254740992.
  by rewrite (proj2 (Z.ltb_lt _ _) Hz).
Qed.

(** Where the offset from UTC never changes, a number of seconds is added
    to the clock reading as it is, as long as the result is a date. *)
Lemma seconds_after_fixed_offset (z : Zone) (c clock n : Z) :
  fixed_offset z c -> 0 <= clock -> 0 <= n ->
  clock + 1000 * n <= 8640000000000000 ->
  seconds_after z clock n = VDate (Some (clock + 1000 * n)).
Proof.
  intros (Hc & Hutc & Hlocal) Hclock Hn Hmax. unfold msPerDay in Hc.
  unfold seconds_after, getSeconds, setSeconds, LocalTime, MakeDate,
    msPerDay, msPerHour, msPerMinute, msPerSecond.
  rewrite Hutc, Hlocal. f_equal.
  set (local := clock + c).
  assert (local = clock + c) as Hl by done. clearbody local.
  rewrite (fl_small ((local / 1000) mod 60 + n))
    by (Z.div_mod_to_equations; lia).
  change (0 <=? 0) with true. cbv iota. rewrite Z.pow_0_r, Z.mul_1_r.
  rewrite (fl_small ((local / 3600000) mod 24 * 3600000
                     + (local / 60000) mod 60 * 60000))
    by (Z.div_mod_to_equations; lia).
  rewrite (fl_small (((local / 1000) mod 60 + n) * 1000))
    by (Z.div_mod_to_equations; lia).
  rewrite (fl_small ((local / 3600000) mod 24 * 3600000
                     + (local / 60000) mod 60 * 60000
                     + ((local / 1000) mod 60 + n) * 1000))
    by (Z.div_mod_to_equations; lia).
  rewrite (fl_small ((local / 3600000) mod 24 * 3600000
                     + (local / 60000) mod 60 * 60000
                     + ((local / 1000) mod 60 + n) * 1000 + local mod 1000))
    by (Z.div_mod_to_equations; lia).
  rewrite (fl_small (local / 86400000 * 86400000))
    by (Z.div_mod_to_equations; lia).
  assert (local / 86400000 * 86400000
          + ((local / 3600000) mod 24 * 3600000
             + (local / 60000) mod 60 * 60000
             + ((local / 1000) mod 60 + n) * 1000 + local mod 1000)
          = local + 1000 * n) as ->
    by (Z.div_mod_to_equations; lia).
  rewrite (fl_small (local + 1000 * n)) by lia.
  rewrite (fl_small (local + 1000 * n - c)) by lia.
  unfold TimeClip.
  rewrite (proj2 (Z.leb_le _ _)) by lia.
  f_equal. lia.
Qed.

(** Across a change of the offset the seconds are added to the local time:
    an hour added before the clock is set back by an hour ends two hours
    later.  Beyond the range of dates the result is an Invalid Date. *)
Lemma seconds_are_added_to_local_time :
  add_seconds clock_set_back 1000 (VNum 3600) = Some (VDate (Some 7201000))
  /\ add_seconds UTC 1000 (VNum 3600) = Some (VDate (Some 3601000))
  /\ add_seconds UTC 1000 (VNum 8640000000000) = Some (VDate None)
  /\ add_seconds UTC 8640000000000000 (VNum 1) = Some (VDate None).
Proof. by split_and!. Qed.

(** The expiry of a save step is [add_seconds] of the lifetime it resolved
    for the client, which is never [null]. *)
Lemma expiry_resolved (z : Zone) (l : Lifetime) (id : option string) (clock : Z)
    (v : JSValue) :
  index l (key_of id) = Some v ->
  is_null (if negb (is_undefined v) then v else lifetime_value l) = false
  /\ saved_expiry z l id clock
     = add_seconds z clock (if negb (is_undefined v) then v else lifetime_value l).
Proof.
  destruct l as [|n|mp]; [done|..]; unfold index; intros [= <-];
    unfold saved_expiry, inherited.
  - destruct (bool_decide (key_of id ∈ methods Number_prototype)); [done|].
    by destruct (String.eqb (key_of id) "__proto__").
  - destruct (mp !! key_of id); [done|].
    destruct (bool_decide (key_of id ∈ methods Object_prototype)); [done|].
    destruct (String.eqb (key_of id) "__proto__"); [done|]. simpl.
    split; [done|].
    unfold add_seconds, plus, unconvertible. rewrite lookup_fmap.
    by destruct (mp !! "toString").
Qed.

Section SavedExpiry.
Variable m : Model.
Variable cfg : Config.
Variable clock : Z.
Variable rq : Request.

Lemma extractCredentials_starts_dating :
  triple (started_at cfg clock rq) Grant.extractCredentials
    (fun _ => dating (zone m) cfg clock rq) (all_dated (zone m) cfg clock rq).
Proof.
  intros w ([Hcfg Hnow] & Hreq & Hev). unfold dating, all_dated, fixed, creds.
  step_paths; rewrite ?Hev; first [by constructor|split_and!; by eauto].
Qed.

(** The equations a path through a save step leaves behind give the expiry
    that [saved_expiry] states. *)
Ltac resolve_expiry :=
  match goal with
  | Hv : index ?l _ = Some ?v |- saved_expiry ?z ?l _ ?t = _ =>
      destruct (expiry_resolved z _ _ t _ Hv) as [Hnn ->];
      repeat match goal with
             | H : negb (is_undefined _) = _ |- _ => rewrite H in *; clear H
             end;
      simpl in *;
      repeat match goal with
             | H : negb (is_null _) = _ |- _ => rewrite ?Hnn in H; simpl in H
             end;
      congruence
  end.

Lemma Grant_steps_date_their_saves :
  Forall (fun f => triple (dating (zone m) cfg clock rq) f
                     (fun _ => dating (zone m) cfg clock rq)
                     (all_dated (zone m) cfg clock rq))
    [ GrantBase.checkClient m; Grant.exposeClient;
      Grant.checkGrantTypeAllowed m; Grant.exposeUser;
      GrantBase.generateAccessToken m; GrantBase.saveAccessToken m;
      GrantBase.generateRefreshToken m; GrantBase.saveRefreshToken m ]
  /\ Forall (fun f => triple (dating (zone m) cfg clock rq) f
                        (fun _ => dating (zone m) cfg clock rq)
                        (all_dated (zone m) cfg clock rq))
       [ Grant.useExtendedGrant m; Grant.useAuthCodeGrant m;
         Grant.usePasswordGrant m; Grant.useRefreshTokenGrant m;
         Grant.useClientCredentialsGrant m ].
Proof.
  split; repeat apply Forall_cons_2; try apply Forall_nil_2;
    intros w ([Hcfg Hnow] & Hclient & Hlog); unfold dating, all_dated, fixed;
    step_paths; try split_and!; log_facts; try done;
    first [ congruence
          | split; [by rewrite <- Hclient|]; resolve_expiry ].
Qed.

Lemma sendResponse_announces_the_expiry :
  triple (dating (zone m) cfg clock rq) Grant.sendResponse
    (fun r w' => all_dated (zone m) cfg clock rq (Called VNull r) w')
    (all_dated (zone m) cfg clock rq).
Proof.
  intros w ([Hcfg Hnow] & Hclient & Hlog); unfold all_dated.
  step_paths; log_facts; try done;
    intros id exp Hid Hexp;
    first [ rewrite <- Hclient in Hid; simpl in Hid; injection Hid as <-;
            match goal with
            | Hv : index _ _ = Some _, Hu : negb (is_undefined _) = _ |- _ =>
                match type of Hexp with
                | saved_expiry ?z _ _ ?t = _ =>
                    destruct (expiry_resolved z _ _ t _ Hv) as [_ Hr]
                end;
                rewrite Hr, Hu in Hexp; exact Hexp
            end
          | by destruct (accessTokenLifetime _) ].
Qed.

Lemma Grant_ends_dating_its_saves :
  ends (started_at cfg clock rq) (Grant.fns m) (all_dated (zone m) cfg clock rq).
Proof.
  destruct Grant_steps_date_their_saves as [Hsteps Hgrants].
  apply Forall_cons_1 in Hsteps as [H1 Hsteps].
  apply Forall_cons_1 in Hsteps as [H2 Hsteps].
  apply Forall_cons_1 in Hsteps as [H3 Hsteps].
  apply Forall_cons_1 in Hgrants as [G1 Hgrants].
  apply Forall_cons_1 in Hgrants as [G2 Hgrants].
  apply Forall_cons_1 in Hgrants as [G3 Hgrants].
  apply Forall_cons_1 in Hgrants as [G4 Hgrants].
  apply Forall_cons_1 in Hgrants as [G5 _].
  apply (Grant_ends_through m _ (dating (zone m) cfg clock rq));
    [apply extractCredentials_starts_dating| |apply sendResponse_announces_the_expiry].
  do 3 (apply Forall_cons_2; [done|]).
  apply Forall_cons_2; [|done].
  apply checkGrantType_triple; try done; by intros w (_ & _ & Hlog).
Qed.
End SavedExpiry.

Lemma Grant_dates_its_saves m cfg rq clock globals :
  Forall (dated (zone m) cfg clock rq)
    (events (final (Grant.Grant m cfg rq clock globals))).
Proof.
  unfold Grant.Grant, Grant.lib_runner.
  by apply (ends_runner _ _ _ _ (Grant_ends_dating_its_saves m cfg clock rq)).
Qed.

Lemma saved_expiry_is_no_null z l id clock exp :
  saved_expiry z l id clock = Some exp -> exp <> VNull.
Proof.
  intros Hexp ->. revert Hexp. unfold saved_expiry, seconds_after.
  repeat case_match; done.
Qed.

(** X12.  The expiry a run saves with a token is the date that
    [new Date(now)] becomes by [setSeconds(getSeconds() + lifetime)] in the
    time zone of the host, for the lifetime the configuration gives the
    client: the configured number of seconds, or the seconds a mapping
    lists for the client.  For a client the mapping does not list the date
    is an Invalid Date (and nothing is saved when the mapping has an entry
    named [toString]); under a number of seconds, a client id that names a
    function numbers inherit gives an Invalid Date and the client id
    [__proto__] counts as 0 seconds.  No token is saved under a [null]
    lifetime, and no saved expiry is [null].  Where the offset of the host
    from UTC is fixed, [n] seconds give the clock reading plus [n] seconds,
    for a clock reading after the epoch and a result within the range of
    dates. *)
Theorem saved_tokens_expire_by_the_configured_lifetime
    (m : Model) (cfg : Config) (rq : Request) (clock : Z)
    (globals : gmap string JSValue) :
  (forall t id exp u g r,
     Storage (SaveAccessToken t id exp u g) r
       ∈ events (final (Grant.Grant m cfg rq clock globals)) ->
     saved_expiry (zone m) (accessTokenLifetime cfg) id clock = Some exp
     /\ exp <> VNull)
  /\ (forall t id exp u r,
        Storage (SaveRefreshToken t id exp u) r
          ∈ events (final (Grant.Grant m cfg rq clock globals)) ->
        saved_expiry (zone m) (refreshTokenLifetime cfg) id clock = Some exp
        /\ exp <> VNull)
  /\ (forall c n,
        fixed_offset (zone m) c -> 0 <= clock -> 0 <= n ->
        clock + 1000 * n <= 8640000000000000 ->
        seconds_after (zone m) clock n = VDate (Some (clock + 1000 * n))).
Proof.
  pose proof (Grant_dates_its_saves m cfg rq clock globals) as Hlog.
  split_and!;
    [| |intros c n Hfix ? ? ?; by apply (seconds_after_fixed_offset _ c)];
    intros; match goal with
    | Hin : _ ∈ _ |- _ =>
        destruct (proj1 (Forall_forall _ _) Hlog _ Hin) as [_ Hexp]
    end; (split; [done|]); by eapply saved_expiry_is_no_null.
Qed.

Lemma saved_tokens_expire_by_the_configured_lifetime_witness :
  saved_expiry UTC per_client (Some "thom") 1000 = Some (VDate (Some 3601000))
  /\ VDate (Some 3601000) <> VNull.
Proof.
  apply (proj1 (saved_tokens_expire_by_the_configured_lifetime
                  (sample_model (VObj {["id" := VNum 7]}) (VStr "t0ken") (VStr "r3fresh"))
                  (sample_config per_client false) password_request 1000 ∅)
           (VStr "t0ken") (Some "thom") (VDate (Some 3601000))
           (VObj {["id" := VNum 7]}) (Some "password") (ok VUndefined)).
  in_log.
Defined.

(** X13.  The expiry saved with the access token is the date that
    [new Date(now)] becomes by [setSeconds(getSeconds() + expires_in)], for
    the [expires_in] that the response of the same run announces.  Where
    the offset of the host from UTC is fixed and [expires_in] is a number,
    that is the clock reading plus [expires_in] seconds, for a clock reading
    after the epoch and a result within the range of dates. *)
Theorem saved_expiry_matches_expires_in
    (m : Model) (cfg : Config) (rq : Request) (clock : Z)
    (globals : gmap string JSValue) (x t exp u : JSValue)
    (id g : option string) (r : Reply) :
  Respond x ∈ events (final (Grant.Grant m cfg rq clock globals)) ->
  Storage (SaveAccessToken t id exp u g) r
    ∈ events (final (Grant.Grant m cfg rq clock globals)) ->
  add_seconds (zone m) clock (prop x "expires_in") = Some exp
  /\ (forall c n,
        fixed_offset (zone m) c -> prop x "expires_in" = VNum n ->
        0 <= clock -> 0 <= n -> clock + 1000 * n <= 8640000000000000 ->
        exp = VDate (Some (clock + 1000 * n))).
Proof.
  intros Hx Hsave.
  pose proof (Grant_dates_its_saves m cfg rq clock globals) as Hlog.
  destruct (proj1 (Forall_forall _ _) Hlog _ Hsave) as [Hid Hexp].
  pose proof (proj1 (Forall_forall _ _) Hlog _ Hx id exp Hid Hexp) as Hadd.
  split; [done|]. intros c n Hfix Hn Hclock Hpos Hmax.
  rewrite Hn in Hadd. injection Hadd as <-.
  by apply (seconds_after_fixed_offset _ c).
Qed.

Lemma saved_expiry_matches_expires_in_witness :
  add_seconds UTC 1000
    (prop (VObj (<["refresh_token" := VStr "r3fresh"]>
                   (<["expires_in" := VNum 3600]>
                      (<["access_token" := VStr "t0ken"]>
                         {["token_type" := VStr "bearer"]})))) "expires_in")
  = Some (VDate (Some 3601000)).
Proof.
  apply (proj1 (saved_expiry_matches_expires_in
           (sample_model (VObj {["id" := VNum 7]}) (VStr "t0ken") (VStr "r3fresh"))
           (sample_config per_client false) password_request 1000 ∅
           (VObj (<["refresh_token" := VStr "r3fresh"]>
                    (<["expires_in" := VNum 3600]>
                       (<["access_token" := VStr "t0ken"]>
                          {["token_type" := VStr "bearer"]}))))
           (VStr "t0ken") (VDate (Some 3601000)) (VObj {["id" := VNum 7]})
           (Some "thom") (Some "password") (ok VUndefined)
           ltac:(in_log) ltac:(in_log))).
Defined.

(** ** The calls of the pre-approved pipelines *)

(** The expiry of a save step of the first module is [add_seconds] of the
    configured lifetime, unless that is [null]. *)
Lemma flat_expiry_resolved (z : Zone) (l : Lifetime) (clock : Z) :
  flat_expiry z l clock
  = if negb (is_null (lifetime_value l))
    then add_seconds z clock (lifetime_value l) else Some VNull.
Proof.
  destruct l as [|n|mp]; [done..|]. simpl.
  unfold add_seconds, plus, unconvertible. rewrite lookup_fmap.
  by destruct (mp !! "toString").
Qed.

Section PreApprovedCalls.
Variable m : Model.
Variable p : PreApproved.
Variable cfg : Config.
Variable clock : Z.

Lemma PreApproved1_steps_call_for_the_given :
  triple (preApproved_started p (Some "preApproved") cfg clock)
    PreApproved1.extractPreApprovedCredentials
    (fun _ => preApproved_checked p (Some "preApproved")
                (fun l => flat_expiry (zone m) l clock) cfg clock)
    (preApproved_calls p (Some "preApproved") (fun l => flat_expiry (zone m) l clock) cfg)
  /\ triple (preApproved_checked p (Some "preApproved")
              (fun l => flat_expiry (zone m) l clock) cfg clock)
       (PreApproved1.checkClient m)
       (fun _ => preApproved_checked p (Some "preApproved")
                   (fun l => flat_expiry (zone m) l clock) cfg clock)
       (preApproved_calls p (Some "preApproved") (fun l => flat_expiry (zone m) l clock) cfg)
  /\ triple (preApproved_checked p (Some "preApproved")
              (fun l => flat_expiry (zone m) l clock) cfg clock)
       PreApproved1.checkGrantType
       (fun _ => preApproved_granted p (Some "preApproved")
                   (fun l => flat_expiry (zone m) l clock) cfg clock)
       (preApproved_calls p (Some "preApproved") (fun l => flat_expiry (zone m) l clock) cfg)
  /\ Forall (fun f =>
       triple (preApproved_granted p (Some "preApproved")
                 (fun l => flat_expiry (zone m) l clock) cfg clock) f
         (fun _ => preApproved_granted p (Some "preApproved")
                     (fun l => flat_expiry (zone m) l clock) cfg clock)
         (preApproved_calls p (Some "preApproved")
            (fun l => flat_expiry (zone m) l clock) cfg))
       [ PreApproved1.generateAccessToken m; PreApproved1.saveAccessToken m;
         PreApproved1.generateRefreshToken m; PreApproved1.saveRefreshToken m ].
Proof.
  split_and!; [..|repeat apply Forall_cons_2; [..|apply Forall_nil_2]];
    intros w;
    unfold preApproved_started, preApproved_granted, preApproved_checked,
      preApproved_calls, fixed;
    intros; destruct_and?;
    unfold_preApproved_steps; step_paths;
    repeat match goal with H : events _ = [] |- _ => rewrite H end;
    try split_and!; log_facts; try done;
    split_and!; try done;
    rewrite flat_expiry_resolved;
    repeat match goal with
           | H : negb _ = _ |- _ => rewrite H; clear H
           end;
    done.
Qed.

Lemma PreApproved1_ends_calling_for_the_given :
  ends (preApproved_started p (Some "preApproved") cfg clock) (PreApproved1.fns m)
    (preApproved_calls p (Some "preApproved") (fun l => flat_expiry (zone m) l clock) cfg).
Proof.
  destruct PreApproved1_steps_call_for_the_given as (H1 & H2 & H3 & Hrest).
  unfold PreApproved1.fns.
  eapply ends_cons; [done|exact H1|].
  eapply ends_cons; [done|exact H2|].
  eapply ends_cons; [done|exact H3|].
  apply (ends_uniform _ _ _ _ Hrest).
  intros w ((_ & _ & _ & _ & Hlog) & _).
  unfold_preApproved_steps. by step_paths.
Qed.
End PreApprovedCalls.

(** X14.  The first pre-approved pipeline asks the storage for nothing but
    the client with the given credentials and the two saves, and sends
    nothing to a transport.  Its saves name the given client and user and
    the grant type [preApproved]; the expiry is the date that
    [new Date(now)] becomes by [setSeconds(getSeconds() + lifetime)] in the
    time zone of the host for the configured number of seconds, [null] under
    a [null] lifetime, and an Invalid Date under a mapping, which this
    module does not look into (when the mapping has an entry named
    [toString] the addition throws and nothing is saved). *)
Theorem PreApproved1_calls
    (m : Model) (cfg : Config) (p : PreApproved) (clock : Z)
    (globals : gmap string JSValue) :
  Forall (preApproved_call p (Some "preApproved")
            (fun l => flat_expiry (zone m) l clock) cfg)
    (events (final (PreApproved1.PreApprovedGrant m cfg p clock globals))).
Proof.
  unfold PreApproved1.PreApprovedGrant.
  destruct (continueAfterResponse cfg); [by constructor|].
  by apply (ends_runner _ _ _ _ (PreApproved1_ends_calling_for_the_given m p cfg clock)).
Qed.


Section PreApproved2Calls.
Variable m : Model.
Variable p : PreApproved.
Variable cfg : Config.
Variable clock : Z.

Lemma PreApproved2_steps_call_for_the_given :
  triple (preApproved_started p (preApproved_grantType p) cfg clock)
    PreApproved2.extractPreApprovedCredentials
    (fun _ => preApproved_checked p (preApproved_grantType p)
                (fun l => saved_expiry (zone m) l (client_id p) clock) cfg clock)
    (preApproved_calls p (preApproved_grantType p)
       (fun l => saved_expiry (zone m) l (client_id p) clock) cfg)
  /\ triple (preApproved_checked p (preApproved_grantType p)
              (fun l => saved_expiry (zone m) l (client_id p) clock) cfg clock)
       (GrantBase.checkClient m)
       (fun _ => preApproved_checked p (preApproved_grantType p)
                   (fun l => saved_expiry (zone m) l (client_id p) clock) cfg clock)
       (preApproved_calls p (preApproved_grantType p)
          (fun l => saved_expiry (zone m) l (client_id p) clock) cfg)
  /\ triple (preApproved_checked p (preApproved_grantType p)
              (fun l => saved_expiry (zone m) l (client_id p) clock) cfg clock)
       PreApproved2.checkGrantType
       (fun _ => preApproved_granted p (preApproved_grantType p)
                   (fun l => saved_expiry (zone m) l (client_id p) clock) cfg clock)
       (preApproved_calls p (preApproved_grantType p)
          (fun l => saved_expiry (zone m) l (client_id p) clock) cfg)
  /\ Forall (fun f =>
       triple (preApproved_granted p (preApproved_grantType p)
                 (fun l => saved_expiry (zone m) l (client_id p) clock) cfg clock) f
         (fun _ => preApproved_granted p (preApproved_grantType p)
                     (fun l => saved_expiry (zone m) l (client_id p) clock) cfg clock)
         (preApproved_calls p (preApproved_grantType p)
            (fun l => saved_expiry (zone m) l (client_id p) clock) cfg))
       [ GrantBase.generateAccessToken m; GrantBase.saveAccessToken m;
         GrantBase.generateRefreshToken m; GrantBase.saveRefreshToken m ].
Proof.
  split_and!; [..|repeat apply Forall_cons_2; [..|apply Forall_nil_2]];
    intros w;
    unfold preApproved_started, preApproved_granted, preApproved_checked,
      preApproved_calls, fixed;
    intros; destruct_and?;
    unfold_preApproved_steps; step_paths;
    repeat match goal with H : events _ = [] |- _ => rewrite H end;
    try split_and!; log_facts; try done;
    split_and!; try done;
    match goal with
    | Hv : index ?l _ = Some ?v |- saved_expiry ?z ?l _ ?t = _ =>
        destruct (expiry_resolved z _ _ t _ Hv) as [Hnn ->]
    end;
    repeat match goal with
           | H : negb (is_undefined _) = _ |- _ => rewrite H in *; clear H
           end;
    simpl in *;
    repeat match goal with
           | H : negb (is_null _) = _ |- _ => rewrite ?Hnn in H; simpl in H
           end;
    congruence.
Qed.

Lemma PreApproved2_ends_calling_for_the_given :
  ends (preApproved_started p (preApproved_grantType p) cfg clock) (PreApproved2.fns m)
    (preApproved_calls p (preApproved_grantType p)
       (fun l => saved_expiry (zone m) l (client_id p) clock) cfg).
Proof.
  destruct PreApproved2_steps_call_for_the_given as (H1 & H2 & H3 & Hrest).
  unfold PreApproved2.fns.
  eapply ends_cons; [done|exact H1|].
  eapply ends_cons; [done|exact H2|].
  eapply ends_cons; [done|exact H3|].
  apply (ends_uniform _ _ _ _ Hrest).
  intros w ((_ & _ & _ & _ & Hlog) & _).
  unfold_preApproved_steps. by step_paths.
Qed.
End PreApproved2Calls.

(** X15.  The second pre-approved pipeline makes the same calls, with two
    differences: its saves name the grant type given with the pre-approval
    (when there is a truthy one), and their expiry follows the rule of the
    full pipeline: [setSeconds(getSeconds() + lifetime)] on the clock
    reading in the time zone of the host, for the lifetime resolved for the
    client, per-client lifetimes and the properties inherited under the
    client id included, so that nothing is saved under a [null] lifetime. *)
Theorem PreApproved2_calls
    (m : Model) (cfg : Config) (p : PreApproved) (clock : Z)
    (globals : gmap string JSValue) :
  Forall (preApproved_call p (preApproved_grantType p)
            (fun l => saved_expiry (zone m) l (client_id p) clock) cfg)
    (events (final (PreApproved2.PreApprovedGrant m cfg p clock globals))).
Proof.
  unfold PreApproved2.PreApprovedGrant.
  by apply (ends_runner _ _ _ _ (PreApproved2_ends_calling_for_the_given m p cfg clock)).
Qed.

(** ** Pre-approvals that are not well formed *)

Lemma extractPreApprovedCredentials_validates (cfg : Config) (p : PreApproved) :
  Forall (fun f => triple (preApproved_given cfg p) f
                     (fun _ _ => preApproved_well_formed cfg p)
                     (idle_unless (preApproved_well_formed cfg p)))
    [ PreApproved1.extractPreApprovedCredentials;
      PreApproved2.extractPreApprovedCredentials ].
Proof.
  repeat apply Forall_cons_2; [..|apply Forall_nil_2];
    intros w (Hcfg & Hp & Hev); unfold idle_unless, preApproved_well_formed;
    unfold_preApproved_steps; step_paths; try by left.
  all: destruct (client_id p) eqn:Hid, (client_secret p) eqn:Hsecret;
    simplify_eq/=; bool_facts.
  all: split; [done|]; eexists _, _; split_and!; first [reflexivity|eassumption].
Qed.

Lemma PreApproved_ends_idle_unless_well_formed (m : Model) (cfg : Config)
    (p : PreApproved) :
  ends (preApproved_given cfg p) (PreApproved1.fns m)
    (idle_unless (preApproved_well_formed cfg p))
  /\ ends (preApproved_given cfg p) (PreApproved2.fns m)
       (idle_unless (preApproved_well_formed cfg p)).
Proof.
  pose proof (extractPreApprovedCredentials_validates cfg p) as Hfirst.
  apply Forall_cons_1 in Hfirst as [H1 Hfirst].
  apply Forall_cons_1 in Hfirst as [H2 _].
  assert (forall f : Step World,
            triple (fun _ => preApproved_well_formed cfg p) f
              (fun r w' => idle_unless (preApproved_well_formed cfg p) (Called VNull r) w')
              (idle_unless (preApproved_well_formed cfg p))) as Hlast.
  { intros f w Hwf. destruct (f w) as [[e r| |x] w']; [|by right..].
    destruct (truthy e); by right. }
  split.
  - unfold PreApproved1.fns. eapply ends_cons; [done|exact H1|].
    apply (ends_uniform (fun _ => preApproved_well_formed cfg p)
             (idle_unless (preApproved_well_formed cfg p))
             [ PreApproved1.checkClient m; PreApproved1.checkGrantType;
               PreApproved1.generateAccessToken m; PreApproved1.saveAccessToken m;
               PreApproved1.generateRefreshToken m; PreApproved1.saveRefreshToken m ]
             PreApproved1.returnPreApprovedResponse); [|apply Hlast].
    repeat apply Forall_cons_2; [..|apply Forall_nil_2];
      apply triple_const; intros; by right.
  - unfold PreApproved2.fns. eapply ends_cons; [done|exact H2|].
    apply (ends_uniform (fun _ => preApproved_well_formed cfg p)
             (idle_unless (preApproved_well_formed cfg p))
             [ GrantBase.checkClient m; PreApproved2.checkGrantType;
               GrantBase.generateAccessToken m; GrantBase.saveAccessToken m;
               GrantBase.generateRefreshToken m; GrantBase.saveRefreshToken m ]
             PreApproved2.returnPreApprovedResponse); [|apply Hlast].
    repeat apply Forall_cons_2; [..|apply Forall_nil_2];
      apply triple_const; intros; by right.
Qed.

(** X16.  Either pre-approved pipeline invokes a collaborator only for a
    pre-approval with a truthy user, a client id that matches the
    configured pattern and a client secret. *)
Theorem preApproved_collaborators_only_when_well_formed
    (m : Model) (cfg : Config) (p : PreApproved) (clock : Z)
    (globals : gmap string JSValue) (R : Run World) (e : Event) :
  R = PreApproved1.PreApprovedGrant m cfg p clock globals
  \/ R = PreApproved2.PreApprovedGrant m cfg p clock globals ->
  e ∈ events (final R) ->
  preApproved_well_formed cfg p.
Proof.
  intros HR Hin.
  assert (idle_unless (preApproved_well_formed cfg p) (outcome R) (final R)) as H.
  { destruct (PreApproved_ends_idle_unless_well_formed m cfg p) as [E1 E2].
    destruct HR as [-> | ->].
    - unfold PreApproved1.PreApprovedGrant.
      destruct (continueAfterResponse cfg); [by left|].
      by apply (ends_runner _ _ _ _ E1).
    - unfold PreApproved2.PreApprovedGrant.
      by apply (ends_runner _ _ _ _ E2). }
  destruct H as [Hev|Hwf]; [|done].
  rewrite Hev in Hin. by apply elem_of_nil in Hin.
Qed.

Lemma preApproved_collaborators_only_when_well_formed_witness :
  preApproved_well_formed (sample_config (LSeconds 3600) false) sample_preApproved.
Proof.
  apply (preApproved_collaborators_only_when_well_formed
           (sample_model VUndefined (VStr "t0ken") (VStr "r3fresh"))
           (sample_config (LSeconds 3600) false) sample_preApproved 1000 ∅
           (PreApproved2.PreApprovedGrant
              (sample_model VUndefined (VStr "t0ken") (VStr "r3fresh"))
              (sample_config (LSeconds 3600) false) sample_preApproved 1000 ∅)
           (Storage (GetClient (Some "thom") (Some "nightworld"))
              (ok (VObj {["name" := VStr "Thom"]}))));
    [by right|in_log].
Defined.

(** ** The two pre-approved modules side by side *)

Section InStep.
Context {W : Type}.
Variable inv : W -> W -> Prop.
Variable same : W -> W -> Prop.
Hypothesis inv_same : forall w1 w2, inv w1 w2 -> same w1 w2.

Lemma run_list_in_step (fs1 fs2 : list (Step W)) :
  Forall2 (fun f1 f2 =>
             forall w1 w2, inv w1 w2 ->
               fst (f1 w1) = fst (f2 w2) /\ inv (snd (f1 w1)) (snd (f2 w2))) fs1 fs2 ->
  forall pos tr w1 w2, inv w1 w2 ->
    outcome (run_list pos tr fs1 w1) = outcome (run_list pos tr fs2 w2)
    /\ ran (run_list pos tr fs1 w1) = ran (run_list pos tr fs2 w2)
    /\ same (final (run_list pos tr fs1 w1)) (final (run_list pos tr fs2 w2)).
Proof.
  induction 1 as [|f1 f2 fs1 fs2 Hf Hrest IH]; intros pos tr w1 w2 HS; [by auto|].
  simpl. destruct (Hf w1 w2 HS) as [Hc HS'].
  destruct (f1 w1) as [c1 w1'], (f2 w2) as [c2 w2']. simpl in *. subst c2.
  destruct c1 as [e r| |x]; [|by auto..].
  destruct (truthy e); [by auto|].
  destruct Hrest as [|g1 g2 gs1 gs2 Hg Hgs]; [by auto|].
  by apply IH.
Qed.

(** The same when the first steps establish [inv] from [start]. *)
Lemma run_list_in_step_from (start : W -> W -> Prop) (f1 f2 g1 g2 : Step W)
    (fs1 fs2 : list (Step W)) :
  (forall w1 w2, start w1 w2 ->
     fst (f1 w1) = fst (f2 w2) /\ same (snd (f1 w1)) (snd (f2 w2))
     /\ (forall r, fst (f1 w1) = Done r.1 r.2 -> truthy r.1 = false ->
           inv (snd (f1 w1)) (snd (f2 w2)))) ->
  Forall2 (fun f1 f2 =>
             forall w1 w2, inv w1 w2 ->
               fst (f1 w1) = fst (f2 w2) /\ inv (snd (f1 w1)) (snd (f2 w2)))
    (g1 :: fs1) (g2 :: fs2) ->
  forall pos tr w1 w2, start w1 w2 ->
    outcome (run_list pos tr (f1 :: g1 :: fs1) w1)
      = outcome (run_list pos tr (f2 :: g2 :: fs2) w2)
    /\ ran (run_list pos tr (f1 :: g1 :: fs1) w1)
       = ran (run_list pos tr (f2 :: g2 :: fs2) w2)
    /\ same (final (run_list pos tr (f1 :: g1 :: fs1) w1))
         (final (run_list pos tr (f2 :: g2 :: fs2) w2)).
Proof.
  intros Hf Hrest pos tr w1 w2 Hstart.
  destruct (Hf w1 w2 Hstart) as (Hc & HE & HS).
  cbn [run_list].
  destruct (f1 w1) as [c1 w1'], (f2 w2) as [c2 w2']. simpl in *. subst c2.
  destruct c1 as [e r| |x]; [|by auto..].
  destruct (truthy e) eqn:He; [by auto|].
  apply (run_list_in_step _ _ Hrest). by apply (HS (e, r)).
Qed.
End InStep.

Lemma PreApproved_first_steps_in_step (cfg : Config) (p : PreApproved) :
  forall w1 w2, both_started cfg p w1 w2 ->
    fst (PreApproved1.extractPreApprovedCredentials w1)
      = fst (PreApproved2.extractPreApprovedCredentials w2)
    /\ same_state (snd (PreApproved1.extractPreApprovedCredentials w1))
         (snd (PreApproved2.extractPreApprovedCredentials w2))
    /\ (forall r,
          fst (PreApproved1.extractPreApprovedCredentials w1) = Done r.1 r.2 ->
          truthy r.1 = false ->
          in_step cfg p (snd (PreApproved1.extractPreApprovedCredentials w1))
            (snd (PreApproved2.extractPreApprovedCredentials w2))).
Proof.
  intros [c1 r1 l1] [c2 r2 l2] (([= <-] & [= <-]) & Hcfg & Hp); simpl in *.
  unfold in_step, both_started, same_state.
  unfold_preApproved_steps; unfold_steps; simpl. rewrite Hp.
  repeat (case_match; simplify_eq/=; try done);
    (split_and!; [done..|]); intros [e r] [= <- <-] He; by rewrite ?error_truthy in He.
Qed.
Section SideBySide.
Variable m : Model.
Variable cfg : Config.
Variable p : PreApproved.
Hypothesis Haccess : plain_lifetime (accessTokenLifetime cfg) (client_id p).
Hypothesis Hrefresh : plain_lifetime (refreshTokenLifetime cfg) (client_id p).

Lemma PreApproved_steps_in_step :
  Forall2 (fun f1 f2 =>
             forall w1 w2, in_step cfg p w1 w2 ->
               fst (f1 w1) = fst (f2 w2) /\ in_step cfg p (snd (f1 w1)) (snd (f2 w2)))
    [ PreApproved1.checkClient m; PreApproved1.checkGrantType;
      PreApproved1.generateAccessToken m; PreApproved1.saveAccessToken m;
      PreApproved1.generateRefreshToken m; PreApproved1.saveRefreshToken m;
      PreApproved1.returnPreApprovedResponse ]
    [ GrantBase.checkClient m; PreApproved2.checkGrantType;
      GrantBase.generateAccessToken m; GrantBase.saveAccessToken m;
      GrantBase.generateRefreshToken m; GrantBase.saveRefreshToken m;
      PreApproved2.returnPreApprovedResponse ].
Proof.
  destruct Haccess as [[na Hla] Hia], Hrefresh as [[nr Hlr] Hir].
  repeat apply Forall2_cons_2; [..|apply Forall2_nil_2];
    intros [c1 r1 l1] [c2 r2 l2] ((([= <-] & [= <-]) & Hcfg & Hp) & Hc); simpl in *;
    subst cfg;
    unfold in_step, both_started, same_state;
    unfold_preApproved_steps; unfold_steps; simpl;
    rewrite ?Hp, ?Hla, ?Hlr, ?Hc; simpl; rewrite ?Hia; simpl;
    repeat (case_match; simplify_eq/=; try done);
    simpl; by split_and!.
Qed.

End SideBySide.

(** X17.  Under lifetimes that are plain numbers of seconds (and a client
    id that names no inherited property of numbers), without a grant type in
    the pre-approval and without [continueAfterResponse], the two
    pre-approved modules do the same: the same steps run with the same
    completions, the same calls are made with the same arguments, the same
    answer reaches the final callback and the grant object ends up the
    same. *)
Theorem PreApproved_modules_agree
    (m : Model) (cfg : Config) (p : PreApproved) (clock : Z)
    (globals : gmap string JSValue) :
  plain_lifetime (accessTokenLifetime cfg) (client_id p) ->
  plain_lifetime (refreshTokenLifetime cfg) (client_id p) ->
  truthy (of_param (grant_type p)) = false ->
  continueAfterResponse cfg = false ->
  outcome (PreApproved1.PreApprovedGrant m cfg p clock globals)
    = outcome (PreApproved2.PreApprovedGrant m cfg p clock globals)
  /\ ran (PreApproved1.PreApprovedGrant m cfg p clock globals)
     = ran (PreApproved2.PreApprovedGrant m cfg p clock globals)
  /\ events (final (PreApproved1.PreApprovedGrant m cfg p clock globals))
     = events (final (PreApproved2.PreApprovedGrant m cfg p clock globals))
  /\ this (final (PreApproved1.PreApprovedGrant m cfg p clock globals))
     = this (final (PreApproved2.PreApprovedGrant m cfg p clock globals)).
Proof.
  intros Haccess Hrefresh Hgrant Hcontinue.
  unfold PreApproved1.PreApprovedGrant, PreApproved2.PreApprovedGrant.
  rewrite Hcontinue, Hgrant, !runner_run_list.
  unfold PreApproved1.fns, PreApproved2.fns.
  destruct (run_list_in_step_from (in_step cfg p) same_state
              (fun w1 w2 H => proj1 (proj1 H)) (both_started cfg p)
              _ _ _ _ _ _
              (PreApproved_first_steps_in_step cfg p)
              (PreApproved_steps_in_step m cfg p Haccess Hrefresh)
              0%nat []
              {| this :=
                   {| config := cfg; now := clock; req := None; preApproved := Some p;
                      client := None; clientModel := VUndefined; user := VUndefined;
                      grantType := Some "preApproved"; accessToken := VUndefined;
                      refreshToken := VUndefined |};
                 receiver := globals; events := [] |}
              {| this :=
                   {| config := cfg; now := clock; req := None; preApproved := Some p;
                      client := None; clientModel := VUndefined; user := VUndefined;
                      grantType := Some "preApproved"; accessToken := VUndefined;
                      refreshToken := VUndefined |};
                 receiver := globals; events := [] |})
    as (Ho & Hr & Ht & He); [done|].
  by split_and!.
Qed.

Lemma PreApproved_modules_agree_witness :
  outcome (PreApproved1.PreApprovedGrant
             (sample_model VUndefined (VStr "t0ken") (VStr "r3fresh"))
             (sample_config (LSeconds 3600) false) sample_preApproved 1000 ∅)
    = outcome (PreApproved2.PreApprovedGrant
                 (sample_model VUndefined (VStr "t0ken") (VStr "r3fresh"))
                 (sample_config (LSeconds 3600) false) sample_preApproved 1000 ∅)
  /\ ran (PreApproved1.PreApprovedGrant
            (sample_model VUndefined (VStr "t0ken") (VStr "r3fresh"))
            (sample_config (LSeconds 3600) false) sample_preApproved 1000 ∅)
     = ran (PreApproved2.PreApprovedGrant
              (sample_model VUndefined (VStr "t0ken") (VStr "r3fresh"))
              (sample_config (LSeconds 3600) false) sample_preApproved 1000 ∅)
  /\ events (final (PreApproved1.PreApprovedGrant
                      (sample_model VUndefined (VStr "t0ken") (VStr "r3fresh"))
                      (sample_config (LSeconds 3600) false) sample_preApproved 1000 ∅))
     = events (final (PreApproved2.PreApprovedGrant
                        (sample_model VUndefined (VStr "t0ken") (VStr "r3fresh"))
                        (sample_config (LSeconds 3600) false) sample_preApproved 1000 ∅))
  /\ this (final (PreApproved1.PreApprovedGrant
                    (sample_model VUndefined (VStr "t0ken") (VStr "r3fresh"))
                    (sample_config (LSeconds 3600) false) sample_preApproved 1000 ∅))
     = this (final (PreApproved2.PreApprovedGrant
                      (sample_model VUndefined (VStr "t0ken") (VStr "r3fresh"))
                      (sample_config (LSeconds 3600) false) sample_preApproved 1000 ∅)).
Proof.
  apply (PreApproved_modules_agree
           (sample_model VUndefined (VStr "t0ken") (VStr "r3fresh"))
           (sample_config (LSeconds 3600) false) sample_preApproved 1000 ∅);
    [split; [by eexists|reflexivity]..|reflexivity|reflexivity].
Defined.

(** Under a [null] lifetime the modules part ways: the first saves the
    token without expiry, the second throws at the save. *)
Lemma PreApproved_modules_differ_on_null_lifetime :
  outcome (PreApproved1.PreApprovedGrant
             (sample_model VUndefined (VStr "t0ken") (VStr "r3fresh"))
             (sample_config LNull false) sample_preApproved 1000 ∅)
    = Called VNull
        (VObj (<["refresh_token" := VStr "r3fresh"]>
                 (<["access_token" := VStr "t0ken"]>
                    {["token_type" := VStr "bearer"]})))
  /\ Storage (SaveAccessToken (VStr "t0ken") (Some "thom") VNull
                (VObj {["id" := VNum 7]}) (Some "preApproved")) (ok VUndefined)
       ∈ events (final (PreApproved1.PreApprovedGrant
                          (sample_model VUndefined (VStr "t0ken") (VStr "r3fresh"))
                          (sample_config LNull false) sample_preApproved 1000 ∅))
  /\ outcome (PreApproved2.PreApprovedGrant
                (sample_model VUndefined (VStr "t0ken") (VStr "r3fresh"))
                (sample_config LNull false) sample_preApproved 1000 ∅)
     = Uncaught TypeError.
Proof. split_and!; [by vm_compute|in_log|by vm_compute]. Qed.

(** ** Codes and refresh tokens of another client *)

Ltac not_foreign :=
  simpl; first [ tauto | intros (? & ? & ? & ? & ?); congruence ].

Section ForeignRecords.
Variable m : Model.
Variable rq : Request.

Lemma extractCredentials_finds_nothing_foreign :
  triple (started rq) Grant.extractCredentials (fun _ => none_foreign rq)
    (rejects_foreign rq).
Proof.
  intros w [Hreq Hev]. unfold none_foreign, rejects_foreign, creds.
  step_paths; rewrite ?Hev; first [left; by constructor|split; by eauto].
Qed.

Lemma Grant_steps_reject_foreign_records :
  Forall (fun f => triple (none_foreign rq) f (fun _ => none_foreign rq)
                     (rejects_foreign rq))
    [ GrantBase.checkClient m; Grant.exposeClient;
      Grant.checkGrantTypeAllowed m; Grant.exposeUser;
      GrantBase.generateAccessToken m; GrantBase.saveAccessToken m;
      GrantBase.generateRefreshToken m; GrantBase.saveRefreshToken m ]
  /\ Forall (fun f => triple (none_foreign rq) f (fun _ => none_foreign rq)
                        (rejects_foreign rq))
       [ Grant.useExtendedGrant m; Grant.useAuthCodeGrant m;
         Grant.usePasswordGrant m; Grant.useRefreshTokenGrant m;
         Grant.useClientCredentialsGrant m ]
  /\ triple (none_foreign rq) Grant.sendResponse
       (fun r w' => rejects_foreign rq (Called VNull r) w') (rejects_foreign rq).
Proof.
  split_and!; [repeat apply Forall_cons_2; [..|apply Forall_nil_2]..|];
    intros w [Hclient Hlog]; unfold none_foreign, rejects_foreign;
    step_paths; bool_facts;
    first [ left; log_facts; not_foreign
          | split; [congruence|]; log_facts; not_foreign
          | right; eexists _, _, _, _; split_and!; [reflexivity|log_facts|reflexivity..] ].
Qed.

Lemma Grant_ends_rejecting_foreign_records :
  ends (started rq) (Grant.fns m) (rejects_foreign rq).
Proof.
  destruct Grant_steps_reject_foreign_records as (Hsteps & Hgrants & Hlast).
  apply Forall_cons_1 in Hsteps as [H1 Hsteps].
  apply Forall_cons_1 in Hsteps as [H2 Hsteps].
  apply Forall_cons_1 in Hsteps as [H3 Hsteps].
  apply Forall_cons_1 in Hgrants as [G1 Hgrants].
  apply Forall_cons_1 in Hgrants as [G2 Hgrants].
  apply Forall_cons_1 in Hgrants as [G3 Hgrants].
  apply Forall_cons_1 in Hgrants as [G4 Hgrants].
  apply Forall_cons_1 in Hgrants as [G5 _].
  apply (Grant_ends_through m _ (none_foreign rq));
    [apply extractCredentials_finds_nothing_foreign| |done].
  do 3 (apply Forall_cons_2; [done|]).
  apply Forall_cons_2; [|done].
  apply checkGrantType_triple; try done; intros w [_ Hlog]; by left.
Qed.
End ForeignRecords.

(** X18.  When the storage finds an authorization code or a refresh token
    that was issued to another client than the one the request
    authenticates, the run ends at that lookup, and the final callback gets
    the same rejection as for a record that does not exist
    ([invalid_grant]). *)
Theorem foreign_records_are_rejected
    (m : Model) (cfg : Config) (rq : Request) (clock : Z)
    (globals : gmap string JSValue) (e : Event) :
  e ∈ events (final (Grant.Grant m cfg rq clock globals)) ->
  foreign (creds rq) e ->
  (exists c r err,
     e = Storage c r /\ rejection c = Some err
     /\ prop err "kind" = VStr "invalid_grant"
     /\ outcome (Grant.Grant m cfg rq clock globals) = Called err VUndefined)
  /\ last (events (final (Grant.Grant m cfg rq clock globals))) = Some e.
Proof.
  intros Hin Hforeign.
  destruct (ends_runner _ _ _
    {| this := set_req (Some rq) (GrantBase.GrantBase cfg clock);
       receiver := globals; events := [] |}
    (Grant_ends_rejecting_foreign_records m rq))
    as [Hnone|(l & c & r & err & Hev & Hl & Hrej & Ho)]; [done|..];
    unfold Grant.Grant, Grant.lib_runner in *.
  - by destruct (proj1 (Forall_forall _ _) Hnone e Hin).
  - rewrite Hev in Hin |- *.
    apply elem_of_app in Hin as [Hin|Hin%list_elem_of_singleton].
    { by destruct (proj1 (Forall_forall _ _) Hl e Hin). }
    subst e. rewrite last_snoc. split; [|done].
    exists c, r, err. split_and!; [done|done| |done].
    destruct c; try done; simpl in Hrej; by injection Hrej as <-.
Qed.

Lemma foreign_records_are_rejected_witness :
  (exists c r err,
     Storage (GetRefreshToken "old") (ok foreign_token) = Storage c r
     /\ rejection c = Some err
     /\ prop err "kind" = VStr "invalid_grant"
     /\ outcome (Grant.Grant (sample_model foreign_token (VStr "t0ken") (VStr "r3fresh"))
                   (sample_config (LSeconds 3600) false) refresh_request 1000 ∅)
        = Called err VUndefined)
  /\ last (events (final (Grant.Grant
                            (sample_model foreign_token (VStr "t0ken") (VStr "r3fresh"))
                            (sample_config (LSeconds 3600) false)
                            refresh_request 1000 ∅)))
     = Some (Storage (GetRefreshToken "old") (ok foreign_token)).
Proof.
  apply (foreign_records_are_rejected
           (sample_model foreign_token (VStr "t0ken") (VStr "r3fresh"))
           (sample_config (LSeconds 3600) false) refresh_request 1000 ∅
           (Storage (GetRefreshToken "old") (ok foreign_token)));
    [in_log|].
  split_and!; [reflexivity..|]. eexists. split; reflexivity.
Defined.

(** ** A request that is granted *)

(** A save step gets as far as the save under a lifetime that is not
    [null] and can be added. *)
Lemma addable_is_saved (z : Zone) (l : Lifetime) (id : option string) (clock : Z) :
  l <> LNull -> addable l -> is_Some (saved_expiry z l id clock).
Proof.
  destruct l as [|n|mp]; simpl; [done|by eauto|].
  intros _ ->. repeat case_match; by eauto.
Qed.

(** The addition of the path at hand cannot have thrown. *)
Ltac never_throws :=
  match goal with
  | Hv : index ?l ?k = Some ?v, Hn : add_seconds ?z ?t _ = None |- _ =>
      let Hr := fresh in
      destruct (expiry_resolved z l (Some k) t v Hv) as [_ Hr];
      repeat match goal with
             | H : negb (is_undefined _) = _ |- _ => rewrite H in Hr
             end;
      rewrite Hn in Hr;
      destruct (addable_is_saved z l (Some k) t) as [? ?]; [done..|congruence]
  end.

Section Granted.
Variable m : Model.
Variable cfg : Config.
Variable rq : Request.
Hypothesis Hm : cooperative m.
Hypothesis Hwf : well_formed cfg rq.
Hypothesis Hdirect : direct_grant rq.
Hypothesis Haccess : accessTokenLifetime cfg <> LNull.
Hypothesis Hrefresh : refreshTokenLifetime cfg <> LNull.
Hypothesis Haccess_adds : addable (accessTokenLifetime cfg).
Hypothesis Hrefresh_adds : addable (refreshTokenLifetime cfg).

Lemma extractCredentials_accepts :
  triple (fresh cfg rq) Grant.extractCredentials
    (fun _ => granting cfg rq) (answered cfg).
Proof.
  destruct Hwf as (Hmethod & Hmime & g & id & secret & Hg & Hgne & Hgre & Hc & Hidne
                   & Hidre & Hsne).
  apply String.eqb_neq in Hgne, Hidne, Hsne.
  intros w ((Hcfg & Hreq & Hev) & Hr). unfold granting, plain_refresh.
  unfold param, creds in *. unfold_steps.
  rewrite Hreq, Hmethod, Hmime, Hcfg. simpl. rewrite Hg. simpl.
  rewrite Hgne, Hgre, Hc. simpl. rewrite Hidne, Hidre, Hsne. simpl.
  split_and!; by eauto.
Qed.

Lemma Grant_steps_accept_before_dispatch :
  Forall (fun f => triple (granting cfg rq) f (fun _ => granting cfg rq) (answered cfg))
    [ GrantBase.checkClient m; Grant.exposeClient; Grant.checkGrantTypeAllowed m;
      Grant.exposeUser ].
Proof.
  destruct Hm as (Herr & Hval & Hgerr & Hgval).
  destruct Hwf as (_ & _ & g & id & secret & _ & _ & _ & Hc & _).
  repeat apply Forall_cons_2; [..|apply Forall_nil_2];
    intros w (Hcfg & (rq' & Hreq & Hpay) & Hclient & Hgrant & Hr);
    unfold granting, plain_refresh in *; unfold_steps;
    rewrite ?Hreq, ?Hclient, ?Hc; simpl;
    rewrite ?Herr, ?Hval by (simpl; eauto); simpl;
    split_and!; first [done|congruence|by eauto].
Qed.

Lemma Grant_dispatch_accepts :
  triple (granting cfg rq) (Grant.checkGrantType m) (fun _ => granting cfg rq)
    (answered cfg).
Proof.
  destruct Hm as (Herr & Hval & Hgerr & Hgval).
  destruct Hwf as (_ & _ & g & id & secret & _ & _ & _ & Hc & Hidne & _ & Hsne).
  apply String.eqb_neq in Hidne, Hsne.
  intros w (Hcfg & (rq' & Hreq & Hpay) & Hclient & Hgrant & Hr).
  unfold granting, plain_refresh, Grant.checkGrantType. rewrite Hgrant.
  destruct Hdirect as [(Hg & u & pw & Hu & Hune & Hpw & Hpwne)|Hg]; rewrite Hg; simpl.
  - apply String.eqb_neq in Hune, Hpwne.
    unfold param in *. unfold_steps. rewrite Hreq. simpl. rewrite Hpay.
    destruct (payload rq) as [body|]; [|done]. simpl in *.
    rewrite Hu, Hpw. simpl. rewrite Hune, Hpwne. simpl.
    rewrite Herr, Hval by (simpl; eauto). simpl.
    split_and!; first [done|congruence|by eauto].
  - unfold_steps. rewrite Hclient, Hc. simpl. rewrite Hidne, Hsne. simpl.
    rewrite Herr, Hval by (simpl; eauto). simpl.
    split_and!; first [done|congruence|by eauto].
Qed.

Lemma Grant_generateAccessToken_accepts :
  triple (granting cfg rq) (GrantBase.generateAccessToken m)
    (fun _ => granting_token cfg rq) (answered cfg).
Proof.
  destruct Hm as (Herr & Hval & Hgerr & Hgval).
  intros w (Hcfg & (rq' & Hreq & Hpay) & Hclient & Hgrant & Hr).
  unfold granting_token, granting, plain_refresh in *; unfold_steps.
  rewrite Hgerr. simpl. split_and!; first [done|congruence|by eauto].
Qed.

Lemma Grant_steps_accept_after_generation :
  Forall (fun f => triple (granting_token cfg rq) f (fun _ => granting_token cfg rq)
                     (answered cfg))
    [ GrantBase.saveAccessToken m; GrantBase.generateRefreshToken m;
      GrantBase.saveRefreshToken m ].
Proof.
  destruct Hm as (Herr & Hval & Hgerr & Hgval).
  destruct Hwf as (_ & _ & g & id & secret & _ & _ & _ & Hc & _).
  repeat apply Forall_cons_2; [..|apply Forall_nil_2];
    intros w ((Hcfg & (rq' & Hreq & Hpay) & Hclient & Hgrant & Hr) & s & Hs);
    unfold granting_token, granting, plain_refresh in *; unfold_steps;
    rewrite ?Hs, ?Hclient, ?Hc, ?Hcfg; simpl;
    try (destruct Hr as [Hr|[s' Hr]]; rewrite Hr; simpl);
    repeat (rewrite ?Herr, ?Hgerr in *; case_match; simplify_eq/=; try done);
    try (by destruct (accessTokenLifetime _));
    try (by destruct (refreshTokenLifetime _));
    try never_throws;
    rewrite ?Hgerr; simpl;
    split_and!; first [done|congruence|by eauto|right; by apply Hgval].
Qed.

Lemma Grant_sendResponse_answers :
  triple (granting_token cfg rq) Grant.sendResponse
    (fun r w' => answered cfg (Called VNull r) w') (answered cfg).
Proof.
  destruct Hwf as (_ & _ & g & id & secret & _ & _ & _ & Hc & _).
  intros w ((Hcfg & (rq' & Hreq & Hpay) & Hclient & Hgrant & Hr) & s & Hs).
  unfold answered; unfold_steps. rewrite Hclient, Hc, Hcfg. simpl.
  destruct (accessTokenLifetime cfg) eqn:Hl; [done|..]; simpl;
    repeat (case_match; simplify_eq/=; try done);
    rewrite last_snoc; by eauto.
Qed.

Lemma Grant_ends_answering : ends (fresh cfg rq) (Grant.fns m) (answered cfg).
Proof.
  pose proof Grant_steps_accept_before_dispatch as Hbefore.
  pose proof Grant_steps_accept_after_generation as Hafter.
  apply Forall_cons_1 in Hbefore as [H1 Hbefore].
  apply Forall_cons_1 in Hbefore as [H2 Hbefore].
  apply Forall_cons_1 in Hbefore as [H3 Hbefore].
  apply Forall_cons_1 in Hbefore as [H4 _].
  unfold Grant.fns.
  eapply ends_cons; [done|apply extractCredentials_accepts|].
  do 3 (eapply ends_cons; [done|eassumption|]).
  eapply ends_cons; [done|apply Grant_dispatch_accepts|].
  eapply ends_cons; [done|eassumption|].
  eapply ends_cons; [done|apply Grant_generateAccessToken_accepts|].
  by apply (ends_uniform (granting_token cfg rq) (answered cfg)
              [ GrantBase.saveAccessToken m; GrantBase.generateRefreshToken m;
                GrantBase.saveRefreshToken m ] Grant.sendResponse
              Hafter Grant_sendResponse_answers).
Qed.
End Granted.

(** X19.  A well-formed request for the password grant (with its user name
    and password) or for the client-credentials grant is granted when no
    collaborator fails: with a storage that reports no error and finds what
    it is asked for, a generator that returns strings, and lifetimes that
    are not [null] and that can be added to a number of seconds (a mapping
    with an entry named [toString] cannot: the addition throws for a client
    it does not list), the run ends by sending a response, and the final
    callback is called (without error) exactly under
    [continueAfterResponse]. *)
Theorem direct_grants_are_answered
    (m : Model) (cfg : Config) (rq : Request) (clock : Z)
    (globals : gmap string JSValue) :
  cooperative m ->
  well_formed cfg rq ->
  direct_grant rq ->
  accessTokenLifetime cfg <> LNull ->
  refreshTokenLifetime cfg <> LNull ->
  addable (accessTokenLifetime cfg) ->
  addable (refreshTokenLifetime cfg) ->
  (exists x, last (events (final (Grant.Grant m cfg rq clock globals)))
             = Some (Respond x))
  /\ outcome (Grant.Grant m cfg rq clock globals)
     = if continueAfterResponse cfg then Called VNull VUndefined else NotCalled.
Proof.
  intros Hm Hwf Hdirect Haccess Hrefresh Haccess_adds Hrefresh_adds.
  unfold Grant.Grant, Grant.lib_runner.
  by apply (ends_runner _ _ _ _
              (Grant_ends_answering m cfg rq Hm Hwf Hdirect Haccess Hrefresh
                 Haccess_adds Hrefresh_adds)).
Qed.


Lemma direct_grants_are_answered_witness :
  (exists x, last (events (final (Grant.Grant obliging_model
                                    (sample_config (LSeconds 3600) true)
                                    password_request 1000 ∅)))
             = Some (Respond x))
  /\ outcome (Grant.Grant obliging_model (sample_config (LSeconds 3600) true)
               password_request 1000 ∅)
     = Called VNull VUndefined.
Proof.
  apply (direct_grants_are_answered obliging_model
           (sample_config (LSeconds 3600) true) password_request 1000 ∅).
  - split_and!; intros; simpl; by eauto.
  - split_and!; [reflexivity..|].
    exists "password", "thom", "nightworld". by split_and!.
  - left. split; [reflexivity|]. exists "bob", "hunter2". by split_and!.
  - discriminate.
  - discriminate.
  - exact I.
  - exact I.
Defined.

(** Under a mapping with an entry named [toString] the save step throws for
    a client the mapping does not list: the run ends with the TypeError once
    the token is generated; nothing is saved and nothing is sent. *)
Lemma toString_lifetime_is_not_answered :
  let R := Grant.Grant obliging_model (sample_config toString_lifetime true)
             password_request 1000 ∅ in
  outcome R = Uncaught TypeError /\ (ran R).*1 = seq 0 8
  /\ last (events (final R)) = Some (Token AccessTokenKind (ok (VStr "t0ken"))).
Proof. split_and!; reflexivity. Qed.

(** ** The response of the pre-approved pipelines *)

Lemma failure_returns_nothing e w :
  truthy e = true -> returns_issued_tokens (Called e VUndefined) w.
Proof. intros He x [= -> _]. done. Qed.

(** A triple keeps holding when the property of the failures is replaced by
    one that every failure has. *)
Lemma triple_failures {W : Type} (P : W -> Prop) (f : Step W) (M : JSValue -> W -> Prop)
    (Q Q' : Outcome -> W -> Prop) :
  (forall e w, truthy e = true -> Q' (Called e VUndefined) w) ->
  (forall w, Q' NotCalled w) -> (forall x w, Q' (Uncaught x) w) ->
  triple P f M Q -> triple P f M Q'.
Proof.
  intros Herr Hpending Hthrew Hf w HP. specialize (Hf w HP).
  destruct (f w) as [[e r| |x] w']; [|done..].
  destruct (truthy e) eqn:He; [by apply Herr|done].
Qed.

Lemma returns_issued_tokens_response w x :
  tokens_generated (issued RefreshTokenKind) w ->
  prop x "token_type" = VStr "bearer" ->
  prop x "access_token" = accessToken (this w) ->
  prop x "refresh_token" =
    (if truthy (refreshToken (this w)) then refreshToken (this w) else VUndefined) ->
  returns_issued_tokens (Called VNull x) w.
Proof.
  intros ([Hex Ha] & [Hr Hnor] & Hun) Htype Haccess Hrefresh y [= <-]. split_and!.
  - done.
  - done.
  - intros r Hin. by rewrite Haccess, (Ha r Hin).
  - intros r Hin. rewrite Hrefresh, (Hr r Hin).
    destruct (truthy (r_val r)) eqn:Hv.
    + by rewrite (issued_truthy _ _ Hv).
    + by rewrite (issued_falsy _ _ Hv), Hv.
  - intros Hn. by rewrite Hrefresh, (Hnor Hn).
Qed.

Ltac returns_nothing :=
  first [ by intros ? [=]
        | apply failure_returns_nothing; first [apply error_truthy|eassumption] ].

Section PreApprovedResponse.
Variable m : Model.

Lemma PreApproved_steps_generate_no_token :
  Forall (fun f => triple no_token_yet f (fun _ => no_token_yet) returns_issued_tokens)
    [ PreApproved1.extractPreApprovedCredentials; PreApproved1.checkClient m;
      PreApproved1.checkGrantType;
      PreApproved2.extractPreApprovedCredentials; GrantBase.checkClient m;
      PreApproved2.checkGrantType ].
Proof.
  repeat apply Forall_cons_2; [..|apply Forall_nil_2];
    intros w (Hno & [Hnor Hr] & Hun);
    unfold no_token_yet, no_refresh_yet;
    unfold_preApproved_steps; step_paths;
    first [ returns_nothing | split_and!; token_log; done ].
Qed.

Lemma PreApproved1_steps_issue_tokens :
  triple no_token_yet (PreApproved1.generateAccessToken m)
    (fun _ => access_generated (fun v => v)) returns_issued_tokens
  /\ triple (access_generated (fun v => v)) (PreApproved1.saveAccessToken m)
       (fun _ => access_generated (issued AccessTokenKind)) returns_issued_tokens
  /\ triple (access_generated (issued AccessTokenKind)) (PreApproved1.generateRefreshToken m)
       (fun _ => tokens_generated (fun v => v)) returns_issued_tokens
  /\ triple (tokens_generated (fun v => v)) (PreApproved1.saveRefreshToken m)
       (fun _ => tokens_generated (issued RefreshTokenKind)) returns_issued_tokens.
Proof.
  split_and!.
  - intros w (Hno & [Hnor Hr] & Hun).
    unfold access_generated, access_is, no_refresh_yet.
    unfold_preApproved_steps; step_paths;
      first [ returns_nothing | split_and!; token_log; done ].
  - intros w ([Hex Ha] & [Hnor Hr] & Hun).
    unfold access_generated, access_is, no_refresh_yet, issued.
    unfold_preApproved_steps; step_paths;
      first [ returns_nothing
            | split_and!; token_log; try done;
              intros r Hin; rewrite <- (Ha r Hin);
              match goal with
              | H : typeof_object _ && truthy _ = _ |- _ => by rewrite H
              end ].
  - intros w ([Hex Ha] & [Hnor Hr] & Hun).
    unfold tokens_generated, access_is, refresh_is.
    unfold_preApproved_steps; step_paths;
      first [ returns_nothing
            | split_and!; token_log; try done;
              first [ intros r Hin; by destruct (Hnor r)
                    | intros Hn; by destruct (generated_here _ _ _ Hn) ] ].
  - intros w ([Hex Ha] & [Hr Hnor] & Hun).
    unfold tokens_generated, access_is, refresh_is.
    unfold_preApproved_steps; step_paths;
      first [ returns_nothing
            | split_and!; token_log; try done ];
      bool_facts;
      first [ intros r Hin; rewrite <- (Hr r Hin);
              first [ symmetry; by apply issued_falsy
                    | unfold issued;
                      match goal with
                      | H : typeof_object _ && truthy _ = _ |- _ => by rewrite H
                      end ]
            | intros Hn; apply not_generated_prefix in Hn; by apply Hnor
            | intros Hn; rewrite (Hnor Hn) in *; done ].
Qed.

Lemma PreApproved_responses_return_issued_tokens :
  Forall (fun f => triple (tokens_generated (issued RefreshTokenKind)) f
                     (fun r w' => returns_issued_tokens (Called VNull r) w')
                     returns_issued_tokens)
    [ PreApproved1.returnPreApprovedResponse; PreApproved2.returnPreApprovedResponse ].
Proof.
  repeat apply Forall_cons_2; [..|apply Forall_nil_2];
    intros w Hw; pose proof Hw as ([Hex Ha] & [Hr Hnor] & Hun);
    unfold_preApproved_steps; step_paths; try returns_nothing;
    (apply returns_issued_tokens_response; [done|done|done|]);
    match goal with H : truthy (refreshToken _) = _ |- _ => by rewrite H end.
Qed.

Lemma PreApproved_ends_returning_issued_tokens :
  ends no_token_yet (PreApproved1.fns m) returns_issued_tokens
  /\ ends no_token_yet (PreApproved2.fns m) returns_issued_tokens.
Proof.
  pose proof PreApproved_steps_generate_no_token as Hsteps.
  destruct PreApproved1_steps_issue_tokens as (A1 & A2 & A3 & A4).
  pose proof PreApproved_responses_return_issued_tokens as Hlast.
  apply Forall_cons_1 in Hsteps as [H1 Hsteps].
  apply Forall_cons_1 in Hsteps as [H2 Hsteps].
  apply Forall_cons_1 in Hsteps as [H3 Hsteps].
  apply Forall_cons_1 in Hsteps as [H4 Hsteps].
  apply Forall_cons_1 in Hsteps as [H5 Hsteps].
  apply Forall_cons_1 in Hsteps as [H6 _].
  apply Forall_cons_1 in Hlast as [L1 Hlast].
  apply Forall_cons_1 in Hlast as [L2 _].
  assert (forall P f M, triple P f M sends_issued_tokens ->
                        triple P f M returns_issued_tokens) as Hbase.
  { intros P f M. apply triple_failures.
    - apply failure_returns_nothing.
    - by intros w x [=].
    - by intros x w y [=]. }
  split.
  - unfold PreApproved1.fns.
    do 3 (eapply ends_cons; [done|eassumption|]).
    do 4 (eapply ends_cons; [done|eassumption|]).
    by apply ends_last.
  - unfold PreApproved2.fns.
    do 3 (eapply ends_cons; [done|eassumption|]).
    eapply ends_cons; [done|apply Hbase, generateAccessToken_generates|].
    eapply ends_cons; [done|apply Hbase, saveAccessToken_issues|].
    eapply ends_cons; [done|apply Hbase, generateRefreshToken_generates|].
    eapply ends_cons; [done|apply Hbase, saveRefreshToken_issues|].
    by apply ends_last.
Qed.
End PreApprovedResponse.

(** X20.  When a pre-approved pipeline succeeds, the response it passes to
    the final callback carries [token_type] [bearer] and the tokens of this
    run, as the response of the full pipeline does. *)
Theorem preApproved_response_carries_the_generated_tokens
    (m : Model) (cfg : Config) (p : PreApproved) (clock : Z)
    (globals : gmap string JSValue) (R : Run World) (x : JSValue) :
  R = PreApproved1.PreApprovedGrant m cfg p clock globals
  \/ R = PreApproved2.PreApprovedGrant m cfg p clock globals ->
  outcome R = Called VNull x ->
  prop x "token_type" = VStr "bearer"
  /\ (exists r, Token AccessTokenKind r ∈ events (final R))
  /\ (forall r, Token AccessTokenKind r ∈ events (final R) ->
        prop x "access_token" = issued AccessTokenKind (r_val r))
  /\ (forall r, Token RefreshTokenKind r ∈ events (final R) ->
        prop x "refresh_token" =
          if truthy (r_val r) then issued RefreshTokenKind (r_val r) else VUndefined)
  /\ (not_generated RefreshTokenKind (events (final R)) ->
      prop x "refresh_token" = VUndefined).
Proof.
  intros HR. revert x.
  change (returns_issued_tokens (outcome R) (final R)).
  destruct (PreApproved_ends_returning_issued_tokens m) as [E1 E2].
  assert (forall c g,
            no_token_yet
              {| this :=
                   {| config := cfg; now := clock; req := None; preApproved := Some p;
                      client := None; clientModel := VUndefined; user := VUndefined;
                      grantType := g; accessToken := VUndefined;
                      refreshToken := VUndefined |};
                 receiver := c; events := [] |}) as Hstart.
  { intros c g. repeat split; simpl; try done; by intros ? ?%elem_of_nil. }
  destruct HR as [-> | ->].
  - unfold PreApproved1.PreApprovedGrant.
    destruct (continueAfterResponse cfg); [by intros x [=]|].
    apply (ends_runner _ _ _ _ E1), Hstart.
  - unfold PreApproved2.PreApprovedGrant.
    apply (ends_runner _ _ _ _ E2), Hstart.
Qed.

Lemma preApproved_response_carries_the_generated_tokens_witness :
  prop (VObj (<["refresh_token" := VStr "r3fresh"]>
                (<["expires_in" := VNum 3600]>
                   (<["access_token" := VStr "t0ken"]>
                      {["token_type" := VStr "bearer"]})))) "access_token"
  = issued AccessTokenKind (r_val (ok (VStr "t0ken"))).
Proof.
  apply (preApproved_response_carries_the_generated_tokens
           (sample_model VUndefined (VStr "t0ken") (VStr "r3fresh"))
           (sample_config (LSeconds 3600) false) sample_preApproved 1000 ∅
           (PreApproved1.PreApprovedGrant
              (sample_model VUndefined (VStr "t0ken") (VStr "r3fresh"))
              (sample_config (LSeconds 3600) false) sample_preApproved 1000 ∅)
           (VObj (<["refresh_token" := VStr "r3fresh"]>
                    (<["expires_in" := VNum 3600]>
                       (<["access_token" := VStr "t0ken"]>
                          {["token_type" := VStr "bearer"]})))));
    [by left|by vm_compute|in_log].
Defined.

(** ** Expired authorization codes *)

Ltac not_stale Hclient :=
  simpl;
  first [ tauto
        | intros (? & Hv & (c & Hc & Heq) & ?);
          try (rewrite <- Hclient in Hc; injection Hc as <-);
          repeat match goal with
                 | H : _ || _ = true |- _ => rewrite Hv, Heq in H
                 end;
          simpl in *; congruence ].

Section StaleCodes.
Variable m : Model.
Variable clock : Z.
Variable rq : Request.

Lemma extractCredentials_finds_nothing_stale :
  triple (started_on clock rq) Grant.extractCredentials (fun _ => none_stale clock rq)
    (rejects_stale clock rq).
Proof.
  intros w (Hnow & Hreq & Hev). unfold none_stale, rejects_stale, creds.
  step_paths; rewrite ?Hev; first [left; by constructor|split_and!; by eauto].
Qed.

Lemma Grant_steps_reject_stale_codes :
  Forall (fun f => triple (none_stale clock rq) f (fun _ => none_stale clock rq)
                     (rejects_stale clock rq))
    [ GrantBase.checkClient m; Grant.exposeClient;
      Grant.checkGrantTypeAllowed m; Grant.exposeUser;
      GrantBase.generateAccessToken m; GrantBase.saveAccessToken m;
      GrantBase.generateRefreshToken m; GrantBase.saveRefreshToken m ]
  /\ Forall (fun f => triple (none_stale clock rq) f (fun _ => none_stale clock rq)
                        (rejects_stale clock rq))
       [ Grant.useExtendedGrant m; Grant.useAuthCodeGrant m;
         Grant.usePasswordGrant m; Grant.useRefreshTokenGrant m;
         Grant.useClientCredentialsGrant m ]
  /\ triple (none_stale clock rq) Grant.sendResponse
       (fun r w' => rejects_stale clock rq (Called VNull r) w') (rejects_stale clock rq).
Proof.
  split_and!; [repeat apply Forall_cons_2; [..|apply Forall_nil_2]..|];
    intros w (Hnow & Hclient & Hlog); unfold none_stale, rejects_stale;
    step_paths; bool_facts;
    first [ left; log_facts; not_stale Hclient
          | split_and!; [done|congruence|]; log_facts; not_stale Hclient
          | right; eexists _, _; split_and!; [reflexivity|log_facts|reflexivity] ].
Qed.

Lemma Grant_ends_rejecting_stale_codes :
  ends (started_on clock rq) (Grant.fns m) (rejects_stale clock rq).
Proof.
  destruct Grant_steps_reject_stale_codes as (Hsteps & Hgrants & Hlast).
  apply Forall_cons_1 in Hsteps as [H1 Hsteps].
  apply Forall_cons_1 in Hsteps as [H2 Hsteps].
  apply Forall_cons_1 in Hsteps as [H3 Hsteps].
  apply Forall_cons_1 in Hgrants as [G1 Hgrants].
  apply Forall_cons_1 in Hgrants as [G2 Hgrants].
  apply Forall_cons_1 in Hgrants as [G3 Hgrants].
  apply Forall_cons_1 in Hgrants as [G4 Hgrants].
  apply Forall_cons_1 in Hgrants as [G5 _].
  apply (Grant_ends_through m _ (none_stale clock rq));
    [apply extractCredentials_finds_nothing_stale| |done].
  do 3 (apply Forall_cons_2; [done|]).
  apply Forall_cons_2; [|done].
  apply checkGrantType_triple; try done; intros w (_ & _ & Hlog); by left.
Qed.
End StaleCodes.

(** X21.  An authorization code of the authenticated client whose expiry
    lies before the clock reading ends the run at its lookup, which stays
    the last call of the run: the final callback gets [invalid_grant],
    [Code has expired].  The expiry is compared as [expires < now] compares
    it: a date by its time value, a number as it is, a string by the number
    it spells, [null] as the epoch. *)
Theorem expired_code_is_rejected
    (m : Model) (cfg : Config) (rq : Request) (clock : Z)
    (globals : gmap string JSValue) (e : Event) :
  e ∈ events (final (Grant.Grant m cfg rq clock globals)) ->
  stale_code (creds rq) clock e ->
  outcome (Grant.Grant m cfg rq clock globals)
    = Called (error (VStr "invalid_grant") (VStr "Code has expired") VUndefined)
        VUndefined
  /\ last (events (final (Grant.Grant m cfg rq clock globals))) = Some e.
Proof.
  intros Hin Hstale.
  destruct (ends_runner _ _ _
    {| this := set_req (Some rq) (GrantBase.GrantBase cfg clock);
       receiver := globals; events := [] |}
    (Grant_ends_rejecting_stale_codes m clock rq))
    as [Hnone|(l & e' & Hev & Hl & Ho)]; [done|..];
    unfold Grant.Grant, Grant.lib_runner in *.
  - by destruct (proj1 (Forall_forall _ _) Hnone e Hin).
  - rewrite Hev in Hin |- *.
    apply elem_of_app in Hin as [Hin|Hin%list_elem_of_singleton].
    { by destruct (proj1 (Forall_forall _ _) Hl e Hin). }
    subst e'. by rewrite last_snoc.
Qed.

Lemma expired_code_is_rejected_witness :
  outcome (Grant.Grant (sample_model stale_record (VStr "t0ken") (VStr "r3fresh"))
             (sample_config (LSeconds 3600) false) code_request 1000 ∅)
    = Called (error (VStr "invalid_grant") (VStr "Code has expired") VUndefined)
        VUndefined
  /\ last (events (final (Grant.Grant
                            (sample_model stale_record (VStr "t0ken") (VStr "r3fresh"))
                            (sample_config (LSeconds 3600) false) code_request 1000 ∅)))
     = Some (Storage (GetAuthCode "c0de") (ok stale_record)).
Proof.
  apply (expired_code_is_rejected
           (sample_model stale_record (VStr "t0ken") (VStr "r3fresh"))
           (sample_config (LSeconds 3600) false) code_request 1000 ∅
           (Storage (GetAuthCode "c0de") (ok stale_record)));
    [in_log|].
  split_and!; [reflexivity..| |reflexivity]. eexists. split; reflexivity.
Defined.

(** An expiry given as a string counts by the number it spells: a code
    whose [expires] is the string 999 is expired at the clock reading 1000. *)
Lemma string_expiry_is_compared_as_a_number :
  lt_date (VStr "999") 1000 = Some true
  /\ lt_date (VStr "1e3") 1000 = Some false
  /\ lt_date (VStr "soon") 1000 = Some false
  /\ outcome (Grant.Grant
                (sample_model string_stale_record (VStr "t0ken") (VStr "r3fresh"))
                (sample_config (LSeconds 3600) false) code_request 1000 ∅)
     = Called (error (VStr "invalid_grant") (VStr "Code has expired") VUndefined)
         VUndefined.
Proof. split_and!; reflexivity. Qed.

(** ** Storage errors in the pre-approved pipelines *)

Lemma preApproved_storage_errors_surface_witness :
  exists e,
    outcome (PreApproved2.PreApprovedGrant (broken_model (VStr "db down"))
               (sample_config (LSeconds 3600) false) sample_preApproved 1000 ∅)
      = Called e VUndefined
    /\ surfaced (GetClient (Some "thom") (Some "nightworld"))
         (r_err (failed (VStr "db down"))) e.
Proof.
  apply (preApproved_storage_errors_surface (broken_model (VStr "db down"))
           (sample_config (LSeconds 3600) false) sample_preApproved 1000 ∅
           (PreApproved2.PreApprovedGrant (broken_model (VStr "db down"))
              (sample_config (LSeconds 3600) false) sample_preApproved 1000 ∅)
           (GetClient (Some "thom") (Some "nightworld")) (failed (VStr "db down")));
    [by right|in_log|reflexivity].
Defined.

(** ** Grant types that are not supported *)

Lemma ends_nowhere {W : Type} (fs : list (Step W)) (Q : Outcome -> W -> Prop) :
  ends (fun _ => False) fs Q.
Proof. by intros pos tr w []. Qed.

Ltac early_log :=
  log_facts; simpl; first [ exact I | done | tauto | intros [? ?]; congruence ].

Section Unsupported.
Variable m : Model.
Variable rq : Request.
Variable g : string.
Hypothesis Hg : param rq "grant_type" = Some g.
Hypothesis Hbuiltin : g ∉ builtin_grants.
Hypothesis Hextension : Grant.matches_extension g && extendedGrant m = false.

Lemma Grant_steps_before_allowance :
  Forall (fun f => triple (before_allowance g) f (fun _ => before_allowance g)
                     never_dispatched)
    [ GrantBase.checkClient m; Grant.exposeClient ]
  /\ triple (started rq) Grant.extractCredentials (fun _ => before_allowance g)
       never_dispatched
  /\ triple (before_allowance g) (Grant.checkGrantTypeAllowed m)
       (fun _ => before_dispatch g) never_dispatched.
Proof.
  split_and!; [repeat apply Forall_cons_2; [..|apply Forall_nil_2]|..].
  1-2,4: intros w (Hgrant & Hearly & Hnot).
  4: intros w (Hreq & Hev).
  all: unfold before_allowance, before_dispatch, never_dispatched, param in *;
    step_paths; bool_facts; rewrite ?Hev;
    first [ split_and!; first [congruence|early_log]
          | split; [early_log|left; early_log] ].
Qed.

Lemma Grant_dispatch_knows_no_such_grant :
  triple (before_dispatch g) (Grant.checkGrantType m) (fun _ _ => False)
    never_dispatched.
Proof.
  intros w [Hgrant Hearly]. unfold Grant.checkGrantType, never_dispatched.
  rewrite Hgrant, Hextension.
  assert (Forall (fun b => String.eqb g b = false) builtin_grants) as Hnone.
  { apply Forall_forall. intros b Hb. apply String.eqb_neq. by intros ->. }
  apply Forall_cons_1 in Hnone as [-> Hnone].
  apply Forall_cons_1 in Hnone as [-> Hnone].
  apply Forall_cons_1 in Hnone as [-> Hnone].
  apply Forall_cons_1 in Hnone as [-> _].
  unfold fail. rewrite error_truthy. split; [done|by right].
Qed.

Lemma Grant_ends_never_dispatched :
  ends (started rq) (Grant.fns m) never_dispatched.
Proof.
  destruct Grant_steps_before_allowance as (Hsteps & Hfirst & Hallowed).
  apply Forall_cons_1 in Hsteps as [H1 Hsteps].
  apply Forall_cons_1 in Hsteps as [H2 _].
  unfold Grant.fns.
  eapply ends_cons; [done|exact Hfirst|].
  do 2 (eapply ends_cons; [done|eassumption|]).
  eapply ends_cons; [done|exact Hallowed|].
  eapply ends_cons; [done|apply Grant_dispatch_knows_no_such_grant|].
  apply ends_nowhere.
Qed.
End Unsupported.

(** X23.  A grant type that is none of the four built-in ones, and is not
    taken as an extension (no scheme prefix, or a model without
    [extendedGrant]), is never dispatched: the storage is asked for the
    client and the allowance only, and a request that gets its allowance
    ends with [invalid_request]. *)
Theorem unsupported_grant_type_is_rejected
    (m : Model) (cfg : Config) (rq : Request) (clock : Z)
    (globals : gmap string JSValue) (g : string) :
  param rq "grant_type" = Some g ->
  g ∉ builtin_grants ->
  Grant.matches_extension g && extendedGrant m = false ->
  Forall early (events (final (Grant.Grant m cfg rq clock globals)))
  /\ forall e, e ∈ events (final (Grant.Grant m cfg rq clock globals)) ->
       allowed e ->
       outcome (Grant.Grant m cfg rq clock globals) = Called unsupported VUndefined.
Proof.
  intros Hg Hbuiltin Hextension.
  destruct (ends_runner _ _ _
    {| this := set_req (Some rq) (GrantBase.GrantBase cfg clock);
       receiver := globals; events := [] |}
    (Grant_ends_never_dispatched m rq g Hg Hbuiltin Hextension))
    as [Hearly Hend]; [done|].
  unfold Grant.Grant, Grant.lib_runner. split; [done|].
  intros e Hin He. destruct Hend as [Hnot|Ho]; [|done].
  by destruct (proj1 (Forall_forall _ _) Hnot e Hin).
Qed.

Lemma unsupported_grant_type_is_rejected_witness :
  Forall early
    (events (final (Grant.Grant (sample_model VUndefined (VStr "t0ken") (VStr "r3fresh"))
                      (sample_config (LSeconds 3600) false) implicit_request 1000 ∅)))
  /\ forall e,
       e ∈ events (final (Grant.Grant
                            (sample_model VUndefined (VStr "t0ken") (VStr "r3fresh"))
                            (sample_config (LSeconds 3600) false)
                            implicit_request 1000 ∅)) ->
       allowed e ->
       outcome (Grant.Grant (sample_model VUndefined (VStr "t0ken") (VStr "r3fresh"))
                  (sample_config (LSeconds 3600) false) implicit_request 1000 ∅)
       = Called unsupported VUndefined.
Proof.
  apply (unsupported_grant_type_is_rejected
           (sample_model VUndefined (VStr "t0ken") (VStr "r3fresh"))
           (sample_config (LSeconds 3600) false) implicit_request 1000 ∅ "implicit").
  - reflexivity.
  - unfold builtin_grants.
    intros [?|[?|[?|[?|?%elem_of_nil]%elem_of_cons]%elem_of_cons]%elem_of_cons]%elem_of_cons;
      done.
  - reflexivity.
Defined.

(** The example request does get its allowance, and ends as unsupported. *)
Lemma implicit_grant_is_unsupported :
  outcome (Grant.Grant (sample_model VUndefined (VStr "t0ken") (VStr "r3fresh"))
             (sample_config (LSeconds 3600) false) implicit_request 1000 ∅)
  = Called unsupported VUndefined.
Proof. by vm_compute. Qed.

(** ** What a run leaves of the request *)

Lemma Grant_steps_keep_the_request (m : Model) (rq : Request) :
  Forall (fun f => triple (request_kept rq) f (fun _ => request_kept rq)
                     (request_kept_at_end rq))
    [ Grant.extractCredentials; GrantBase.checkClient m; Grant.exposeClient;
      Grant.checkGrantTypeAllowed m; Grant.exposeUser;
      GrantBase.generateAccessToken m; GrantBase.saveAccessToken m;
      GrantBase.generateRefreshToken m; GrantBase.saveRefreshToken m ]
  /\ Forall (fun f => triple (request_kept rq) f (fun _ => request_kept rq)
                        (request_kept_at_end rq))
       [ Grant.useExtendedGrant m; Grant.useAuthCodeGrant m;
         Grant.usePasswordGrant m; Grant.useRefreshTokenGrant m;
         Grant.useClientCredentialsGrant m ]
  /\ triple (request_kept rq) Grant.sendResponse
       (fun r w' => request_kept_at_end rq (Called VNull r) w')
       (request_kept_at_end rq).
Proof.
  split_and!; [repeat apply Forall_cons_2; [..|apply Forall_nil_2]..|];
    intros w [a Ha]; unfold request_kept_at_end, request_kept;
    step_paths; by eauto.
Qed.

(** X24.  A run changes nothing of the request but [req.app]: method,
    encoding, body and credentials are at the end what they were. *)
Theorem Grant_changes_only_req_app
    (m : Model) (cfg : Config) (rq : Request) (clock : Z)
    (globals : gmap string JSValue) :
  exists a,
    req (this (final (Grant.Grant m cfg rq clock globals))) = Some (set_app a rq).
Proof.
  destruct (Grant_steps_keep_the_request m rq) as (Hsteps & Hgrants & Hlast).
  unfold Grant.Grant, Grant.lib_runner.
  apply (ends_runner _ _ _ _
           (Grant_ends_uniform m (request_kept rq) (request_kept_at_end rq)
              Hsteps Hgrants (fun _ _ H => H) Hlast)).
  exists (app rq). by destruct rq.
Qed.

(** ** A pre-approval that is granted *)

(** A save step of the first module gets as far as the save under a
    lifetime that can be added. *)
Lemma addable_is_flat (z : Zone) (l : Lifetime) (clock : Z) :
  addable l -> is_Some (flat_expiry z l clock).
Proof.
  destruct l as [|n|mp]; simpl; [by eauto..|].
  intros ->. by eauto.
Qed.

Ltac never_throws_flat :=
  match goal with
  | Hn : add_seconds ?z ?t (lifetime_value ?l) = None |- _ =>
      let Hf := fresh in
      destruct (addable_is_flat z l t) as [? Hf]; [done|];
      rewrite flat_expiry_resolved in Hf;
      repeat match goal with
             | H : negb (is_null _) = _ |- _ => rewrite H in Hf
             end;
      congruence
  end.

Section PreApprovedGranted.
Variable m : Model.
Variable cfg : Config.
Variable p : PreApproved.
Hypothesis Hm : cooperative m.
Hypothesis Hwf : preApproved_well_formed cfg p.
Hypothesis Haccess_adds : addable (accessTokenLifetime cfg).
Hypothesis Hrefresh_adds : addable (refreshTokenLifetime cfg).

Lemma PreApproved_first_steps_accept :
  Forall (fun f => triple (preApproved_fresh cfg p) f
                     (fun _ => preApproved_granting cfg p) succeeded)
    [ PreApproved1.extractPreApprovedCredentials;
      PreApproved2.extractPreApprovedCredentials ].
Proof.
  destruct Hwf as (Huser & id & secret & Hid & Hidne & Hidre & Hsecret & Hsne).
  apply String.eqb_neq in Hidne, Hsne.
  repeat apply Forall_cons_2; [..|apply Forall_nil_2];
    intros w (Hcfg & Hp & Hr); unfold preApproved_granting, plain_refresh;
    unfold_preApproved_steps; unfold_steps.
  all: rewrite Hp, Huser, Hcfg; simpl; rewrite Hid, Hsecret; simpl;
    rewrite Hidne, Hidre, Hsne; simpl; split_and!; by eauto.
Qed.

Lemma PreApproved_steps_accept :
  Forall (fun f => triple (preApproved_granting cfg p) f
                     (fun _ => preApproved_granting cfg p) succeeded)
    [ PreApproved1.checkClient m; PreApproved1.checkGrantType;
      GrantBase.checkClient m; PreApproved2.checkGrantType ]
  /\ Forall (fun f => triple (preApproved_granting cfg p) f
                        (fun _ => preApproved_granting_token cfg p) succeeded)
       [ PreApproved1.generateAccessToken m; GrantBase.generateAccessToken m ].
Proof.
  destruct Hm as (Herr & Hval & Hgerr & Hgval).
  split; repeat apply Forall_cons_2; try apply Forall_nil_2;
    intros w (Hcfg & Hp & Hclient & Hr);
    unfold preApproved_granting_token, preApproved_granting, plain_refresh in *;
    unfold_preApproved_steps; unfold_steps;
    rewrite ?Hp, ?Hclient; simpl;
    rewrite ?Herr, ?Hgerr, ?Hval by (simpl; eauto); simpl;
    split_and!; first [done|congruence|by eauto].
Qed.

Lemma PreApproved1_steps_accept_after_generation :
  Forall (fun f => triple (preApproved_granting_token cfg p) f
                     (fun _ => preApproved_granting_token cfg p) succeeded)
    [ PreApproved1.saveAccessToken m; PreApproved1.generateRefreshToken m;
      PreApproved1.saveRefreshToken m ]
  /\ triple (preApproved_granting_token cfg p) PreApproved1.returnPreApprovedResponse
       (fun r w' => succeeded (Called VNull r) w') succeeded.
Proof.
  destruct Hm as (Herr & Hval & Hgerr & Hgval).
  split; [repeat apply Forall_cons_2; [..|apply Forall_nil_2]|];
    intros w ((Hcfg & Hp & Hclient & Hr) & s & Hs);
    unfold preApproved_granting_token, preApproved_granting, plain_refresh, succeeded in *;
    unfold_preApproved_steps; unfold_steps;
    rewrite ?Hs, ?Hclient, ?Hcfg; simpl;
    try (destruct Hr as [Hr|[s' Hr]]; rewrite Hr; simpl);
    repeat (rewrite ?Herr, ?Hgerr in *; case_match; simplify_eq/=; try done);
    try never_throws_flat;
    rewrite ?Hgerr; simpl;
    first [ by eauto
          | split_and!; first [done|congruence|by eauto|right; by apply Hgval] ].
Qed.

Lemma PreApproved1_ends_succeeding :
  ends (preApproved_fresh cfg p) (PreApproved1.fns m) succeeded.
Proof.
  pose proof PreApproved_first_steps_accept as Hfirst.
  destruct PreApproved_steps_accept as [Hsteps Hgen].
  destruct PreApproved1_steps_accept_after_generation as [Hafter Hlast].
  apply Forall_cons_1 in Hfirst as [F1 _].
  apply Forall_cons_1 in Hsteps as [H1 Hsteps].
  apply Forall_cons_1 in Hsteps as [H2 _].
  apply Forall_cons_1 in Hgen as [G1 _].
  unfold PreApproved1.fns.
  do 4 (eapply ends_cons; [done|eassumption|]).
  by apply (ends_uniform _ _ _ _ Hafter Hlast).
Qed.
End PreApprovedGranted.

(** X25.  Without [continueAfterResponse], the first pre-approved pipeline
    succeeds for every well-formed pre-approval when no collaborator fails,
    under every lifetime that can be added to a number of seconds, [null]
    included (a mapping with an entry named [toString] cannot: the addition
    throws): the final callback gets a response and no error. *)
Theorem PreApproved1_is_granted
    (m : Model) (cfg : Config) (p : PreApproved) (clock : Z)
    (globals : gmap string JSValue) :
  cooperative m ->
  preApproved_well_formed cfg p ->
  continueAfterResponse cfg = false ->
  addable (accessTokenLifetime cfg) ->
  addable (refreshTokenLifetime cfg) ->
  exists x, outcome (PreApproved1.PreApprovedGrant m cfg p clock globals)
            = Called VNull x.
Proof.
  intros Hm Hwf Hcontinue Haccess Hrefresh.
  unfold PreApproved1.PreApprovedGrant. rewrite Hcontinue.
  by apply (ends_runner _ _ _ _
              (PreApproved1_ends_succeeding m cfg p Hm Hwf Haccess Hrefresh)).
Qed.

Lemma PreApproved1_is_granted_witness :
  exists x, outcome (PreApproved1.PreApprovedGrant obliging_model
                       (sample_config LNull false) sample_preApproved 1000 ∅)
            = Called VNull x.
Proof.
  apply (PreApproved1_is_granted obliging_model (sample_config LNull false)
           sample_preApproved 1000 ∅).
  - split_and!; intros; simpl; by eauto.
  - split; [reflexivity|]. exists "thom", "nightworld". by split_and!.
  - reflexivity.
  - exact I.
  - exact I.
Defined.

(** Under a mapping with an entry named [toString] the save step of the
    first module throws, whoever the client: the final callback is never
    called. *)
Lemma toString_lifetime_is_not_granted :
  let R := PreApproved1.PreApprovedGrant obliging_model
             (sample_config toString_lifetime false) sample_preApproved 1000 ∅ in
  outcome R = Uncaught TypeError /\ (ran R).*1 = seq 0 5.
Proof. split_and!; reflexivity. Qed.
